(** * Contract analyzer: risk aggregation, heuristic detectors and extraction

    A shallow embedding of [backend/services/analyzer.js] (class
    [ContractAnalyzer]) and of the [/api/analyze] route of the backend server.

    Conventions of the embedding.
    - A JavaScript string is a [string]: one [ascii] per code unit, so the
      texts of the model are those whose code units are below 256.  On them
      [toLowerCase] maps A to Z and the capital letters 192 to 222 (215, the
      multiplication sign, apart), [trim] and the class [\s] take the code
      units 9 to 13, 32 and 160, and [\w] is the ASCII letters, the digits
      and the underscore, as in JavaScript.
    - A JavaScript number that counts or scores is a [Z]; an index into a
      string is a [nat] ([Math.max(0, i - n)] is the truncated [i - n]).
    - A field that the code reads through [x || ''] is an [option string]:
      [None] is a missing ([undefined]) field.  The name and the severity of
      a finding as any parsed value are treated with the reading of the
      output of Slither.
    - The external tools (Slither, Solhint, solc, the summarizer) and the file
      system are an explicit environment and an explicit world state. *)

From Stdlib Require Import String Ascii List ZArith Lia Bool Arith PeanoNat.
From Stdlib Require Import DecimalString.
Import ListNotations.

Open Scope string_scope.
Open Scope list_scope.
Open Scope nat_scope.

(* ================================================================= *)
(** ** JavaScript string primitives *)

Module Js.

(** [c] as its code unit. *)
Definition code (c : ascii) : nat := nat_of_ascii c.

(** The code units below 256 that [toLowerCase] changes: A to Z, and the
    capital letters from 192 to 222 without the multiplication sign 215. *)
Definition isUpper (c : ascii) : bool :=
  ((65 <=? code c) && (code c <=? 90)) ||
  ((192 <=? code c) && (code c <=? 222) && negb (code c =? 215)).

(** [String.prototype.toLowerCase] on one code unit. *)
Definition lowerChar (c : ascii) : ascii :=
  if isUpper c then ascii_of_nat (code c + 32) else c.

Fixpoint toLowerCase (s : string) : string :=
  match s with
  | EmptyString => EmptyString
  | String c s' => String (lowerChar c) (toLowerCase s')
  end.

(** [s.startsWith(t)]. *)
Definition startsWith (s t : string) : bool := prefix t s.

(** [s.includes(t)]: [t] starts at some position of [s]. *)
Fixpoint includes (s t : string) : bool :=
  startsWith s t ||
  match s with
  | EmptyString => false
  | String _ s' => includes s' t
  end.

(** [s.substring(a, b)] for [a <= b]. *)
Definition substring (s : string) (a b : nat) : string :=
  String.substring a (b - a) s.

(** The text from position [a] on: [s.substring(a)]. *)
Fixpoint from (a : nat) (s : string) : string :=
  match a, s with
  | O, _ => s
  | S a', String _ s' => from a' s'
  | S _, EmptyString => EmptyString
  end.

(** White space, the class [\s] and what [trim] removes: tab to carriage
    return, the blank and the no-break space 160. *)
Definition isSpace (c : ascii) : bool :=
  ((9 <=? code c) && (code c <=? 13)) || (code c =? 32) || (code c =? 160).

(** Word characters, the class [\w]. *)
Definition isWord (c : ascii) : bool :=
  ((48 <=? code c) && (code c <=? 57)) ||
  ((65 <=? code c) && (code c <=? 90)) ||
  ((97 <=? code c) && (code c <=? 122)) ||
  (code c =? 95).

Fixpoint trimStart (s : string) : string :=
  match s with
  | EmptyString => EmptyString
  | String c s' => if isSpace c then trimStart s' else s
  end.

(** Drops the trailing white space: a character stays when it is not a
    space or when something stays after it. *)
Fixpoint trimEnd (s : string) : string :=
  match s with
  | EmptyString => EmptyString
  | String c s' =>
      match trimEnd s' with
      | EmptyString => if isSpace c then EmptyString else String c EmptyString
      | t => String c t
      end
  end.

Definition trim (s : string) : string := trimEnd (trimStart s).

(** [s.endsWith(c)] for a one-character [c]. *)
Fixpoint endsWithChar (s : string) (c : ascii) : bool :=
  match s with
  | EmptyString => false
  | String d EmptyString => Ascii.eqb d c
  | String _ s' => endsWithChar s' c
  end.

(** [s.split(c)] for a one-character separator: never the empty list. *)
Fixpoint split (c : ascii) (s : string) : list string :=
  match s with
  | EmptyString => [EmptyString]
  | String d s' =>
      if Ascii.eqb d c then EmptyString :: split c s'
      else match split c s' with
           | [] => [String d EmptyString]
           | p :: ps => String d p :: ps
           end
  end.

(** [x || ''] for a field that may be missing. *)
Definition orEmpty (x : option string) : string :=
  match x with
  | Some s => s
  | None => EmptyString
  end.

(** [!x] for a string that may be missing: missing and empty are falsy. *)
Definition falsy (x : option string) : bool :=
  match x with
  | None => true
  | Some s => String.eqb s EmptyString
  end.

End Js.

(* ================================================================= *)
(** ** Diagnostics *)

(** One element of [slitherResults]; [bug_name] and [bug_severity] are the
    fields the code guards with [|| '']. *)
Record Bug := mkBug {
  bug_name : option string;
  bug_description : string;
  bug_severity : option string;
  bug_confidence : string;
  bug_line : nat;
  bug_function : string;
  bug_file : string
}.

(** One element of [solhintResults]. *)
Record Issue := mkIssue {
  issue_rule : string;
  issue_severity : option string;
  issue_message : string;
  issue_line : nat;
  issue_column : nat
}.

(* ================================================================= *)
(** ** Risk score and audit grade *)

(** The [switch] of [computeRiskScore] on the lower-cased severity. *)
Definition slitherWeight (bug : Bug) : Z :=
  let severity := Js.toLowerCase (Js.orEmpty (bug_severity bug)) in
  if String.eqb severity "high" then 25
  else if String.eqb severity "medium" then 15
  else if String.eqb severity "low" then 5
  else if String.eqb severity "informational" then 1
  else 0.

Definition solhintWeight (issue : Issue) : Z :=
  let severity := Js.toLowerCase (Js.orEmpty (issue_severity issue)) in
  if String.eqb severity "error" then 3
  else if String.eqb severity "warning" then 1
  else 0.

(** [computeRiskScore]: the two [forEach] loops update the local [score];
    the result is [Math.min(100, Math.max(0, score))]. *)
Definition computeRiskScore (slitherResults : list Bug)
    (solhintResults : list Issue) : Z :=
  let score := 0%Z in
  let score := fold_left (fun score bug => (score + slitherWeight bug)%Z)
                 slitherResults score in
  let score := fold_left (fun score issue => (score + solhintWeight issue)%Z)
                 solhintResults score in
  Z.min 100 (Z.max 0 score).

Inductive Grade := GradeA | GradeB | GradeC.

(** [(bug.name || '').toLowerCase().includes(marker)] *)
Definition nameHas (bug : Bug) (marker : string) : bool :=
  Js.includes (Js.toLowerCase (Js.orEmpty (bug_name bug))) marker.

(** [computeAuditGrade]; [solhintResults] is not read. *)
Definition computeAuditGrade (riskScore : Z) (slitherResults : list Bug)
    (solhintResults : list Issue) : Grade :=
  let hasProxyUpgradeable :=
    existsb (fun bug => nameHas bug "proxy" || nameHas bug "upgradeable")
      slitherResults in
  let hasUnrestrictedMint :=
    existsb (fun bug => nameHas bug "mint" || nameHas bug "unrestricted")
      slitherResults in
  let hasKillSwitch :=
    existsb (fun bug => nameHas bug "suicide" || nameHas bug "selfdestruct")
      slitherResults in
  if hasProxyUpgradeable || hasUnrestrictedMint || hasKillSwitch
     || (70 <? riskScore)%Z
  then GradeC
  else if (40 <? riskScore)%Z then GradeB
  else GradeA.

(* ================================================================= *)
(** ** Results of fallible code *)

(** What a call produces: a value, a thrown exception, or no answer within
    the loop budget of the model. *)
Inductive Outcome (A : Type) : Type :=
| Ok (a : A)
| Throw (e : string)
| OutOfFuel.

Arguments Ok {A} a.
Arguments Throw {A} e.
Arguments OutOfFuel {A}.

Definition bind {A B : Type} (m : Outcome A) (f : A -> Outcome B) : Outcome B :=
  match m with
  | Ok a => f a
  | Throw e => Throw e
  | OutOfFuel => OutOfFuel
  end.

(** A loop of the model that ran out of budget gives no answer. *)
Definition ofOption {A : Type} (m : option A) : Outcome A :=
  match m with
  | Some a => Ok a
  | None => OutOfFuel
  end.


(* ================================================================= *)
(** ** Heuristic detectors *)

Definition heuristicBug (name description severity confidence : string) : Bug :=
  {| bug_name := Some name;
     bug_description := description;
     bug_severity := Some severity;
     bug_confidence := confidence;
     bug_line := 1;
     bug_function := "Multiple";
     bug_file := "contract.sol" |}.

Definition potentialReentrancy : Bug :=
  heuristicBug "Potential Reentrancy"
    "External calls without reentrancy protection detected" "High" "Medium".

Definition uncheckedExternalCall : Bug :=
  heuristicBug "Unchecked External Call"
    "External calls without proper error handling" "Medium" "Medium".

Definition potentialIntegerOverflow : Bug :=
  heuristicBug "Potential Integer Overflow"
    "Integer operations without overflow protection (pre-Solidity 0.8.0)"
    "Medium" "High".

Definition dangerousDelegatecall : Bug :=
  heuristicBug "Dangerous Delegatecall"
    "Delegatecall detected - potential for code injection" "High" "High".

Definition txOriginUsage : Bug :=
  heuristicBug "tx.origin Usage"
    "tx.origin used instead of msg.sender - potential phishing vulnerability"
    "Medium" "High".

Definition blockTimestampDependency : Bug :=
  heuristicBug "Block Timestamp Dependency"
    "Block timestamp used - vulnerable to miner manipulation" "Low" "High".

Definition potentialAccessControlIssue : Bug :=
  heuristicBug "Potential Access Control Issue"
    "External functions without access control modifiers" "Medium" "Low".

Definition selfDestructFunction : Bug :=
  heuristicBug "Self-Destruct Function"
    "Contract can be destroyed - potential loss of funds" "High" "High".

(** [if (cond) list.push(x)] on the list built so far. *)
Definition pushIf {A : Type} (cond : bool) (x : A) (l : list A) : list A :=
  if cond then l ++ [x] else l.

(** [detectManualVulnerabilities]: eight independent rules over the
    lower-cased text, each pushing at most one entry, in this order. *)
Definition detectManualVulnerabilities (sourceCode : string) : list Bug :=
  let lowerCode := Js.toLowerCase sourceCode in
  let has := Js.includes lowerCode in
  let vulnerabilities := [] in
  let vulnerabilities :=
    pushIf (has "call" && has "external" && negb (has "reentrancyguard"))
      potentialReentrancy vulnerabilities in
  let vulnerabilities :=
    pushIf (has "call" && negb (has "require") && negb (has "assert"))
      uncheckedExternalCall vulnerabilities in
  let vulnerabilities :=
    pushIf (has "uint" && negb (has "pragma solidity ^0.8")
            && negb (has "pragma solidity 0.8"))
      potentialIntegerOverflow vulnerabilities in
  let vulnerabilities :=
    pushIf (has "delegatecall") dangerousDelegatecall vulnerabilities in
  let vulnerabilities :=
    pushIf (has "tx.origin") txOriginUsage vulnerabilities in
  let vulnerabilities :=
    pushIf (has "block.timestamp") blockTimestampDependency vulnerabilities in
  let vulnerabilities :=
    pushIf (has "function" && has "external" && negb (has "modifier")
            && negb (has "onlyowner"))
      potentialAccessControlIssue vulnerabilities in
  let vulnerabilities :=
    pushIf (has "selfdestruct" || has "suicide")
      selfDestructFunction vulnerabilities in
  vulnerabilities.

Definition warningIssue (rule message : string) (line column : nat) : Issue :=
  {| issue_rule := rule;
     issue_severity := Some "warning";
     issue_message := message;
     issue_line := line;
     issue_column := column |}.

(** The body of the [forEach] of [detectBasicLintingIssues] for the line at
    [index]; [lines[index + 1] && ...] needs a next line that is not the
    empty string. *)
Definition lintLine (lines : list string) (line : string) (index : nat)
    (issues : list Issue) : list Issue :=
  let trimmedLine := Js.trim line in
  let issues :=
    pushIf ((index =? 0)
            && negb (Js.includes trimmedLine "SPDX-License-Identifier"))
      (warningIssue "spdx-license-identifier"
         "Missing SPDX license identifier" (index + 1) 1) issues in
  let issues :=
    pushIf (120 <? String.length trimmedLine)
      (warningIssue "max-line-length"
         "Line too long (max 120 characters)" (index + 1) 1) issues in
  let issues :=
    pushIf (String.eqb trimmedLine ""
            && match nth_error lines (index + 1) with
               | Some next =>
                   negb (String.eqb next "") && String.eqb (Js.trim next) ""
               | None => false
               end)
      (warningIssue "no-consecutive-blank-lines"
         "Multiple consecutive blank lines" (index + 1) 1) issues in
  let issues :=
    pushIf (Js.endsWithChar line " " || Js.endsWithChar line "009")
      (warningIssue "no-trailing-whitespace"
         "Trailing whitespace" (index + 1) (String.length line)) issues in
  issues.

(** [array.forEach((x, index) => ...)] threading the list being built. *)
Fixpoint forEachIndexed {A B : Type} (f : A -> nat -> B -> B) (l : list A)
    (index : nat) (acc : B) : B :=
  match l with
  | [] => acc
  | x :: l' => forEachIndexed f l' (S index) (f x index acc)
  end.

Definition detectBasicLintingIssues (sourceCode : string) : list Issue :=
  let lines := Js.split "010" sourceCode in
  forEachIndexed (lintLine lines) lines 0 [].

(** [detectTokenType]: the first matching marker group wins. *)
Definition detectTokenType (sourceCode : string) : string :=
  let lowerCode := Js.toLowerCase sourceCode in
  let has := Js.includes lowerCode in
  if has "erc20" || has "ierc20" then "ERC20"
  else if has "erc721" || has "ierc721" then "ERC721"
  else if has "erc1155" || has "ierc1155" then "ERC1155"
  else if has "uniswap" || has "pancakeswap" || has "amm" then "DeFi"
  else if has "governance" || has "dao" then "Governance"
  else if has "nft" || has "token" then "Token"
  else "Custom".

Definition killSwitchPattern : string :=
  "Kill Switch - Contract can be destroyed".

(** [detectUnsafePatterns]: six independent substring checks. *)
Definition detectUnsafePatterns (sourceCode : string) : list string :=
  let lowerCode := Js.toLowerCase sourceCode in
  let has := Js.includes lowerCode in
  let patterns := [] in
  let patterns :=
    pushIf (has "selfdestruct" || has "suicide") killSwitchPattern patterns in
  let patterns :=
    pushIf (has "delegatecall")
      "Delegate Call - Potential for code injection" patterns in
  let patterns :=
    pushIf (has "assembly") "Assembly Code - Low-level operations" patterns in
  let patterns :=
    pushIf (has "tx.origin")
      "tx.origin Usage - Potential phishing vulnerability" patterns in
  let patterns :=
    pushIf (has "block.timestamp")
      "Block Timestamp - Time manipulation risk" patterns in
  let patterns :=
    pushIf (has "block.number")
      "Block Number - Block manipulation risk" patterns in
  patterns.

(* ================================================================= *)
(** ** Deployment warnings *)

(** [`${n}`] for a length. *)
Definition showNat (n : nat) : string :=
  DecimalString.NilEmpty.string_of_uint (Nat.to_uint n).

(** The first warning, with the count of the filtered entries.  The two
    leading symbols of the source text are kept as the bytes of the file. *)
Definition highSeverityWarning (n : nat) : string :=
  String.append "⚠️ " (String.append (showNat n) " high severity issues found").

Definition criticalWarning : string :=
  "🚨 Critical security vulnerabilities detected".

(** [bug.severity === 'High']: strict equality, a missing field is not equal. *)
Definition isHighSeverity (bug : Bug) : bool :=
  match bug_severity bug with
  | Some severity => String.eqb severity "High"
  | None => false
  end.

(** The predicate of the second filter on a name that is present. *)
Definition isCriticalName (name : string) : bool :=
  Js.includes name "reentrancy" || Js.includes name "overflow"
  || Js.includes name "access-control".

Definition typeErrorIncludes : string :=
  "Cannot read properties of undefined (reading 'includes')".

(** [slitherResults.filter(bug => bug.name.includes(..) || ..)]: the name is
    read without a guard, so the first entry without a name throws. *)
Fixpoint filterCritical (slitherResults : list Bug) : Outcome (list Bug) :=
  match slitherResults with
  | [] => Ok []
  | bug :: rest =>
      match bug_name bug with
      | None => Throw typeErrorIncludes
      | Some name =>
          bind (filterCritical rest) (fun kept =>
            Ok (if isCriticalName name then bug :: kept else kept))
      end
  end.

(** [generateDeploymentWarnings]; [solhintResults] is not read. *)
Definition generateDeploymentWarnings (slitherResults : list Bug)
    (solhintResults : list Issue) : Outcome (list string) :=
  let warnings := [] in
  let highSeverityBugs := filter isHighSeverity slitherResults in
  let warnings :=
    pushIf (0 <? length highSeverityBugs)
      (highSeverityWarning (length highSeverityBugs)) warnings in
  bind (filterCritical slitherResults) (fun criticalBugs =>
    let warnings :=
      pushIf (0 <? length criticalBugs) criticalWarning warnings in
    Ok warnings).

(* ================================================================= *)
(** ** Regular expressions

    The patterns of the analyzer use literals, character classes, greedy
    [*], [+] and [?], ordered alternatives, capture groups and [$].  They
    are matched the way a backtracking engine matches them: a greedy
    quantifier takes as much as it can and gives back only when what follows
    fails, alternatives are tried in order. *)

Module Regex.

Inductive regex : Type :=
| Eps : regex                          (* the empty pattern *)
| Cls : (ascii -> bool) -> regex       (* one character of a class *)
| Seq : regex -> regex -> regex        (* r1 r2 *)
| Alt : regex -> regex -> regex        (* r1|r2, r1 first *)
| Star : regex -> regex                (* r*, greedy *)
| Grp : nat -> regex -> regex          (* capture group number n *)
| Eos : regex.                         (* $ without the m flag *)

(** A pattern that matches nothing, the unit of [alts]. *)
Definition Nul : regex := Cls (fun _ => false).

Definition Chr (c : ascii) : regex := Cls (Ascii.eqb c).
Definition Plus (r : regex) : regex := Seq r (Star r).
Definition Opt (r : regex) : regex := Alt r Eps.

Fixpoint Lit (s : string) : regex :=
  match s with
  | EmptyString => Eps
  | String c s' => Seq (Chr c) (Lit s')
  end.

Fixpoint seqs (rs : list regex) : regex :=
  match rs with
  | [] => Eps
  | r :: rs' => Seq r (seqs rs')
  end.

Fixpoint alts (rs : list regex) : regex :=
  match rs with
  | [] => Nul
  | [r] => r
  | r :: rs' => Alt r (alts rs')
  end.

Definition space : regex := Cls Js.isSpace.
Definition word : regex := Cls Js.isWord.
Definition notChr (c : ascii) : regex := Cls (fun d => negb (Ascii.eqb d c)).

(** A match in progress: how many characters are consumed, what is left of
    the input, and the groups captured so far (latest first). *)
Record MState := mkMState {
  consumed : nat;
  rest : string;
  caps : list (nat * string)
}.

Definition advance (st : MState) (s' : string) : MState :=
  {| consumed := S (consumed st); rest := s'; caps := caps st |}.

Definition setCap (i : nat) (text : string) (st : MState) : MState :=
  {| consumed := consumed st; rest := rest st; caps := (i, text) :: caps st |}.

(** The greedy loop of [r*]: [body] matches one more [r] and goes on, and
    when that fails the continuation [k] takes over from here.  An iteration
    that consumes nothing is refused; [n] bounds the iterations by the length
    of the input. *)
Definition starLoop
    (body : (MState -> option MState) -> MState -> option MState)
    (k : MState -> option MState) : nat -> MState -> option MState :=
  fix loop (n : nat) (st : MState) : option MState :=
    match n with
    | O => k st
    | S n' =>
        match body (fun st' =>
                      if consumed st <? consumed st' then loop n' st' else None)
                st with
        | Some out => Some out
        | None => k st
        end
    end.

(** [run r k st]: match [r] at [st], then [k]; [None] when every way of
    matching [r] makes [k] fail. *)
Fixpoint run (r : regex) (k : MState -> option MState) (st : MState)
    {struct r} : option MState :=
  match r with
  | Eps => k st
  | Cls p =>
      match rest st with
      | String c s' => if p c then k (advance st s') else None
      | EmptyString => None
      end
  | Seq r1 r2 => run r1 (run r2 k) st
  | Alt r1 r2 =>
      match run r1 k st with
      | Some out => Some out
      | None => run r2 k st
      end
  | Star r1 => starLoop (run r1) k (S (String.length (rest st))) st
  | Grp i r1 =>
      run r1 (fun st' =>
                k (setCap i (Js.substring (rest st) 0 (consumed st' - consumed st))
                     st')) st
  | Eos =>
      match rest st with
      | EmptyString => k st
      | String _ _ => None
      end
  end.

(** The match of [r] that starts at the beginning of [s], if any. *)
Definition matchAt (r : regex) (s : string) : option MState :=
  run r (fun st => Some st) {| consumed := 0; rest := s; caps := [] |}.

(** The result of [exec]: [index], the length of [match[0]] and the groups. *)
Record Match := mkMatch {
  index : nat;
  matchLength : nat;
  groups : list (nat * string)
}.

(** [match[i]]: [None] when group [i] took no part in the match. *)
Fixpoint lookup (i : nat) (gs : list (nat * string)) : option string :=
  match gs with
  | [] => None
  | (j, text) :: gs' => if i =? j then Some text else lookup i gs'
  end.

Definition group (i : nat) (m : Match) : option string := lookup i (groups m).

(** The leftmost position at or after [i] where [r] matches; [s] is the
    text from [i] on.  The end of the text is tried too. *)
Fixpoint search (r : regex) (s : string) (i : nat) : option Match :=
  match matchAt r s with
  | Some out =>
      Some {| index := i; matchLength := consumed out; groups := caps out |}
  | None =>
      match s with
      | EmptyString => None
      | String _ s' => search r s' (S i)
      end
  end.

(** [re.exec(s)] for a pattern with the [g] flag whose [lastIndex] is
    [lastIndex]: the match, and the new [lastIndex] (0 after a failure). *)
Definition exec (r : regex) (s : string) (lastIndex : nat)
    : option Match * nat :=
  if String.length s <? lastIndex then (None, 0)
  else
    match search r (Js.from lastIndex s) lastIndex with
    | Some m => (Some m, index m + matchLength m)
    | None => (None, 0)
    end.

(** [while ((match = re.exec(s)) !== null) { body }] on the state [acc] of
    the enclosing function, starting with the given [lastIndex]; [fuel]
    bounds the number of calls of [exec].  The result carries the final
    [lastIndex]. *)
Fixpoint whileExec {A : Type} (fuel : nat) (r : regex) (s : string)
    (lastIndex : nat) (body : Match -> A -> A) (acc : A) : option (A * nat) :=
  match fuel with
  | O => None
  | S fuel' =>
      match exec r s lastIndex with
      | (Some m, lastIndex') => whileExec fuel' r s lastIndex' body (body m acc)
      | (None, lastIndex') => Some (acc, lastIndex')
      end
  end.

(** The loop over a fresh pattern object ([lastIndex] is 0) with budget
    [fuel]. *)
Definition forEachMatchIn {A : Type} (fuel : nat) (r : regex) (s : string)
    (body : Match -> A -> A) (acc : A) : option A :=
  option_map fst (whileExec fuel r s 0 body acc).

(** The budget that is proved enough below for a pattern that cannot match
    the empty string: one call of [exec] more than the text has characters. *)
Definition budget (s : string) : nat := S (String.length s).

Definition forEachMatch {A : Type} (r : regex) (s : string)
    (body : Match -> A -> A) (acc : A) : option A :=
  forEachMatchIn (budget s) r s body acc.

(** [s.match(re)] for a pattern without the [g] flag. *)
Definition jsMatch (r : regex) (s : string) : option Match := search r s 0.

(** A lower bound on the length of every match. *)
Fixpoint minLength (r : regex) : nat :=
  match r with
  | Eps => 0
  | Cls _ => 1
  | Seq r1 r2 => minLength r1 + minLength r2
  | Alt r1 r2 => Nat.min (minLength r1) (minLength r2)
  | Star _ => 0
  | Grp _ r1 => minLength r1
  | Eos => 0
  end.

End Regex.

Import Regex.

(* ================================================================= *)
(** ** Structural extractor *)

Definition quote : regex :=
  Cls (fun c => Ascii.eqb c "039" || Ascii.eqb c "034").
Definition notQuote : regex :=
  Cls (fun c => negb (Ascii.eqb c "039" || Ascii.eqb c "034")).

Definition visibilityWord : regex :=
  alts [Lit "external"; Lit "public"; Lit "internal"; Lit "private"].
Definition mutabilityWord : regex :=
  alts [Lit "view"; Lit "pure"; Lit "payable"].
Definition typeWord : regex :=
  alts [Lit "uint"; Lit "int"; Lit "bool"; Lit "address"; Lit "string";
        Lit "bytes"; Lit "mapping"].

(** The pattern [/import \s+ Q ( notQ+ ) Q /g], where [Q] is the class of the
    two quote characters and [notQ] its complement (patterns are written
    here with blanks between their parts). *)
Definition importRegex : regex :=
  seqs [Lit "import"; Plus space; quote; Grp 1 (Plus notQuote); quote].

(** [/function \s+ (\w+) \s* \( [^)]* \) \s* (?:external|public|internal|private)?
      \s* (?:view|pure|payable)? \s* (?:returns \s* \( [^)]* \) )? \s* {/g] *)
Definition functionRegex : regex :=
  seqs [Lit "function"; Plus space; Grp 1 (Plus word); Star space;
        Chr "("; Star (notChr ")"); Chr ")"; Star space;
        Opt visibilityWord; Star space; Opt mutabilityWord; Star space;
        Opt (seqs [Lit "returns"; Star space; Chr "("; Star (notChr ")");
                   Chr ")"]);
        Star space; Chr "{"].

(** [/modifier \s+ (\w+) \s* \( [^)]* \) \s* {/g] *)
Definition modifierRegex : regex :=
  seqs [Lit "modifier"; Plus space; Grp 1 (Plus word); Star space;
        Chr "("; Star (notChr ")"); Chr ")"; Star space; Chr "{"].

(** [/(?:uint|int|bool|address|string|bytes|mapping) \s+
      (?:public|private|internal|external)? \s* (\w+) \s* ;/g] *)
Definition stateVarRegex : regex :=
  seqs [typeWord; Plus space;
        Opt (alts [Lit "public"; Lit "private"; Lit "internal"; Lit "external"]);
        Star space; Grp 1 (Plus word); Star space; Chr ";"].

(** [/event \s+ (\w+) \s* \( [^)]* \) /g] *)
Definition eventRegex : regex :=
  seqs [Lit "event"; Plus space; Grp 1 (Plus word); Star space;
        Chr "("; Star (notChr ")"); Chr ")"].

(** [/(uint|int|bool|address|string|bytes|mapping) \s* [^;]* $/] *)
Definition typeTailRegex : regex :=
  seqs [Grp 1 typeWord; Star space; Star (notChr ";"); Eos].

Record FunctionDecl := mkFunctionDecl {
  fn_name : string;
  fn_visibility : string;
  fn_type : string
}.

Record VariableDecl := mkVariableDecl {
  var_name : string;
  var_type : string
}.

Record ContractDetails := mkContractDetails {
  functions : list FunctionDecl;
  modifiers : list string;          (* the [name] of each [{ name }] *)
  stateVariables : list VariableDecl;
  events : list string;             (* the [name] of each [{ name }] *)
  imports : list string
}.

(** [sourceCode.substring(Math.max(0, index - n), index)] *)
Definition windowBefore (n : nat) (sourceCode : string) (index : nat) : string :=
  Js.substring sourceCode (index - n) index.

Definition extractVisibility (sourceCode : string) (index : nat) : string :=
  let beforeMatch := windowBefore 50 sourceCode index in
  if Js.includes beforeMatch "public" then "public"
  else if Js.includes beforeMatch "private" then "private"
  else if Js.includes beforeMatch "internal" then "internal"
  else if Js.includes beforeMatch "external" then "external"
  else "internal".

Definition extractFunctionType (sourceCode : string) (index : nat) : string :=
  let beforeMatch := windowBefore 50 sourceCode index in
  if Js.includes beforeMatch "view" then "view"
  else if Js.includes beforeMatch "pure" then "pure"
  else if Js.includes beforeMatch "payable" then "payable"
  else "non-payable".

(** [typeMatch ? typeMatch[1] : fallback] on the 100 characters before. *)
Definition typeBefore (fallback : string) (sourceCode : string) (index : nat)
    : string :=
  let beforeMatch := windowBefore 100 sourceCode index in
  match jsMatch typeTailRegex beforeMatch with
  | Some typeMatch => Js.orEmpty (group 1 typeMatch)
  | None => fallback
  end.

Definition extractVariableType : string -> nat -> string := typeBefore "unknown".

(** [match[1]] of a pattern whose first group takes part in every match. *)
Definition group1 (m : Match) : string := Js.orEmpty (group 1 m).

(** [extractContractDetails]: five [exec] loops, each over its own pattern
    object, pushing onto the five lists of [details]; [fuel] is the budget
    of each loop. *)
Definition extractContractDetailsIn (fuel : nat) (sourceCode : string)
    : option ContractDetails :=
  match forEachMatchIn fuel importRegex sourceCode
          (fun m l => l ++ [group1 m]) [] with
  | None => None
  | Some imports' =>
  match forEachMatchIn fuel functionRegex sourceCode
          (fun m l => l ++ [{| fn_name := group1 m;
                               fn_visibility :=
                                 extractVisibility sourceCode (index m);
                               fn_type :=
                                 extractFunctionType sourceCode (index m) |}])
          [] with
  | None => None
  | Some functions' =>
  match forEachMatchIn fuel modifierRegex sourceCode
          (fun m l => l ++ [group1 m]) [] with
  | None => None
  | Some modifiers' =>
  match forEachMatchIn fuel stateVarRegex sourceCode
          (fun m l => l ++ [{| var_name := group1 m;
                               var_type :=
                                 extractVariableType sourceCode (index m) |}])
          [] with
  | None => None
  | Some stateVariables' =>
  match forEachMatchIn fuel eventRegex sourceCode
          (fun m l => l ++ [group1 m]) [] with
  | None => None
  | Some events' =>
      Some {| functions := functions';
              modifiers := modifiers';
              stateVariables := stateVariables';
              events := events';
              imports := imports' |}
  end end end end end.

Definition extractContractDetails (sourceCode : string)
    : option ContractDetails :=
  extractContractDetailsIn (budget sourceCode) sourceCode.

(* ================================================================= *)
(** ** Interface synthesizer *)

Record Param := mkParam {
  param_type : string;
  param_name : string;
  param_internalType : string;
  param_indexed : option bool       (* absent on accessor outputs *)
}.

Inductive AbiEntry : Type :=
| AbiFunction (name : string) (inputs outputs : list Param)
    (stateMutability : string)
| AbiEvent (name : string) (inputs : list Param) (anonymous : bool).

(** [s.replace(pat, rep)] for a string [pat]: the first occurrence only. *)
Fixpoint replaceFirst (s pat rep : string) : string :=
  if Js.startsWith s pat then String.append rep (Js.from (String.length pat) s)
  else match s with
       | EmptyString => EmptyString
       | String c s' => String c (replaceFirst s' pat rep)
       end.

(** [s.split(/\s+/)]: the pieces between the maximal runs of white space;
    [inSep] tells that the previous character was white space. *)
Fixpoint splitSpaces (inSep : bool) (s : string) : list string :=
  match s with
  | EmptyString => [EmptyString]
  | String c s' =>
      if Js.isSpace c then
        if inSep then splitSpaces true s'
        else EmptyString :: splitSpaces true s'
      else
        match splitSpaces false s' with
        | [] => [String c EmptyString]
        | p :: ps => String c p :: ps
        end
  end.

(** The callback of [map] in [parseFunctionParams]; [None] is [null]. *)
Definition parseParam (param : string) : option Param :=
  let trimmed := Js.trim param in
  if String.eqb trimmed "" then None
  else
    let isIndexed := Js.includes trimmed "indexed" in
    let cleanParam := Js.trim (replaceFirst trimmed "indexed" "") in
    let parts := splitSpaces false cleanParam in
    let type := nth 0 parts "" in
    let name := nth 1 parts "" in
    Some {| param_type := type;
            param_name := name;
            param_internalType := type;
            param_indexed := Some isIndexed |}.

(** [.filter(Boolean)] after [.map(f)]. *)
Fixpoint mapFilter {A B : Type} (f : A -> option B) (l : list A) : list B :=
  match l with
  | [] => []
  | x :: l' =>
      match f x with
      | Some y => y :: mapFilter f l'
      | None => mapFilter f l'
      end
  end.

Definition parseFunctionParams (params : string) : list Param :=
  if String.eqb params "" || String.eqb (Js.trim params) "" then []
  else mapFilter parseParam (Js.split "," params).

Definition parseEventParams (params : string) : list Param :=
  parseFunctionParams params.

Definition getStateMutability (sourceCode : string) (index : nat) : string :=
  let beforeMatch := windowBefore 100 sourceCode index in
  if Js.includes beforeMatch "pure" then "pure"
  else if Js.includes beforeMatch "view" then "view"
  else if Js.includes beforeMatch "payable" then "payable"
  else "nonpayable".

Definition getVariableType : string -> nat -> string := typeBefore "uint256".

(** [/function \s+ (\w+) \s* \( ( [^)]* ) \) \s* (?:external|public|internal|private)?
      \s* (?:view|pure|payable)? \s* (?:returns \s* \( ( [^)]* ) \) )? /g] *)
Definition abiFunctionRegex : regex :=
  seqs [Lit "function"; Plus space; Grp 1 (Plus word); Star space;
        Chr "("; Grp 2 (Star (notChr ")")); Chr ")"; Star space;
        Opt visibilityWord; Star space; Opt mutabilityWord; Star space;
        Opt (seqs [Lit "returns"; Star space; Chr "(";
                   Grp 3 (Star (notChr ")")); Chr ")"])].

(** [/event \s+ (\w+) \s* \( ( [^)]* ) \) /g] *)
Definition abiEventRegex : regex :=
  seqs [Lit "event"; Plus space; Grp 1 (Plus word); Star space;
        Chr "("; Grp 2 (Star (notChr ")")); Chr ")"].

(** [/(?:uint|int|bool|address|string|bytes|mapping) \s+ (?:public) \s* (\w+) \s* ;/g] *)
Definition abiStateVarRegex : regex :=
  seqs [typeWord; Plus space; Lit "public"; Star space; Grp 1 (Plus word);
        Star space; Chr ";"].

(** The body of the first loop of [generateManualABI]; the [continue]
    leaves [abi] as it is.  [substring(match.index - 50, match.index)] takes
    a negative start as 0. *)
Definition abiFunctionStep (sourceCode : string) (m : Match)
    (abi : list AbiEntry) : list AbiEntry :=
  let functionName := group1 m in
  let params := Js.orEmpty (group 2 m) in
  let returns := group 3 m in
  if String.eqb functionName "constructor"
     || Js.includes (Js.substring sourceCode (index m - 50) (index m))
          "internal"
  then abi
  else
    let inputs := parseFunctionParams params in
    let outputs :=
      if Js.falsy returns then []
      else parseFunctionParams (Js.orEmpty returns) in
    abi ++ [AbiFunction functionName inputs outputs
              (getStateMutability sourceCode (index m))].

Definition abiEventStep (m : Match) (abi : list AbiEntry) : list AbiEntry :=
  let eventName := group1 m in
  let params := Js.orEmpty (group 2 m) in
  abi ++ [AbiEvent eventName (parseEventParams params) false].

Definition abiStateVarStep (sourceCode : string) (m : Match)
    (abi : list AbiEntry) : list AbiEntry :=
  let varName := group1 m in
  let varType := getVariableType sourceCode (index m) in
  abi ++ [AbiFunction varName []
            [{| param_type := varType;
                param_name := "";
                param_internalType := varType;
                param_indexed := None |}]
            "view"].

(** [generateManualABI]: functions, then events, then the accessors of the
    public state variables.  The pragma the source looks up is not used in
    the result. *)
Definition generateManualABI (sourceCode : string) : option (list AbiEntry) :=
  let abi := [] in
  match forEachMatch abiFunctionRegex sourceCode
          (abiFunctionStep sourceCode) abi with
  | None => None
  | Some abi =>
  match forEachMatch abiEventRegex sourceCode abiEventStep abi with
  | None => None
  | Some abi =>
      forEachMatch abiStateVarRegex sourceCode (abiStateVarStep sourceCode) abi
  end end.

(* ================================================================= *)
(** ** The analysis pipeline *)

(** What the collaborators answer during one request.  The findings of the
    two tools are taken in their typed reading: a name or a severity is a
    string, or is [None] when the field is missing or holds another falsy
    value.  What the code does on findings with a truthy name or severity
    that is not a string is the subject of [computeRiskScoreRaw],
    [computeAuditGradeRaw] and [generateDeploymentWarningsRaw]. *)
Record Env := mkEnv {
  slitherOutput : list Bug;          (* what [runSlither] resolves to *)
  solhintOutput : list Issue;        (* what [runSolhint] resolves to *)
  solcAbi : option (list AbiEntry);  (* [None]: solc throws or finds no contract *)
  openaiClient : bool;               (* is [openai] configured *)
  openaiSummary : option string;     (* what [generateAISummary] resolves to *)
  writeFileError : option string;    (* [Some e]: [fs.writeFile] rejects with [e] *)
  removeError : option string;       (* [Some e]: [fs.remove] rejects with [e] *)
  now : string                       (* [new Date().toISOString()] *)
}.

(** Calls that leave the process or touch the file system. *)
Inductive Effect : Type :=
| WriteFile (path content : string)
| RunSlither (path : string)
| RunSolhint (path : string)
| Summarize
| Compile
| RemoveFile (path : string).

(** The files on disk, and the calls made so far (latest last). *)
Record World := mkWorld {
  files : list (string * string);
  log : list Effect
}.

Definition fileExists (path : string) (w : World) : bool :=
  existsb (fun entry => String.eqb (fst entry) path) (files w).

Definition withoutFile (path : string) (fs : list (string * string))
    : list (string * string) :=
  filter (fun entry => negb (String.eqb (fst entry) path)) fs.

(** Computations that read and change the world and may throw. *)
Definition M (A : Type) : Type := World -> Outcome A * World.

Definition ret {A : Type} (a : A) : M A := fun w => (Ok a, w).

Definition bindM {A B : Type} (m : M A) (f : A -> M B) : M B :=
  fun w =>
    match m w with
    | (Ok a, w') => f a w'
    | (Throw e, w') => (Throw e, w')
    | (OutOfFuel, w') => (OutOfFuel, w')
    end.

Definition lift {A : Type} (o : Outcome A) : M A := fun w => (o, w).

Definition emit (e : Effect) : M unit :=
  fun w => (Ok tt, {| files := files w; log := log w ++ [e] |}).

Declare Scope M_scope.
Delimit Scope M_scope with M.
Notation "x <- m ;; k" := (bindM m (fun x => k))
  (at level 61, m at next level, right associativity) : M_scope.
Notation "m ;;; k" := (bindM m (fun _ => k))
  (at level 61, right associativity) : M_scope.

(** [await fs.writeFile(path, content)] *)
Definition writeFile (env : Env) (path content : string) : M unit :=
  fun w =>
    let w := {| files := files w; log := log w ++ [WriteFile path content] |} in
    match writeFileError env with
    | Some e => (Throw e, w)
    | None =>
        (Ok tt, {| files := (path, content) :: withoutFile path (files w);
                   log := log w |})
    end.

(** [await fs.remove(path)] *)
Definition remove (env : Env) (path : string) : M unit :=
  fun w =>
    let w := {| files := files w; log := log w ++ [RemoveFile path] |} in
    match removeError env with
    | Some e => (Throw e, w)
    | None => (Ok tt, {| files := withoutFile path (files w); log := log w |})
    end.

Definition runSlither (env : Env) (contractFile : string) : M (list Bug) :=
  (emit (RunSlither contractFile) ;;; ret (slitherOutput env))%M.

Definition runSolhint (env : Env) (contractFile : string) : M (list Issue) :=
  (emit (RunSolhint contractFile) ;;; ret (solhintOutput env))%M.

(** [generateABI]: the answer of solc, and on any failure of that path the
    heuristic ABI. *)
Definition generateABI (env : Env) (sourceCode : string) : M (list AbiEntry) :=
  (emit Compile ;;;
   match solcAbi env with
   | Some abi => ret abi
   | None => lift (ofOption (generateManualABI sourceCode))
   end)%M.

(** [generateAISummary] behind the test [useOpenAI && openai]. *)
Definition aiSummaryStep (env : Env) (useOpenAI : bool) : M (option string) :=
  if useOpenAI && openaiClient env
  then (emit Summarize ;;; ret (openaiSummary env))%M
  else ret None.

Record Analysis := mkAnalysis {
  riskScore : Z;
  auditGrade : Grade;
  tokenType : string;
  bugs : list Bug;
  linting : list Issue;
  contractDetails : ContractDetails;
  aiSummary : option string;
  abi : list AbiEntry;
  unsafePatterns : list string;
  deploymentWarnings : list string;
  timestamp : string
}.

(** [path.join(this.tempDir, 'contract.sol')] *)
Definition contractFile : string := "temp/contract.sol".

(** The fallback of [analyzeContract] for the security category: the
    heuristic list replaces an empty external list. *)
Definition finalSlitherResults (slitherResults : list Bug)
    (sourceCode : string) : list Bug :=
  if length slitherResults =? 0
  then detectManualVulnerabilities sourceCode
  else slitherResults.

(** The same for the style category. *)
Definition finalSolhintResults (solhintResults : list Issue)
    (sourceCode : string) : list Issue :=
  if length solhintResults =? 0
  then detectBasicLintingIssues sourceCode
  else solhintResults.

(** [analyzeContract].  The [catch] of the source logs and rethrows, so a
    throw leaves the world as it is at the throwing call. *)
Definition analyzeContract (env : Env) (sourceCode : string) (useOpenAI : bool)
    : M Analysis :=
  (writeFile env contractFile sourceCode ;;;
   slitherResults <- runSlither env contractFile ;;
   solhintResults <- runSolhint env contractFile ;;
   contractDetails <- lift (ofOption (extractContractDetails sourceCode)) ;;
   let finalSlitherResults := finalSlitherResults slitherResults sourceCode in
   let finalSolhintResults := finalSolhintResults solhintResults sourceCode in
   let riskScore := computeRiskScore finalSlitherResults finalSolhintResults in
   let auditGrade :=
     computeAuditGrade riskScore finalSlitherResults finalSolhintResults in
   let tokenType := detectTokenType sourceCode in
   aiSummary <- aiSummaryStep env useOpenAI ;;
   abi <- generateABI env sourceCode ;;
   let unsafePatterns := detectUnsafePatterns sourceCode in
   deploymentWarnings <-
     lift (generateDeploymentWarnings finalSlitherResults finalSolhintResults) ;;
   let analysis :=
     {| riskScore := riskScore;
        auditGrade := auditGrade;
        tokenType := tokenType;
        bugs := finalSlitherResults;
        linting := finalSolhintResults;
        contractDetails := contractDetails;
        aiSummary := aiSummary;
        abi := abi;
        unsafePatterns := unsafePatterns;
        deploymentWarnings := deploymentWarnings;
        timestamp := now env |} in
   remove env contractFile ;;;
   ret analysis)%M.

(* ================================================================= *)
(** ** The route [POST /api/analyze] *)

Definition CONTRACT_ADDRESS : string :=
  "0xb48A35A53F4C926A926B43DA810aBC474F12EE2b".

Inductive ResponseBody : Type :=
| ErrorBody (error : string) (details : option string)
| AnalysisBody (success : bool) (analysis : Analysis) (contractAddress : string).

Record Response := mkResponse {
  status : nat;
  body : ResponseBody
}.

(** The handler on the two fields of [req.body]: a missing or empty
    [sourceCode] is answered before [analyzeContract] is called; a throw of
    the analysis becomes a 500. *)
Definition postAnalyze (env : Env) (sourceCode : option string)
    (useOpenAI : option bool) : M Response :=
  fun w =>
    let useOpenAI := match useOpenAI with Some b => b | None => false end in
    if Js.falsy sourceCode then
      (Ok {| status := 400;
             body := ErrorBody "Source code is required" None |}, w)
    else
      match analyzeContract env (Js.orEmpty sourceCode) useOpenAI w with
      | (Ok analysis, w') =>
          (Ok {| status := 200;
                 body := AnalysisBody true analysis CONTRACT_ADDRESS |}, w')
      | (Throw e, w') =>
          (Ok {| status := 500;
                 body := ErrorBody "Analysis failed" (Some e) |}, w')
      | (OutOfFuel, w') => (OutOfFuel, w')
      end.

(** Is there a function entry called [name] in an ABI. *)
Definition hasFunctionEntry (name : string) (abi : list AbiEntry) : bool :=
  existsb (fun entry =>
             match entry with
             | AbiFunction n _ _ _ => String.eqb n name
             | AbiEvent _ _ _ => false
             end) abi.

(* ================================================================= *)
(** ** The scorer and the grader as the specification words them *)

Module Spec.

Inductive SecuritySeverity := High | Medium | Low | Informational.
Inductive StyleSeverity := Error | Warning.

(** The severity a diagnostic carries, its name read without regard to
    case; [None] for a missing or unrecognized one. *)
Definition securitySeverity (s : option string) : option SecuritySeverity :=
  match s with
  | None => None
  | Some text =>
      let text := Js.toLowerCase text in
      if String.eqb text "high" then Some High
      else if String.eqb text "medium" then Some Medium
      else if String.eqb text "low" then Some Low
      else if String.eqb text "informational" then Some Informational
      else None
  end.

Definition styleSeverity (s : option string) : option StyleSeverity :=
  match s with
  | None => None
  | Some text =>
      let text := Js.toLowerCase text in
      if String.eqb text "error" then Some Error
      else if String.eqb text "warning" then Some Warning
      else None
  end.

Definition securityPoints (s : option SecuritySeverity) : Z :=
  match s with
  | Some High => 25
  | Some Medium => 15
  | Some Low => 5
  | Some Informational => 1
  | None => 0
  end.

Definition stylePoints (s : option StyleSeverity) : Z :=
  match s with
  | Some Error => 3
  | Some Warning => 1
  | None => 0
  end.

Definition sumZ (l : list Z) : Z := fold_right Z.add 0%Z l.

Definition clamp (lo hi x : Z) : Z := Z.max lo (Z.min hi x).

(** The weighted sum, clamped to the interval from 0 to 100. *)
Definition score (security : list Bug) (style : list Issue) : Z :=
  clamp 0 100
    (sumZ (map (fun d => securityPoints (securitySeverity (bug_severity d)))
             security)
     + sumZ (map (fun d => stylePoints (styleSeverity (issue_severity d)))
               style)).

Definition escalationMarkers : list string :=
  ["proxy"; "upgradeable"; "mint"; "unrestricted"; "suicide"; "selfdestruct"].

(** A diagnostic whose name contains a marker, case-insensitively. *)
Definition escalates (d : Bug) : bool :=
  existsb (fun marker =>
             Js.includes (Js.toLowerCase (Js.orEmpty (bug_name d))) marker)
    escalationMarkers.

Definition grade (score : Z) (security : list Bug) : Grade :=
  if (70 <? score)%Z || existsb escalates security then GradeC
  else if (40 <? score)%Z then GradeB
  else GradeA.

End Spec.

(* ================================================================= *)
(** ** Auxiliary notions of the proofs *)

(** What a successful run of the matcher tells: the continuation was
    entered at a state [st'] reached from [st] by consuming at least [n]
    characters of the input and nothing else. *)
Definition reaches (n : nat) (st st' : MState) : Prop :=
  consumed st + n <= consumed st'
  /\ consumed st' + String.length (rest st')
     = consumed st + String.length (rest st).

(** The eight entries the heuristic security backend can report. *)
Definition heuristicBugs : list Bug :=
  [potentialReentrancy; uncheckedExternalCall; potentialIntegerOverflow;
   dangerousDelegatecall; txOriginUsage; blockTimestampDependency;
   potentialAccessControlIssue; selfDestructFunction].

(** A world without files in which nothing has been called yet. *)
Definition emptyWorld : World := {| files := []; log := [] |}.

(** A request in which no external tool answers: Slither and Solhint
    resolve to the empty list and solc fails. *)
Definition noTools : Env :=
  {| slitherOutput := [];
     solhintOutput := [];
     solcAbi := None;
     openaiClient := false;
     openaiSummary := None;
     writeFileError := None;
     removeError := None;
     now := "2024-01-01T00:00:00.000Z" |}.

(** A contract with a kill switch. *)
Definition killSwitchSource : string :=
  "contract Wallet { address payable owner; function close() public { selfdestruct(owner); } }".

(** Slither reports one finding, Solhint and solc fail. *)
Definition slitherOnly : Env :=
  {| slitherOutput :=
       [{| bug_name := Some "reentrancy-eth";
           bug_description := "Reentrancy in Bank.withdraw()";
           bug_severity := Some "High";
           bug_confidence := "Medium";
           bug_line := 7;
           bug_function := "withdraw";
           bug_file := "contract.sol" |}];
     solhintOutput := [];
     solcAbi := None;
     openaiClient := false;
     openaiSummary := None;
     writeFileError := None;
     removeError := None;
     now := "2024-01-01T00:00:00.000Z" |}.

(** The output of Slither holds a detector without a [check] field, so the
    element built from it has no [name]. *)
Definition namelessFinding : Env :=
  {| slitherOutput :=
       [{| bug_name := None;
           bug_description := "Bank.withdraw() sends eth to arbitrary user";
           bug_severity := Some "High";
           bug_confidence := "Medium";
           bug_line := 7;
           bug_function := "withdraw";
           bug_file := "contract.sol" |}];
     solhintOutput := [];
     solcAbi := None;
     openaiClient := false;
     openaiSummary := None;
     writeFileError := None;
     removeError := None;
     now := "2024-01-01T00:00:00.000Z" |}.

Definition bankSource : string :=
  "contract Bank { function withdraw() external { token.call(...) } }".

(** The declaration of the withdraw scenario. *)
Definition withdrawSnippet : string :=
  "function withdraw() external { token.call(...) }".

(** The same declaration after an internal function. *)
Definition internalFirstSource : string :=
  "contract Bank { function audit() internal {} function withdraw() external { token.call(...) } }".

(** The match of the ABI function pattern on the scenario's declaration. *)
Definition withdrawMatch (index : nat) : Match :=
  {| index := index; matchLength := 29;
     groups := [(2, ""); (1, "withdraw")] |}.

(** Every match of [r] that starts at one of the first [n] positions of
    [s] ends within these [n] characters. *)
Fixpoint matchesEndWithin (r : regex) (s : string) (n : nat) {struct n}
    : bool :=
  match n with
  | O => true
  | S n' =>
      match matchAt r s with
      | Some out => consumed out <=? n
      | None => true
      end
      && match s with
         | EmptyString => true
         | String _ s' => matchesEndWithin r s' n'
         end
  end.

(** The inventory without any declaration. *)
Definition emptyDetails : ContractDetails :=
  {| functions := []; modifiers := []; stateVariables := []; events := [];
     imports := [] |}.

(* ================================================================= *)
(** ** Further notions of the proofs *)

(** The content of the file at [path], if there is one. *)
Fixpoint lookupFile (path : string) (fs : list (string * string))
    : option string :=
  match fs with
  | [] => None
  | entry :: fs' =>
      if String.eqb (fst entry) path then Some (snd entry)
      else lookupFile path fs'
  end.

(** The calls one analysis makes, in order: the summarizer only when it is
    asked for and configured. *)
Definition callsOfRun (env : Env) (sourceCode : string) (useOpenAI : bool)
    : list Effect :=
  [WriteFile contractFile sourceCode; RunSlither contractFile;
   RunSolhint contractFile]
  ++ (if useOpenAI && openaiClient env then [Summarize] else [])
  ++ [Compile; RemoveFile contractFile].

(** The values [detectTokenType] can return. *)
Definition tokenTypes : list string :=
  ["ERC20"; "ERC721"; "ERC1155"; "DeFi"; "Governance"; "Token"; "Custom"].

(** 1 for [true], 0 for [false]. *)
Definition count1 (b : bool) : nat := if b then 1 else 0.

(** What an indexed loop collects when its body pushes [g x index] at the
    element [x]. *)
Fixpoint collectIndexed {A B : Type} (g : A -> nat -> list B) (l : list A)
    (index : nat) : list B :=
  match l with
  | [] => []
  | x :: l' => g x index ++ collectIndexed g l' (S index)
  end.

(** [r] without its capture group number [i]. *)
Fixpoint dropGroup (i : nat) (r : regex) : regex :=
  match r with
  | Eps => Eps
  | Cls p => Cls p
  | Seq r1 r2 => Seq (dropGroup i r1) (dropGroup i r2)
  | Alt r1 r2 => Alt (dropGroup i r1) (dropGroup i r2)
  | Star r1 => Star (dropGroup i r1)
  | Grp j r1 => if j =? i then dropGroup i r1 else Grp j (dropGroup i r1)
  | Eos => Eos
  end.

(** Two states of the matcher that differ at most in group [i]. *)
Definition sameBut (i : nat) (st1 st2 : MState) : Prop :=
  consumed st1 = consumed st2 /\ rest st1 = rest st2
  /\ forall j, j <> i -> lookup j (caps st1) = lookup j (caps st2).

(** Two results of the matcher that fail together or differ at most in
    group [i]. *)
Definition sameResult (i : nat) (o1 o2 : option MState) : Prop :=
  match o1, o2 with
  | Some st1, Some st2 => sameBut i st1 st2
  | None, None => True
  | _, _ => False
  end.

(** Two matches at the same place that differ at most in group [i]. *)
Definition sameMatch (i : nat) (o1 o2 : option Match) : Prop :=
  match o1, o2 with
  | Some m1, Some m2 =>
      index m1 = index m2 /\ matchLength m1 = matchLength m2
      /\ forall j, j <> i -> group j m1 = group j m2
  | None, None => True
  | _, _ => False
  end.

(** The names of the event entries of an ABI, in order. *)
Definition eventNames (abi : list AbiEntry) : list string :=
  flat_map (fun entry =>
              match entry with
              | AbiEvent name _ _ => [name]
              | AbiFunction _ _ _ _ => []
              end) abi.

(* ================================================================= *)
(** ** The risk labels of the report ([services/pdfGenerator.js]) *)

Definition getRiskColor (score : Z) : string :=
  if (70 <=? score)%Z then "#dc3545"
  else if (40 <=? score)%Z then "#ffc107"
  else "#28a745".

Definition getRiskLevel (score : Z) : string :=
  if (70 <=? score)%Z then "HIGH"
  else if (40 <=? score)%Z then "MEDIUM"
  else "LOW".

(** The three sentences of [getRiskDescription]. *)
Definition significantRisk : string :=
  "This contract has significant security vulnerabilities that should be addressed before deployment.".

Definition moderateRisk : string :=
  "This contract has moderate security concerns that should be reviewed and potentially addressed.".

Definition minimalRisk : string :=
  "This contract appears to have minimal security risks, but should still be thoroughly tested.".

Definition getRiskDescription (score : Z) : string :=
  if (70 <=? score)%Z then significantRisk
  else if (40 <=? score)%Z then moderateRisk
  else minimalRisk.

(* ================================================================= *)
(** ** Fetching verified source ([services/snowtrace.js]) and the route
       [POST /api/analyze-address] *)

(** An element of [response.data.result]; of its fields
    [fetchContractFromSnowtrace] reads [SourceCode] only. *)
Record ContractRecord := mkContractRecord {
  SourceCode : option string
}.

(** [response.data]: [api_result] is [None] when the field is missing or
    falsy. *)
Record ApiData := mkApiData {
  api_status : option string;
  api_result : option (list ContractRecord)
}.

(** The explorer: [httpGet url params] is the [data] of the response of
    [axios.get], [None] when the call throws or the response has no data. *)
Record Explorer := mkExplorer {
  apiKey : string;                                   (* SNOWTRACE_API_KEY || '' *)
  httpGet : string -> list (string * string) -> option ApiData
}.

Definition baseUrl : string := "https://api-testnet.snowtrace.io/api".

(** [fetchContractFromSnowtrace]: the source of the first record when the
    status is the string 1 and that source is not empty; [None] is [null],
    also after a throw. *)
Definition fetchContractFromSnowtrace (explorer : Explorer)
    (contractAddress : string) : option string :=
  let sourceCodeUrl :=
    String.append baseUrl
      (String.append "?module=contract&action=getsourcecode&address="
         contractAddress) in
  let params :=
    if String.eqb (apiKey explorer) "" then []
    else [("apikey", apiKey explorer)] in
  match httpGet explorer sourceCodeUrl params with
  | None => None
  | Some data =>
      match api_status data, api_result data with
      | Some status, Some (contract :: _) =>
          if String.eqb status "1" then
            if negb (Js.falsy (SourceCode contract))
            then SourceCode contract
            else None
          else None
      | _, _ => None
      end
  end.

(** The success body of the route, with the analyzed address. *)
Record AddressAnalysis := mkAddressAnalysis {
  aa_success : bool;
  aa_analysis : Analysis;
  aa_contractAddress : string;
  aa_analyzedAddress : string
}.

Inductive AddressBody : Type :=
| AddressError (error : string) (details : option string)
| AddressOk (result : AddressAnalysis).

Record AddressResponse := mkAddressResponse {
  address_status : nat;
  address_body : AddressBody
}.

(** The handler of [POST /api/analyze-address] on the two fields of
    [req.body]. *)
Definition postAnalyzeAddress (explorer : Explorer) (env : Env)
    (contractAddress : option string) (useOpenAI : option bool)
    : M AddressResponse :=
  fun w =>
    let useOpenAI := match useOpenAI with Some b => b | None => false end in
    if Js.falsy contractAddress then
      (Ok {| address_status := 400;
             address_body :=
               AddressError "Contract address is required" None |}, w)
    else
      let sourceCode :=
        fetchContractFromSnowtrace explorer (Js.orEmpty contractAddress) in
      if Js.falsy sourceCode then
        (Ok {| address_status := 404;
               address_body :=
                 AddressError "Contract not found or not verified" None |}, w)
      else
        match analyzeContract env (Js.orEmpty sourceCode) useOpenAI w with
        | (Ok analysis, w') =>
            (Ok {| address_status := 200;
                   address_body :=
                     AddressOk {| aa_success := true;
                                  aa_analysis := analysis;
                                  aa_contractAddress := CONTRACT_ADDRESS;
                                  aa_analyzedAddress :=
                                    Js.orEmpty contractAddress |} |}, w')
        | (Throw e, w') =>
            (Ok {| address_status := 500;
                   address_body :=
                     AddressError "Analysis failed" (Some e) |}, w')
        | (OutOfFuel, w') => (OutOfFuel, w')
        end.

(* ================================================================= *)
(** ** Parameter lists as they are written *)

Fixpoint allChars (p : ascii -> bool) (s : string) : bool :=
  match s with
  | EmptyString => true
  | String c s' => p c && allChars p s'
  end.

(** A character of a type or of a name: no white space and no comma. *)
Definition isTokenChar (c : ascii) : bool :=
  negb (Js.isSpace c) && negb (Ascii.eqb c ",").

(** A type or a name: not empty, without white space or comma, and
    without the letters of indexed in a row anywhere in it (the parser looks
    for them with [includes] and removes their first occurrence). *)
Definition isToken (s : string) : bool :=
  negb (String.eqb s "") && allChars isTokenChar s
  && negb (Js.includes s "indexed").

(** A declared parameter: its type, whether it is indexed, its name. *)
Record Declared := mkDeclared {
  decl_type : string;
  decl_indexed : bool;
  decl_name : string
}.

Definition wellFormed (d : Declared) : bool :=
  isToken (decl_type d) && isToken (decl_name d).

(** One parameter as Solidity writes it. *)
Definition renderParam (d : Declared) : string :=
  String.append (decl_type d)
    (String.append (if decl_indexed d then " indexed " else " ")
       (decl_name d)).

(** A parameter list as Solidity writes it, with a comma and a blank
    between parameters. *)
Fixpoint renderParams (ds : list Declared) : string :=
  match ds with
  | [] => ""
  | [d] => renderParam d
  | d :: ds' =>
      String.append (renderParam d) (String "," (String " " (renderParams ds')))
  end.

(** The entry [parseFunctionParams] is to give for a declared parameter. *)
Definition paramOf (d : Declared) : Param :=
  {| param_type := decl_type d;
     param_name := decl_name d;
     param_internalType := decl_type d;
     param_indexed := Some (decl_indexed d) |}.

(* ================================================================= *)
(** ** Reading the output of Slither ([runSlither])

    The callback of [exec] parses [stdout] and walks the parsed value with
    property reads, truth tests and [forEach]; any throw inside the [try]
    resolves to the empty list.  [JSON.parse] is a parameter; numbers are
    modelled by integers. *)

#[local] Unset Elimination Schemes.
Inductive Json : Type :=
| JNull
| JBool (b : bool)
| JNum (n : Z)
| JStr (s : string)
| JArr (items : list Json)
| JObj (fields : list (string * Json)).
#[local] Set Elimination Schemes.

(** The value of key [key] in a parsed object: the last one wins. *)
Fixpoint lookupLast (key : string) (fields : list (string * Json))
    : option Json :=
  match fields with
  | [] => None
  | field :: fields' =>
      match lookupLast key fields' with
      | Some v => Some v
      | None => if String.eqb (fst field) key then Some (snd field) else None
      end
  end.

(** Truth of a value; [None] is [undefined]. *)
Definition truthy (v : option Json) : bool :=
  match v with
  | None => false
  | Some JNull => false
  | Some (JBool b) => b
  | Some (JNum n) => negb (n =? 0)%Z
  | Some (JStr s) => negb (String.eqb s "")
  | Some (JArr _) => true
  | Some (JObj _) => true
  end.

(** [v.key] for the keys the callback reads (none of them is a property of
    a prototype other than [length]): a throw on [null]. *)
Definition getProp (v : Json) (key : string) : Outcome (option Json) :=
  match v with
  | JNull => Throw "Cannot read properties of null"
  | JObj fields => Ok (lookupLast key fields)
  | JArr items =>
      Ok (if String.eqb key "length"
          then Some (JNum (Z.of_nat (length items))) else None)
  | JStr s =>
      Ok (if String.eqb key "length"
          then Some (JNum (Z.of_nat (String.length s))) else None)
  | JBool _ => Ok None
  | JNum _ => Ok None
  end.

(** The loop of [forEach] over the elements, stopping at a throw. *)
Fixpoint forEachOutcome {A B : Type} (f : A -> B -> Outcome B) (l : list A)
    (acc : B) : Outcome B :=
  match l with
  | [] => Ok acc
  | x :: l' => bind (f x acc) (forEachOutcome f l')
  end.

(** [v.forEach(f)] for a truthy [v]: only an array has the method. *)
Definition jsonForEach {B : Type} (v : Json) (f : Json -> B -> Outcome B)
    (acc : B) : Outcome B :=
  match v with
  | JArr items => forEachOutcome f items acc
  | _ => Throw "forEach is not a function"
  end.

(** [x || fallback] on values. *)
Definition orElse (v : option Json) (fallback : Json) : Json :=
  match v with
  | Some x => if truthy v then x else fallback
  | None => fallback
  end.

(** A finding as the callback builds it, its fields as they were parsed. *)
Record RawBug := mkRawBug {
  raw_name : option Json;
  raw_description : option Json;
  raw_severity : option Json;
  raw_confidence : option Json;
  raw_line : option Json;
  raw_function : Json;
  raw_file : Json
}.

(** The inner [forEach]: one finding per element. *)
Definition pushElement (detector element : Json) (bugs : list RawBug)
    : Outcome (list RawBug) :=
  bind (getProp detector "check") (fun check =>
  bind (getProp detector "description") (fun description =>
  bind (getProp detector "impact") (fun impact =>
  bind (getProp detector "confidence") (fun confidence =>
  bind (getProp element "line") (fun line =>
  bind (getProp element "function_name") (fun function_name =>
  bind (getProp element "filename") (fun filename =>
    Ok (bugs ++ [{| raw_name := check;
                    raw_description := description;
                    raw_severity := impact;
                    raw_confidence := confidence;
                    raw_line := line;
                    raw_function := orElse function_name (JStr "N/A");
                    raw_file := orElse filename (JStr "contract.sol") |}])
  ))))))).

(** The outer [forEach]: the elements of a detector that has some. *)
Definition pushDetector (detector : Json) (bugs : list RawBug)
    : Outcome (list RawBug) :=
  bind (getProp detector "elements") (fun elements =>
    match elements with
    | Some es =>
        if truthy elements then jsonForEach es (pushElement detector) bugs
        else Ok bugs
    | None => Ok bugs
    end).

(** The body of the [try] after [JSON.parse]. *)
Definition collectBugs (results : Json) : Outcome (list RawBug) :=
  let bugs := [] in
  bind (getProp results "results") (fun inner =>
    match inner with
    | Some r =>
        if truthy inner then
          bind (getProp r "detectors") (fun detectors =>
            match detectors with
            | Some ds =>
                if truthy detectors then jsonForEach ds pushDetector bugs
                else Ok bugs
            | None => Ok bugs
            end)
        else Ok bugs
    | None => Ok bugs
    end).

(** The callback of [exec] in [runSlither], as the list it resolves to;
    [parse] is [JSON.parse], [None] when it throws. *)
Definition slitherCallback (parse : string -> option Json) (stdout : string)
    : list RawBug :=
  if String.eqb stdout "" || String.eqb (Js.trim stdout) "" then []
  else
    match parse stdout with
    | None => []
    | Some results =>
        match collectBugs results with
        | Ok bugs => bugs
        | Throw _ => []
        | OutOfFuel => []
        end
    end.

(** The number of elements the callback visits in a detector. *)
Definition elementCount (detector : Json) : nat :=
  match detector with
  | JObj fields =>
      match lookupLast "elements" fields with
      | Some (JArr es) => length es
      | _ => 0
      end
  | _ => 0
  end.

(** The detectors the callback walks, when the parsed value has them. *)
Definition detectorsOf (results : Json) : option (list Json) :=
  match getProp results "results" with
  | Ok (Some r) =>
      if truthy (Some r) then
        match getProp r "detectors" with
        | Ok (Some (JArr ds)) => Some ds
        | _ => None
        end
      else None
  | _ => None
  end.

(** A finding whose function and file are truthy values. *)
Definition namedPlace (bug : RawBug) : Prop :=
  truthy (Some (raw_function bug)) = true
  /\ truthy (Some (raw_file bug)) = true.

Definition nonNull (v : Json) : bool :=
  match v with
  | JNull => false
  | _ => true
  end.

(** Detectors the callback walks without a throw: none is [null], and the
    [elements] of each is falsy, missing, or an array without [null]. *)
Definition walkable (detector : Json) : bool :=
  match detector with
  | JNull => false
  | JObj fields =>
      match lookupLast "elements" fields with
      | Some (JArr es) => forallb nonNull es
      | Some v => negb (truthy (Some v))
      | None => true
      end
  | _ => true
  end.

(* ================================================================= *)
(** ** The scorer, the grader and the warnings on findings as parsed

    [runSlither] and [runSolhint] copy [check], [impact] and [severity] as
    [JSON.parse] gave them, so the name and the severity of a finding can be
    any parsed value, not only a string.  These are [computeRiskScore],
    [computeAuditGrade] and [generateDeploymentWarnings] on such findings;
    [None] is a thrown [TypeError].  [Bug] and [Issue] hold the findings
    whose name and severity are a string or a falsy value ([typedField]). *)

(** An issue as the callback of [runSolhint] builds it. *)
Record RawIssue := mkRawIssue {
  raw_rule : option Json;
  raw_issue_severity : option Json;
  raw_message : option Json;
  raw_issue_line : option Json;
  raw_column : option Json
}.

Definition isString (v : option Json) : bool :=
  match v with
  | Some (JStr _) => true
  | _ => false
  end.

(** [(v || '').toLowerCase()]: a falsy value gives the empty string, and of
    the truthy values only a string has the method. *)
Definition lowerOrEmpty (v : option Json) : option string :=
  match v with
  | Some (JStr s) => Some (Js.toLowerCase s)
  | _ => if truthy v then None else Some ""
  end.

(** The [switch] of [computeRiskScore] on a lower-cased severity. *)
Definition severityWeight (severity : string) : Z :=
  if String.eqb severity "high" then 25
  else if String.eqb severity "medium" then 15
  else if String.eqb severity "low" then 5
  else if String.eqb severity "informational" then 1
  else 0.

(** The [if] of [computeRiskScore] on a lower-cased severity of Solhint. *)
Definition lintWeight (severity : string) : Z :=
  if String.eqb severity "error" then 3
  else if String.eqb severity "warning" then 1
  else 0.

(** [array.forEach(f)] with a body that may throw. *)
Fixpoint forEachRaw {A B : Type} (f : A -> B -> option B) (l : list A)
    (acc : B) : option B :=
  match l with
  | [] => Some acc
  | x :: l' =>
      match f x acc with
      | Some acc' => forEachRaw f l' acc'
      | None => None
      end
  end.

Definition computeRiskScoreRaw (slitherResults : list RawBug)
    (solhintResults : list RawIssue) : option Z :=
  let score := 0%Z in
  match forEachRaw
          (fun bug score =>
             match lowerOrEmpty (raw_severity bug) with
             | Some severity => Some (score + severityWeight severity)%Z
             | None => None
             end) slitherResults score with
  | None => None
  | Some score =>
      match forEachRaw
              (fun issue score =>
                 match lowerOrEmpty (raw_issue_severity issue) with
                 | Some severity => Some (score + lintWeight severity)%Z
                 | None => None
                 end) solhintResults score with
      | None => None
      | Some score => Some (Z.min 100 (Z.max 0 score))
      end
  end.

(** [array.some(test)] with a test that may throw: the scan stops at the
    first element on which the test is true or throws. *)
Fixpoint someRaw {A : Type} (test : A -> option bool) (l : list A)
    : option bool :=
  match l with
  | [] => Some false
  | x :: l' =>
      match test x with
      | None => None
      | Some true => Some true
      | Some false => someRaw test l'
      end
  end.

(** [(bug.name || '').toLowerCase().includes(a) ||
     (bug.name || '').toLowerCase().includes(b)] *)
Definition rawNameHas (markers : string * string) (bug : RawBug)
    : option bool :=
  match lowerOrEmpty (raw_name bug) with
  | Some name =>
      Some (Js.includes name (fst markers) || Js.includes name (snd markers))
  | None => None
  end.

(** The marker pairs of the three tests of [computeAuditGrade]. *)
Definition proxyMarkers : string * string := ("proxy", "upgradeable").
Definition mintMarkers : string * string := ("mint", "unrestricted").
Definition killMarkers : string * string := ("suicide", "selfdestruct").

Definition computeAuditGradeRaw (riskScore : Z) (slitherResults : list RawBug)
    (solhintResults : list RawIssue) : option Grade :=
  match someRaw (rawNameHas proxyMarkers) slitherResults with
  | None => None
  | Some hasProxyUpgradeable =>
  match someRaw (rawNameHas mintMarkers) slitherResults with
  | None => None
  | Some hasUnrestrictedMint =>
  match someRaw (rawNameHas killMarkers) slitherResults with
  | None => None
  | Some hasKillSwitch =>
      Some (if hasProxyUpgradeable || hasUnrestrictedMint || hasKillSwitch
               || (70 <? riskScore)%Z
            then GradeC
            else if (40 <? riskScore)%Z then GradeB
            else GradeA)
  end end end.

(** [bug.severity === 'High'] *)
Definition rawIsHigh (bug : RawBug) : bool :=
  match raw_severity bug with
  | Some (JStr severity) => String.eqb severity "High"
  | _ => false
  end.

(** The values with a method [includes]: strings and arrays. *)
Definition hasIncludes (v : option Json) : bool :=
  match v with
  | Some (JStr _) => true
  | Some (JArr _) => true
  | _ => false
  end.

(** [name.includes(marker)]: a substring of a string, an element of an
    array; the read throws on [undefined] and [null], the call on a boolean,
    a number and an object. *)
Definition rawIncludes (name : option Json) (marker : string) : option bool :=
  match name with
  | Some (JStr s) => Some (Js.includes s marker)
  | Some (JArr items) =>
      Some (existsb (fun item =>
                       match item with
                       | JStr t => String.eqb t marker
                       | _ => false
                       end) items)
  | _ => None
  end.

(** The predicate of the second filter of [generateDeploymentWarnings]. *)
Definition rawIsCritical (bug : RawBug) : option bool :=
  match rawIncludes (raw_name bug) "reentrancy" with
  | None => None
  | Some true => Some true
  | Some false =>
      match rawIncludes (raw_name bug) "overflow" with
      | None => None
      | Some true => Some true
      | Some false => rawIncludes (raw_name bug) "access-control"
      end
  end.

(** [array.filter(test)] with a test that may throw. *)
Fixpoint filterRaw {A : Type} (test : A -> option bool) (l : list A)
    : option (list A) :=
  match l with
  | [] => Some []
  | x :: l' =>
      match test x with
      | None => None
      | Some keep =>
          match filterRaw test l' with
          | None => None
          | Some kept => Some (if keep then x :: kept else kept)
          end
      end
  end.

Definition generateDeploymentWarningsRaw (slitherResults : list RawBug)
    (solhintResults : list RawIssue) : option (list string) :=
  let warnings := [] in
  let highSeverityBugs := filter rawIsHigh slitherResults in
  let warnings :=
    pushIf (0 <? length highSeverityBugs)
      (highSeverityWarning (length highSeverityBugs)) warnings in
  match filterRaw rawIsCritical slitherResults with
  | None => None
  | Some criticalBugs =>
      Some (pushIf (0 <? length criticalBugs) criticalWarning warnings)
  end.

(** The typed reading of a parsed field: a string is itself, any other falsy
    value reads as a missing field, and a truthy value that is not a string
    has no typed reading. *)
Definition typedField (v : option Json) : option (option string) :=
  match v with
  | Some (JStr s) => Some (Some s)
  | _ => if truthy v then None else Some None
  end.

(** [bug] is the typed reading of the finding [raw]. *)
Definition typedAs (raw : RawBug) (bug : Bug) : Prop :=
  typedField (raw_name raw) = Some (bug_name bug)
  /\ typedField (raw_severity raw) = Some (bug_severity bug).

Definition typedIssueAs (raw : RawIssue) (issue : Issue) : Prop :=
  typedField (raw_issue_severity raw) = Some (issue_severity issue).

(* ================================================================= *)
(** * Properties *)

(* ================================================================= *)
(** ** Strings *)

Section StringFacts.

Lemma append_nil_r (s : string) : String.append s "" = s.
Proof. induction s as [|c s IH]; simpl; [reflexivity | now rewrite IH]. Qed.

Lemma append_assoc (a b c : string) :
  String.append (String.append a b) c = String.append a (String.append b c).
Proof. induction a as [|x a IH]; simpl; [reflexivity | now rewrite IH]. Qed.

Lemma length_append (a b : string) :
  String.length (String.append a b) = String.length a + String.length b.
Proof. induction a as [|x a IH]; simpl; [reflexivity | now rewrite IH]. Qed.

Lemma toLowerCase_append (a b : string) :
  Js.toLowerCase (String.append a b)
  = String.append (Js.toLowerCase a) (Js.toLowerCase b).
Proof. induction a as [|x a IH]; simpl; [reflexivity | now rewrite IH]. Qed.

Lemma prefix_append (t s : string) : prefix t (String.append t s) = true.
Proof.
  induction t as [|c t IH]; simpl; [now destruct s |].
  destruct (ascii_dec c c) as [_|ne]; [exact IH | now elim ne].
Qed.

Lemma prefix_split (t s : string) :
  prefix t s = true -> exists b, s = String.append t b.
Proof.
  revert s; induction t as [|c t IH]; intros s H.
  - exists s; reflexivity.
  - destruct s as [|d s]; simpl in H; [discriminate |].
    destruct (ascii_dec c d) as [->|]; [| discriminate].
    destruct (IH _ H) as [b ->]. exists b; reflexivity.
Qed.

Lemma includes_startsWith (s t : string) :
  Js.startsWith s t = true -> Js.includes s t = true.
Proof. intros H. destruct s; cbn [Js.includes]; rewrite H; reflexivity. Qed.

(** [includes] finds exactly the texts that have [t] as a factor. *)
Lemma includes_append (a t b : string) :
  Js.includes (String.append a (String.append t b)) t = true.
Proof.
  induction a as [|x a IH].
  - cbn [String.append]. apply includes_startsWith. apply prefix_append.
  - simpl. rewrite IH. apply orb_true_r.
Qed.

Lemma includes_split (s t : string) :
  Js.includes s t = true ->
  exists a b, s = String.append a (String.append t b).
Proof.
  induction s as [|c s IH]; cbn [Js.includes]; unfold Js.startsWith; intros H.
  - rewrite orb_false_r in H. destruct (prefix_split _ _ H) as [b E].
    exists "", b; exact E.
  - apply orb_true_iff in H as [H | H].
    + destruct (prefix_split _ _ H) as [b E]. exists "", b; exact E.
    + destruct (IH H) as (a & b & ->). exists (String c a), b; reflexivity.
Qed.

(** A factor of a factor is a factor. *)
Lemma includes_trans (s t u : string) :
  Js.includes s t = true -> Js.includes t u = true -> Js.includes s u = true.
Proof.
  intros Hs Ht.
  destruct (includes_split _ _ Hs) as (a & b & ->).
  destruct (includes_split _ _ Ht) as (a' & b' & ->).
  rewrite !append_assoc, <- (append_assoc a a').
  apply includes_append.
Qed.

(** Lower-casing keeps factors. *)
Lemma includes_toLowerCase (s t : string) :
  Js.includes s t = true ->
  Js.includes (Js.toLowerCase s) (Js.toLowerCase t) = true.
Proof.
  intros H. destruct (includes_split _ _ H) as (a & b & ->).
  rewrite !toLowerCase_append. apply includes_append.
Qed.

End StringFacts.

(* ================================================================= *)
(** ** Risk score *)

Section Scoring.

Lemma slitherWeight_spec (bug : Bug) :
  slitherWeight bug
  = Spec.securityPoints (Spec.securitySeverity (bug_severity bug)).
Proof.
  unfold slitherWeight, Spec.securitySeverity.
  destruct (bug_severity bug) as [text|]; simpl; [| reflexivity].
  repeat match goal with
         | |- context [String.eqb ?a ?b] => destruct (String.eqb a b)
         end; reflexivity.
Qed.

Lemma solhintWeight_spec (issue : Issue) :
  solhintWeight issue
  = Spec.stylePoints (Spec.styleSeverity (issue_severity issue)).
Proof.
  unfold solhintWeight, Spec.styleSeverity.
  destruct (issue_severity issue) as [text|]; simpl; [| reflexivity].
  repeat match goal with
         | |- context [String.eqb ?a ?b] => destruct (String.eqb a b)
         end; reflexivity.
Qed.

Lemma slitherWeight_nonneg (bug : Bug) : (0 <= slitherWeight bug)%Z.
Proof.
  unfold slitherWeight.
  repeat match goal with
         | |- context [String.eqb ?a ?b] => destruct (String.eqb a b)
         end; lia.
Qed.

Lemma solhintWeight_nonneg (issue : Issue) : (0 <= solhintWeight issue)%Z.
Proof.
  unfold solhintWeight.
  repeat match goal with
         | |- context [String.eqb ?a ?b] => destruct (String.eqb a b)
         end; lia.
Qed.

(** A [forEach] that adds [w x] to a running total adds the sum of the
    weights. *)
Lemma fold_left_total {A : Type} (w : A -> Z) (l : list A) (start : Z) :
  fold_left (fun total x => (total + w x)%Z) l start
  = (start + Spec.sumZ (map w l))%Z.
Proof.
  revert start; induction l as [|x l IH]; intros start; simpl.
  - lia.
  - rewrite IH. unfold Spec.sumZ. simpl. lia.
Qed.

Lemma sumZ_app (l1 l2 : list Z) :
  Spec.sumZ (l1 ++ l2) = (Spec.sumZ l1 + Spec.sumZ l2)%Z.
Proof.
  unfold Spec.sumZ. induction l1 as [|x l1 IH]; simpl; [reflexivity | lia].
Qed.

Lemma sumZ_nonneg (l : list Z) :
  (forall x, In x l -> (0 <= x)%Z) -> (0 <= Spec.sumZ l)%Z.
Proof.
  unfold Spec.sumZ. induction l as [|x l IH]; simpl; intros H; [lia |].
  assert (0 <= x)%Z by (apply H; now left).
  assert (0 <= fold_right Z.add 0 l)%Z by (apply IH; intros; apply H; now right).
  lia.
Qed.

(** The score as one sum of weights. *)
Lemma computeRiskScore_sum (slitherResults : list Bug)
    (solhintResults : list Issue) :
  computeRiskScore slitherResults solhintResults
  = Z.min 100 (Z.max 0 (Spec.sumZ (map slitherWeight slitherResults)
                         + Spec.sumZ (map solhintWeight solhintResults))).
Proof.
  unfold computeRiskScore. cbv zeta. now rewrite !fold_left_total.
Qed.

End Scoring.

(** C2: the risk score is the sum over the security diagnostics of 25, 15, 5
    and 1 for High, Medium, Low and Informational plus the sum over the
    style diagnostics of 3 and 1 for Error and Warning (severity names read
    without regard to case), a missing or unrecognized severity counting 0,
    clamped to the interval from 0 to 100; so a total of 100 or more gives
    exactly 100. *)
Theorem computeRiskScore_weighted_sum_clamped :
  forall (slitherResults : list Bug) (solhintResults : list Issue),
    computeRiskScore slitherResults solhintResults
    = Spec.score slitherResults solhintResults
    /\ ((100 <= Spec.sumZ (map slitherWeight slitherResults)
                + Spec.sumZ (map solhintWeight solhintResults))%Z ->
        computeRiskScore slitherResults solhintResults = 100%Z).
Proof.
  intros bugs issues. rewrite computeRiskScore_sum. split.
  - unfold Spec.score, Spec.clamp.
    rewrite (map_ext _ _ slitherWeight_spec), (map_ext _ _ solhintWeight_spec).
    lia.
  - lia.
Qed.

(** C6: appending one more diagnostic to either list never lowers the risk
    score, and the score always lies between 0 and 100. *)
Theorem computeRiskScore_monotone_bounded :
  forall (slitherResults : list Bug) (solhintResults : list Issue)
         (bug : Bug) (issue : Issue),
    (computeRiskScore slitherResults solhintResults
     <= computeRiskScore (slitherResults ++ [bug]) solhintResults)%Z
    /\ (computeRiskScore slitherResults solhintResults
        <= computeRiskScore slitherResults (solhintResults ++ [issue]))%Z
    /\ (0 <= computeRiskScore slitherResults solhintResults <= 100)%Z.
Proof.
  intros bugs issues bug issue. rewrite !computeRiskScore_sum.
  rewrite !map_app, !sumZ_app. unfold Spec.sumZ at 2 5. simpl.
  pose proof (slitherWeight_nonneg bug).
  pose proof (solhintWeight_nonneg issue).
  lia.
Qed.

(* ================================================================= *)
(** ** Audit grade *)

Section Grading.

(** The three [some] tests of [computeAuditGrade] together look for the six
    markers. *)
Lemma escalation_tests (slitherResults : list Bug) :
  existsb (fun bug => nameHas bug "proxy" || nameHas bug "upgradeable")
    slitherResults
  || existsb (fun bug => nameHas bug "mint" || nameHas bug "unrestricted")
       slitherResults
  || existsb (fun bug => nameHas bug "suicide" || nameHas bug "selfdestruct")
       slitherResults
  = existsb Spec.escalates slitherResults.
Proof.
  induction slitherResults as [|bug l IH]; [reflexivity |].
  cbn [existsb]. rewrite <- IH.
  unfold Spec.escalates, Spec.escalationMarkers, nameHas. cbn [existsb].
  repeat match goal with
         | |- context [Js.includes ?a ?b] => destruct (Js.includes a b)
         end;
  repeat match goal with
         | |- context [existsb ?f l] => destruct (existsb f l)
         end; reflexivity.
Qed.

Lemma computeAuditGrade_grade (riskScore : Z) (slitherResults : list Bug)
    (solhintResults : list Issue) :
  computeAuditGrade riskScore slitherResults solhintResults
  = Spec.grade riskScore slitherResults.
Proof.
  unfold computeAuditGrade, Spec.grade. cbv zeta.
  rewrite escalation_tests.
  destruct (existsb Spec.escalates slitherResults), (70 <? riskScore)%Z;
    reflexivity.
Qed.

Lemma escalates_marker (bug : Bug) (marker : string) :
  In marker Spec.escalationMarkers -> nameHas bug marker = true ->
  Spec.escalates bug = true.
Proof.
  intros Hin Hhas. unfold Spec.escalates.
  apply existsb_exists. exists marker. split; assumption.
Qed.

End Grading.

(** C1: the audit grade is C when the score is above 70 or some security
    diagnostic's name contains, case-insensitively, one of proxy,
    upgradeable, mint, unrestricted, suicide, selfdestruct (also at score
    0); otherwise it is B above 40 and A else.  A score of 71 gives C, a
    score of 70 without a marked diagnostic gives B. *)
Theorem computeAuditGrade_escalation :
  forall (riskScore : Z) (slitherResults : list Bug)
         (solhintResults : list Issue),
    computeAuditGrade riskScore slitherResults solhintResults
    = Spec.grade riskScore slitherResults
    /\ computeAuditGrade 71 slitherResults solhintResults = GradeC
    /\ (existsb Spec.escalates slitherResults = false ->
        computeAuditGrade 70 slitherResults solhintResults = GradeB)
    /\ (forall bug marker,
          In bug slitherResults -> In marker Spec.escalationMarkers ->
          nameHas bug marker = true ->
          computeAuditGrade 0 slitherResults solhintResults = GradeC).
Proof.
  intros riskScore bugs issues. rewrite !computeAuditGrade_grade.
  split; [reflexivity | split; [| split]].
  - unfold Spec.grade. reflexivity.
  - intros H. unfold Spec.grade. rewrite H. reflexivity.
  - intros bug marker Hbug Hmarker Hhas. unfold Spec.grade.
    assert (E : existsb Spec.escalates bugs = true).
    { apply existsb_exists. exists bug. split; [assumption |].
      eapply escalates_marker; eassumption. }
    rewrite E. reflexivity.
Qed.

(* ================================================================= *)
(** ** The matcher *)

Section Matcher.

Lemma reaches_refl (st : MState) : reaches 0 st st.
Proof. unfold reaches; lia. Qed.

Lemma reaches_trans (n m : nat) (a b c : MState) :
  reaches n a b -> reaches m b c -> reaches (n + m) a c.
Proof. unfold reaches; lia. Qed.

Lemma reaches_weaken (n m : nat) (a b : MState) :
  m <= n -> reaches n a b -> reaches m a b.
Proof. unfold reaches; lia. Qed.

Lemma starLoop_reaches
    (body : (MState -> option MState) -> MState -> option MState)
    (Hbody : forall k st out, body k st = Some out ->
             exists st', k st' = Some out /\ reaches 0 st st')
    (k : MState -> option MState) (n : nat) :
  forall st out, starLoop body k n st = Some out ->
  exists st', k st' = Some out /\ reaches 0 st st'.
Proof.
  induction n as [|n IH]; intros st out H; cbn [starLoop] in H.
  - exists st. split; [assumption | apply reaches_refl].
  - destruct (body _ st) as [out'|] eqn:E.
    + injection H as ->.
      destruct (Hbody _ _ _ E) as (st1 & Hk & R1).
      destruct (consumed st <? consumed st1); [| discriminate].
      destruct (IH _ _ Hk) as (st2 & Hk2 & R2).
      exists st2. split; [assumption |].
      apply (reaches_trans 0 0 st st1 st2); assumption.
    + exists st. split; [assumption | apply reaches_refl].
Qed.

Lemma run_reaches (r : regex) :
  forall k st out, run r k st = Some out ->
  exists st', k st' = Some out /\ reaches (minLength r) st st'.
Proof.
  induction r as [| p | r1 IH1 r2 IH2 | r1 IH1 r2 IH2 | r1 IH1 | i r1 IH1 |];
    intros k st out H; cbn [run minLength] in *.
  - exists st. split; [assumption | apply reaches_refl].
  - destruct (rest st) as [|c s'] eqn:E; [discriminate |].
    destruct (p c); [| discriminate].
    exists (advance st s'). split; [assumption |].
    unfold reaches, advance; cbn. rewrite E; cbn. lia.
  - destruct (IH1 _ _ _ H) as (st1 & H1 & R1).
    destruct (IH2 _ _ _ H1) as (st2 & H2 & R2).
    exists st2. split; [assumption |].
    apply (reaches_trans _ _ st st1 st2); assumption.
  - destruct (run r1 k st) as [out'|] eqn:E.
    + injection H as ->. destruct (IH1 _ _ _ E) as (st1 & H1 & R1).
      exists st1. split; [assumption |].
      eapply reaches_weaken; [| eassumption]. apply Nat.le_min_l.
    + destruct (IH2 _ _ _ H) as (st2 & H2 & R2).
      exists st2. split; [assumption |].
      eapply reaches_weaken; [| eassumption]. apply Nat.le_min_r.
  - eapply starLoop_reaches; [| eassumption].
    intros k' st' out' H'. destruct (IH1 _ _ _ H') as (st1 & H1 & R1).
    exists st1. split; [assumption |].
    eapply reaches_weaken; [| eassumption]. lia.
  - destruct (IH1 _ _ _ H) as (st1 & H1 & R1).
    eexists. split; [exact H1 |]. exact R1.
  - destruct (rest st) eqn:E; [| discriminate].
    exists st. split; [assumption | apply reaches_refl].
Qed.

(** A match is at least [minLength r] long and stays inside the text. *)
Lemma matchAt_bounds (r : regex) (s : string) (out : MState) :
  matchAt r s = Some out ->
  minLength r <= consumed out /\ consumed out <= String.length s.
Proof.
  intros H. destruct (run_reaches _ _ _ _ H) as (st' & Hk & R).
  injection Hk as <-. unfold reaches in R; cbn in R. lia.
Qed.

Lemma search_bounds (r : regex) (s : string) :
  forall i m, search r s i = Some m ->
  i <= index m
  /\ index m + matchLength m <= i + String.length s
  /\ minLength r <= matchLength m.
Proof.
  induction s as [|c s IH]; intros i m H; cbn [search] in H.
  - destruct (matchAt r "") as [out|] eqn:E; [| discriminate].
    injection H as <-. apply matchAt_bounds in E. cbn in *. lia.
  - destruct (matchAt r (String c s)) as [out|] eqn:E.
    + injection H as <-. apply matchAt_bounds in E. cbn in *. lia.
    + apply IH in H. cbn. lia.
Qed.

Lemma length_from (a : nat) (s : string) :
  String.length (Js.from a s) = String.length s - a.
Proof.
  revert s; induction a as [|a IH]; intros s; cbn.
  - lia.
  - destruct s as [|c s]; cbn; [reflexivity | apply IH].
Qed.

(** [exec] after a match: [lastIndex] is the end of the match, which is
    inside the text and at least [minLength r] further. *)
Lemma exec_some (r : regex) (s : string) (lastIndex : nat) (m : Match)
    (lastIndex' : nat) :
  exec r s lastIndex = (Some m, lastIndex') ->
  lastIndex' = index m + matchLength m
  /\ lastIndex + minLength r <= lastIndex'
  /\ lastIndex' <= String.length s.
Proof.
  unfold exec. intros H.
  destruct (String.length s <? lastIndex) eqn:L; [discriminate |].
  apply Nat.ltb_ge in L.
  destruct (search r (Js.from lastIndex s) lastIndex) as [m'|] eqn:E;
    [| discriminate].
  injection H as -> <-. apply search_bounds in E.
  rewrite length_from in E. lia.
Qed.

(** [exec] after a failure: [lastIndex] is reset. *)
Lemma exec_none (r : regex) (s : string) (lastIndex lastIndex' : nat) :
  exec r s lastIndex = (None, lastIndex') -> lastIndex' = 0.
Proof.
  unfold exec. intros H.
  destruct (String.length s <? lastIndex); [now injection H |].
  destruct (search r (Js.from lastIndex s) lastIndex); [discriminate |].
  now injection H.
Qed.

(** The loop ends: a pattern that cannot match the empty string moves
    [lastIndex] forward at every turn. *)
Lemma whileExec_terminates {A : Type} (r : regex) (s : string)
    (body : Match -> A -> A) :
  1 <= minLength r ->
  forall fuel lastIndex acc,
    String.length s - lastIndex < fuel ->
    exists acc', whileExec fuel r s lastIndex body acc = Some (acc', 0).
Proof.
  intros Hmin. induction fuel as [|fuel IH]; intros li acc Hfuel; [lia |].
  cbn [whileExec]. destruct (exec r s li) as [[m|] li'] eqn:E.
  - apply exec_some in E. apply IH. lia.
  - apply exec_none in E. subst. eexists; reflexivity.
Qed.

(** More budget does not change the result. *)
Lemma whileExec_more_fuel {A : Type} (r : regex) (s : string)
    (body : Match -> A -> A) :
  forall fuel fuel' lastIndex acc res,
    whileExec fuel r s lastIndex body acc = Some res -> fuel <= fuel' ->
    whileExec fuel' r s lastIndex body acc = Some res.
Proof.
  induction fuel as [|fuel IH]; intros fuel' li acc res H Hle; [discriminate |].
  destruct fuel' as [|fuel']; [lia |].
  cbn [whileExec] in *. destruct (exec r s li) as [[m|] li'].
  - eapply IH; [eassumption | lia].
  - assumption.
Qed.

(** What holds of the state before the loop and is kept by the body holds
    after the loop. *)
Lemma whileExec_invariant {A : Type} (P : A -> Prop) (r : regex) (s : string)
    (body : Match -> A -> A) :
  (forall m acc, P acc -> P (body m acc)) ->
  forall fuel lastIndex acc res,
    P acc -> whileExec fuel r s lastIndex body acc = Some res -> P (fst res).
Proof.
  intros Hbody. induction fuel as [|fuel IH]; intros li acc res HP H;
    [discriminate |].
  cbn [whileExec] in H. destruct (exec r s li) as [[m|] li'].
  - eapply IH; [| eassumption]. apply Hbody, HP.
  - injection H as <-. exact HP.
Qed.

(** Every loop of the analyzer gives its result within the budget, and the
    same result with any larger budget. *)
Lemma forEachMatchIn_total {A : Type} (r : regex) (s : string)
    (body : Match -> A -> A) (acc : A) :
  1 <= minLength r ->
  exists acc',
    forall fuel, budget s <= fuel ->
      forEachMatchIn fuel r s body acc = Some acc'.
Proof.
  intros Hmin.
  destruct (whileExec_terminates r s body Hmin (budget s) 0 acc) as [acc' H];
    [unfold budget; lia |].
  exists acc'. intros fuel Hfuel. unfold forEachMatchIn.
  rewrite (whileExec_more_fuel _ _ _ _ _ _ _ _ H Hfuel). reflexivity.
Qed.

Lemma forEachMatch_total {A : Type} (r : regex) (s : string)
    (body : Match -> A -> A) (acc : A) :
  1 <= minLength r -> exists acc', forEachMatch r s body acc = Some acc'.
Proof.
  intros Hmin. destruct (forEachMatchIn_total r s body acc Hmin) as [acc' H].
  exists acc'. apply H. apply Nat.le_refl.
Qed.

Lemma forEachMatch_invariant {A : Type} (P : A -> Prop) (r : regex)
    (s : string) (body : Match -> A -> A) (acc acc' : A) :
  (forall m a, P a -> P (body m a)) -> P acc ->
  forEachMatch r s body acc = Some acc' -> P acc'.
Proof.
  unfold forEachMatch, forEachMatchIn. intros Hbody HP H.
  destruct (whileExec _ r s 0 body acc) as [res|] eqn:E; [| discriminate].
  injection H as <-. eapply whileExec_invariant; eassumption.
Qed.

End Matcher.

(* ================================================================= *)
(** ** Structural extractor *)

Section Extractor.

(** None of the patterns of the analyzer matches the empty string. *)
Lemma patterns_consume :
  1 <= minLength importRegex /\ 1 <= minLength functionRegex
  /\ 1 <= minLength modifierRegex /\ 1 <= minLength stateVarRegex
  /\ 1 <= minLength eventRegex /\ 1 <= minLength abiFunctionRegex
  /\ 1 <= minLength abiEventRegex /\ 1 <= minLength abiStateVarRegex.
Proof. vm_compute. repeat split; lia. Qed.

Lemma extractContractDetailsIn_total (sourceCode : string) :
  exists details,
    forall fuel, budget sourceCode <= fuel ->
      extractContractDetailsIn fuel sourceCode = Some details.
Proof.
  destruct patterns_consume as (Hi & Hf & Hm & Hv & He & _).
  unfold extractContractDetailsIn.
  destruct (forEachMatchIn_total importRegex sourceCode
              (fun m l => l ++ [group1 m]) [] Hi) as [imports' Ei].
  destruct (forEachMatchIn_total functionRegex sourceCode
              (fun m l => l ++ [{| fn_name := group1 m;
                                   fn_visibility :=
                                     extractVisibility sourceCode (index m);
                                   fn_type :=
                                     extractFunctionType sourceCode (index m) |}])
              [] Hf) as [functions' Ef].
  destruct (forEachMatchIn_total modifierRegex sourceCode
              (fun m l => l ++ [group1 m]) [] Hm) as [modifiers' Em].
  destruct (forEachMatchIn_total stateVarRegex sourceCode
              (fun m l => l ++ [{| var_name := group1 m;
                                   var_type :=
                                     extractVariableType sourceCode (index m) |}])
              [] Hv) as [stateVariables' Ev].
  destruct (forEachMatchIn_total eventRegex sourceCode
              (fun m l => l ++ [group1 m]) [] He) as [events' Ee].
  eexists. intros fuel Hfuel.
  rewrite (Ei fuel Hfuel), (Ef fuel Hfuel), (Em fuel Hfuel), (Ev fuel Hfuel),
    (Ee fuel Hfuel).
  reflexivity.
Qed.

Lemma extractContractDetails_total (sourceCode : string) :
  exists details, extractContractDetails sourceCode = Some details.
Proof.
  destruct (extractContractDetailsIn_total sourceCode) as [details H].
  exists details. apply H, Nat.le_refl.
Qed.

End Extractor.

(** C7: the structural extractor returns an inventory for every text, the
    same inventory at every run (whatever budget at or above the text's
    length plus one the loops are given), and the inventory of the empty
    text has no function, modifier, state variable, event or import. *)
Theorem extractContractDetails_total_idempotent :
  forall sourceCode : string,
    (exists details,
       extractContractDetails sourceCode = Some details
       /\ forall fuel, budget sourceCode <= fuel ->
            extractContractDetailsIn fuel sourceCode = Some details)
    /\ extractContractDetails "" = Some emptyDetails.
Proof.
  intros sourceCode. split; [| reflexivity].
  destruct (extractContractDetailsIn_total sourceCode) as [details H].
  exists details. split; [apply H, Nat.le_refl | exact H].
Qed.

(* ================================================================= *)
(** ** The pipeline *)

Section Pipeline.

(** Opens the steps of [analyzeContract] down to the tests on the
    environment. *)
Ltac open_pipeline :=
  unfold analyzeContract, writeFile, runSlither, runSolhint, generateABI,
    aiSummaryStep, remove, bindM, lift, emit, ret, ofOption;
  cbv zeta.

Lemma fileExists_withoutFile (path : string) (fs : list (string * string))
    (l : list Effect) :
  fileExists path {| files := withoutFile path fs; log := l |} = false.
Proof.
  unfold fileExists, withoutFile; cbn [files].
  induction fs as [|[p c] fs IH]; cbn; [reflexivity |].
  destruct (String.eqb p path) eqn:E; cbn; [exact IH |].
  rewrite E. exact IH.
Qed.

(** What a run that returns a record went through. *)
Lemma analyzeContract_Ok (env : Env) (sourceCode : string) (useOpenAI : bool)
    (w w' : World) (a : Analysis) :
  analyzeContract env sourceCode useOpenAI w = (Ok a, w') ->
  bugs a = finalSlitherResults (slitherOutput env) sourceCode
  /\ linting a = finalSolhintResults (solhintOutput env) sourceCode
  /\ riskScore a = computeRiskScore (bugs a) (linting a)
  /\ auditGrade a = computeAuditGrade (riskScore a) (bugs a) (linting a)
  /\ extractContractDetails sourceCode = Some (contractDetails a)
  /\ match solcAbi env with
     | Some abi' => abi a = abi'
     | None => generateManualABI sourceCode = Some (abi a)
     end
  /\ unsafePatterns a = detectUnsafePatterns sourceCode
  /\ generateDeploymentWarnings (bugs a) (linting a)
     = Ok (deploymentWarnings a)
  /\ fileExists contractFile w' = false.
Proof.
  open_pipeline.
  set (fb := finalSlitherResults _ _). set (fl := finalSolhintResults _ _).
  intros H.
  destruct (writeFileError env); [discriminate |].
  destruct (extractContractDetails sourceCode) as [details|] eqn:Ed;
    [| discriminate].
  destruct (useOpenAI && openaiClient env);
    destruct (solcAbi env) as [abi'|];
    try (destruct (generateManualABI sourceCode) as [abi'|] eqn:Ea;
           [| discriminate]);
    destruct (generateDeploymentWarnings fb fl) as [warnings| |] eqn:Eg;
    try discriminate;
    (destruct (removeError env); [discriminate |]);
    injection H as <- <-;
    repeat (split; [first [reflexivity | assumption] |]);
    apply fileExists_withoutFile.
Qed.

(** A run returns a record as soon as the file system works and every
    final security diagnostic has a name. *)
Lemma analyzeContract_returns (env : Env) (sourceCode : string)
    (useOpenAI : bool) (w : World) (warnings : list string) :
  writeFileError env = None -> removeError env = None ->
  generateDeploymentWarnings
    (finalSlitherResults (slitherOutput env) sourceCode)
    (finalSolhintResults (solhintOutput env) sourceCode) = Ok warnings ->
  exists a w', analyzeContract env sourceCode useOpenAI w = (Ok a, w').
Proof.
  intros Hw Hr Hg.
  destruct (extractContractDetails_total sourceCode) as [details Hd].
  destruct patterns_consume as (_ & _ & _ & _ & _ & Hf & He & Hv).
  assert (Habi : exists abi', generateManualABI sourceCode = Some abi').
  { unfold generateManualABI.
    destruct (forEachMatch_total abiFunctionRegex sourceCode
                (abiFunctionStep sourceCode) [] Hf) as [abi1 ->].
    destruct (forEachMatch_total abiEventRegex sourceCode abiEventStep abi1 He)
      as [abi2 ->].
    apply forEachMatch_total, Hv. }
  destruct Habi as [abi' Habi].
  open_pipeline. rewrite Hw, Hd, Hg, Hr, Habi.
  destruct (useOpenAI && openaiClient env); destruct (solcAbi env);
    cbn; eexists; eexists; reflexivity.
Qed.

(** The first call of every run writes the temporary file. *)
Lemma analyzeContract_log (env : Env) (sourceCode : string) (useOpenAI : bool)
    (w : World) :
  exists l,
    log (snd (analyzeContract env sourceCode useOpenAI w))
    = log w ++ WriteFile contractFile sourceCode :: l.
Proof.
  open_pipeline.
  set (fb := finalSlitherResults _ _). set (fl := finalSolhintResults _ _).
  destruct (writeFileError env);
    [cbn; eexists; reflexivity |].
  destruct (extractContractDetails sourceCode) as [details|];
    [| cbn; rewrite <- !app_assoc; cbn; eexists; reflexivity].
  destruct (useOpenAI && openaiClient env);
    destruct (solcAbi env) as [abi'|];
    try destruct (generateManualABI sourceCode) as [abi'|];
    try destruct (generateDeploymentWarnings fb fl) as [warnings| |];
    try destruct (removeError env);
    cbn; rewrite <- !app_assoc; cbn; eexists; reflexivity.
Qed.

(** A throw of a run whose file system works comes from the builder of
    the deployment warnings, after the temporary file was written and before
    it is removed: the file stays. *)
Lemma analyzeContract_Throw (env : Env) (sourceCode : string) (useOpenAI : bool)
    (w w' : World) (e : string) :
  writeFileError env = None -> removeError env = None ->
  analyzeContract env sourceCode useOpenAI w = (Throw e, w') ->
  generateDeploymentWarnings
    (finalSlitherResults (slitherOutput env) sourceCode)
    (finalSolhintResults (solhintOutput env) sourceCode) = Throw e
  /\ fileExists contractFile w' = true.
Proof.
  intros Hw Hr. open_pipeline. rewrite Hw, Hr.
  set (fb := finalSlitherResults _ _). set (fl := finalSolhintResults _ _).
  intros H.
  destruct (extractContractDetails sourceCode) as [details|];
    [| discriminate].
  destruct (useOpenAI && openaiClient env);
    destruct (solcAbi env) as [abi'|];
    try (destruct (generateManualABI sourceCode) as [abi'|];
           [| discriminate]);
    destruct (generateDeploymentWarnings fb fl) as [warnings| e' |];
    try discriminate;
    injection H as <- <-;
    (split; [reflexivity |]);
    unfold fileExists; cbn [files existsb fst];
    rewrite String.eqb_refl; reflexivity.
Qed.

End Pipeline.

(* ================================================================= *)
(** ** Heuristic detectors and deployment warnings *)

Section Warnings.

Lemma in_pushIf {A : Type} (cond : bool) (x y : A) (l : list A) :
  In y (pushIf cond x l) -> y = x \/ In y l.
Proof.
  unfold pushIf. destruct cond; [| now right].
  intros H. apply in_app_or in H as [H | [H | []]]; auto.
Qed.

Lemma in_pushIf_true {A : Type} (x : A) (l : list A) : In x (pushIf true x l).
Proof. unfold pushIf. apply in_or_app. right. now left. Qed.

Lemma in_pushIf_keep {A : Type} (cond : bool) (x y : A) (l : list A) :
  In y l -> In y (pushIf cond x l).
Proof.
  unfold pushIf. destruct cond; [| trivial].
  intros H. apply in_or_app. now left.
Qed.

(** Every entry of the heuristic security list is one of the eight fixed
    entries. *)
Lemma detectManualVulnerabilities_entries (sourceCode : string) (bug : Bug) :
  In bug (detectManualVulnerabilities sourceCode) -> In bug heuristicBugs.
Proof.
  unfold detectManualVulnerabilities. cbv zeta. intros H.
  repeat (apply in_pushIf in H; destruct H as [-> | H]);
    [unfold heuristicBugs; cbn [In]; tauto .. | destruct H].
Qed.

Lemma heuristicBugs_named_not_critical (bug : Bug) :
  In bug heuristicBugs ->
  exists name, bug_name bug = Some name /\ isCriticalName name = false.
Proof.
  unfold heuristicBugs. cbn [In].
  intros [<- | [<- | [<- | [<- | [<- | [<- | [<- | [<- | []]]]]]]]];
    eexists; (split; [reflexivity | vm_compute; reflexivity]).
Qed.

(** The second filter of [generateDeploymentWarnings] returns exactly the
    entries with a critical name when every entry has a name, and throws
    when one has none. *)
Lemma filterCritical_cases (slitherResults : list Bug) :
  match filterCritical slitherResults with
  | Ok kept =>
      forall bug, In bug kept <->
        In bug slitherResults
        /\ exists name, bug_name bug = Some name /\ isCriticalName name = true
  | Throw _ => exists bug, In bug slitherResults /\ bug_name bug = None
  | OutOfFuel => False
  end.
Proof.
  induction slitherResults as [|b l IH]; cbn [filterCritical].
  - intros bug. cbn. tauto.
  - destruct (bug_name b) as [name|] eqn:En.
    + destruct (filterCritical l) as [kept| |]; cbn [bind].
      * intros bug. destruct (isCriticalName name) eqn:Ec; cbn [In];
          rewrite IH; split.
        -- intros [<- | [Hin Hn]]; [| tauto].
           split; [now left | exists name; split; assumption].
        -- intros [[<- | Hin] Hn]; [now left | right; tauto].
        -- intros [Hin Hn]. tauto.
        -- intros [[<- | Hin] (name' & Hn & Hc)]; [| eauto].
           rewrite En in Hn. injection Hn as <-. congruence.
      * destruct IH as (bug & Hin & Hn). exists bug. split; [now right | exact Hn].
      * exact IH.
    + exists b. split; [now left | exact En].
Qed.

Lemma isHighSeverity_iff (bug : Bug) :
  isHighSeverity bug = true <-> bug_severity bug = Some "High".
Proof.
  unfold isHighSeverity. destruct (bug_severity bug) as [sev|].
  - rewrite String.eqb_eq. split; [now intros -> | now intros [= ->]].
  - split; discriminate.
Qed.

Lemma isCriticalName_iff (name : string) :
  isCriticalName name = true <->
  Js.includes name "reentrancy" = true \/ Js.includes name "overflow" = true
  \/ Js.includes name "access-control" = true.
Proof. unfold isCriticalName. rewrite !orb_true_iff. tauto. Qed.

(** The two warnings differ in their first byte. *)
Lemma warnings_differ (n : nat) : highSeverityWarning n <> criticalWarning.
Proof. unfold highSeverityWarning, criticalWarning. cbn. discriminate. Qed.

Lemma nonempty_length {A : Type} (l : list A) :
  (0 <? length l) = true <-> exists x, In x l.
Proof.
  destruct l as [|x l]; cbn.
  - split; [discriminate | intros [x []]].
  - split; [intros _; exists x; now left | reflexivity].
Qed.

(** The warnings, read off the two filters. *)
Lemma generateDeploymentWarnings_cases (slitherResults : list Bug)
    (solhintResults : list Issue) :
  match generateDeploymentWarnings slitherResults solhintResults with
  | Ok warnings =>
      ((exists n, In (highSeverityWarning n) warnings) <->
       exists bug, In bug slitherResults /\ bug_severity bug = Some "High")
      /\ (In criticalWarning warnings <->
          exists bug name,
            In bug slitherResults /\ bug_name bug = Some name
            /\ isCriticalName name = true)
  | Throw _ => exists bug, In bug slitherResults /\ bug_name bug = None
  | OutOfFuel => False
  end.
Proof.
  unfold generateDeploymentWarnings. cbv zeta.
  pose proof (filterCritical_cases slitherResults) as Hc.
  destruct (filterCritical slitherResults) as [kept| |]; cbn [bind];
    [| exact Hc | exact Hc].
  set (high := filter isHighSeverity slitherResults).
  assert (Hhigh : (0 <? length high) = true <->
                  exists bug, In bug slitherResults
                              /\ bug_severity bug = Some "High").
  { rewrite nonempty_length. unfold high. split.
    - intros [bug Hin]. apply filter_In in Hin as [Hin Hs].
      exists bug. split; [exact Hin | now apply isHighSeverity_iff].
    - intros (bug & Hin & Hs). exists bug. apply filter_In.
      split; [exact Hin | now apply isHighSeverity_iff]. }
  assert (Hcrit : (0 <? length kept) = true <->
                  exists bug name, In bug slitherResults
                                   /\ bug_name bug = Some name
                                   /\ isCriticalName name = true).
  { rewrite nonempty_length. split.
    - intros [bug Hin]. apply Hc in Hin as (Hin & name & Hn & Hcn).
      exists bug, name. tauto.
    - intros (bug & name & Hin & Hn & Hcn). exists bug. apply Hc.
      split; [exact Hin | exists name; tauto]. }
  rewrite <- Hhigh, <- Hcrit. clear Hhigh Hcrit Hc.
  destruct (0 <? length high), (0 <? length kept); unfold pushIf; cbn [app In];
    split; split;
    try (intros [n H]); try intros H;
    repeat match goal with
           | H : _ \/ _ |- _ => destruct H as [H | H]
           | H : False |- _ => destruct H
           | H : highSeverityWarning _ = criticalWarning |- _ =>
               destruct (warnings_differ _ H)
           | H : criticalWarning = highSeverityWarning _ |- _ =>
               symmetry in H; destruct (warnings_differ _ H)
           end;
    try reflexivity; try discriminate; try tauto;
    try (exists (length high); tauto).
Qed.

(** The heuristic security list never throws in the warnings builder and
    never gives the critical warning. *)
Lemma heuristic_warnings (sourceCode : string) (solhintResults : list Issue) :
  exists warnings,
    generateDeploymentWarnings (detectManualVulnerabilities sourceCode)
      solhintResults = Ok warnings
    /\ (In criticalWarning warnings -> False).
Proof.
  pose proof (generateDeploymentWarnings_cases
                (detectManualVulnerabilities sourceCode) solhintResults) as H.
  destruct (generateDeploymentWarnings _ _) as [warnings| |].
  - exists warnings. split; [reflexivity |].
    intros Hin. apply H in Hin as (bug & name & Hin & Hn & Hc).
    apply detectManualVulnerabilities_entries in Hin.
    apply heuristicBugs_named_not_critical in Hin as (name' & Hn' & Hc').
    congruence.
  - destruct H as (bug & Hin & Hn).
    apply detectManualVulnerabilities_entries in Hin.
    apply heuristicBugs_named_not_critical in Hin as (name' & Hn' & _).
    congruence.
  - destruct H.
Qed.

(** The builder throws exactly when an entry has no name. *)
Lemma generateDeploymentWarnings_Throw (slitherResults : list Bug)
    (solhintResults : list Issue) :
  (exists bug, In bug slitherResults /\ bug_name bug = None) <->
  generateDeploymentWarnings slitherResults solhintResults
  = Throw typeErrorIncludes.
Proof.
  split.
  - intros Hex. unfold generateDeploymentWarnings. cbv zeta.
    assert (Hf : filterCritical slitherResults = Throw typeErrorIncludes).
    { induction slitherResults as [|b l IH]; cbn [filterCritical].
      - destruct Hex as (bug & [] & _).
      - destruct (bug_name b) as [name|] eqn:En; [| reflexivity].
        rewrite IH; [reflexivity |].
        destruct Hex as (bug & [<- | Hin] & Hn); [congruence |].
        exists bug. split; assumption. }
    rewrite Hf. reflexivity.
  - intros Hthrow.
    pose proof (generateDeploymentWarnings_cases slitherResults solhintResults)
      as H.
    rewrite Hthrow in H. exact H.
Qed.

End Warnings.

(** C10, the code on a diagnostic of severity High that has no name: the
    second filter reads [bug.name.includes] without the guard
    [(bug.name || '')] of [computeAuditGrade], so the builder throws and no
    warning is given although a severity is the string High; the scorer and
    the grader return on the same list.  The builder throws exactly when a
    diagnostic has no name.  Whenever it returns, the high-severity warning
    is given exactly when some severity is the string High and the critical
    warning exactly when some name contains reentrancy, overflow or
    access-control in lower case, and it returns whenever every diagnostic
    has a name.  The names of the heuristic backend contain none of the
    three, so an analysis on the heuristic security list never carries the
    critical warning. *)
Theorem generateDeploymentWarnings_throws_on_nameless_high :
  (exists bug,
     slitherOutput namelessFinding = [bug]
     /\ bug_name bug = None /\ bug_severity bug = Some "High")
  /\ generateDeploymentWarnings (slitherOutput namelessFinding)
       (solhintOutput namelessFinding)
     = Throw typeErrorIncludes
  /\ computeRiskScore (slitherOutput namelessFinding)
       (solhintOutput namelessFinding) = 25%Z
  /\ computeAuditGrade 25 (slitherOutput namelessFinding)
       (solhintOutput namelessFinding) = GradeA
  /\ (forall slitherResults solhintResults,
        (exists bug, In bug slitherResults /\ bug_name bug = None) <->
        generateDeploymentWarnings slitherResults solhintResults
        = Throw typeErrorIncludes)
  /\ (forall slitherResults solhintResults,
        (forall bug, In bug slitherResults -> bug_name bug <> None) ->
        exists warnings,
          generateDeploymentWarnings slitherResults solhintResults
          = Ok warnings)
  /\ (forall slitherResults solhintResults warnings,
        generateDeploymentWarnings slitherResults solhintResults
        = Ok warnings ->
        ((exists n, In (highSeverityWarning n) warnings) <->
         exists bug, In bug slitherResults /\ bug_severity bug = Some "High")
        /\ (In criticalWarning warnings <->
            exists bug name,
              In bug slitherResults /\ bug_name bug = Some name
              /\ (Js.includes name "reentrancy" = true
                  \/ Js.includes name "overflow" = true
                  \/ Js.includes name "access-control" = true)))
  /\ (forall sourceCode solhintResults,
        exists warnings,
          generateDeploymentWarnings
            (detectManualVulnerabilities sourceCode) solhintResults
          = Ok warnings
          /\ (In criticalWarning warnings -> False))
  /\ (forall env sourceCode useOpenAI w a w',
        slitherOutput env = [] ->
        analyzeContract env sourceCode useOpenAI w = (Ok a, w') ->
        In criticalWarning (deploymentWarnings a) -> False).
Proof.
  split; [| split; [| split; [| split; [| split; [| split; [| split;
    [| split]]]]]]].
  - eexists. split; [reflexivity |]. split; reflexivity.
  - reflexivity.
  - reflexivity.
  - reflexivity.
  - intros slitherResults solhintResults.
    apply generateDeploymentWarnings_Throw.
  - intros slitherResults solhintResults Hnamed.
    pose proof (generateDeploymentWarnings_cases slitherResults solhintResults)
      as H.
    destruct (generateDeploymentWarnings slitherResults solhintResults)
      as [warnings | e |].
    + exists warnings. reflexivity.
    + destruct H as (bug & Hin & Hn). now elim (Hnamed bug Hin).
    + destruct H.
  - intros slitherResults solhintResults warnings Hrun.
    pose proof (generateDeploymentWarnings_cases slitherResults solhintResults)
      as H.
    rewrite Hrun in H. destruct H as [Hhigh Hcrit]. split; [exact Hhigh |].
    rewrite Hcrit. split.
    + intros (bug & name & Hin & Hn & Hc). exists bug, name.
      apply isCriticalName_iff in Hc. tauto.
    + intros (bug & name & Hin & Hn & Hc). exists bug, name.
      apply isCriticalName_iff in Hc. tauto.
  - intros sourceCode solhintResults. apply heuristic_warnings.
  - intros env sourceCode useOpenAI w a w' Hs Hrun Hin.
    apply analyzeContract_Ok in Hrun
      as (Hb & _ & _ & _ & _ & _ & _ & Hg & _).
    rewrite Hb in Hg. unfold finalSlitherResults in Hg. rewrite Hs in Hg.
    cbn [length Nat.eqb] in Hg.
    destruct (heuristic_warnings sourceCode (linting a)) as (ws & Hw & Hno).
    rewrite Hw in Hg. injection Hg as E. apply Hno. rewrite E. exact Hin.
Qed.



(** C9: a missing or empty source text is answered with the validation
    error 400 before anything else happens: the world, its files and its
    calls, is unchanged.  A non-empty text is never answered with that
    error, and the analysis starts by writing the temporary file. *)
Theorem postAnalyze_validates_source :
  forall (env : Env) (useOpenAI : option bool) (w : World),
    (forall sourceCode,
       sourceCode = None \/ sourceCode = Some "" ->
       postAnalyze env sourceCode useOpenAI w
       = (Ok {| status := 400;
                body := ErrorBody "Source code is required" None |}, w))
    /\ (forall text,
          text <> "" ->
          (exists l,
             log (snd (postAnalyze env (Some text) useOpenAI w))
             = log w ++ WriteFile contractFile text :: l)
          /\ (forall response,
                fst (postAnalyze env (Some text) useOpenAI w) = Ok response ->
                status response = 200 \/ status response = 500)).
Proof.
  intros env useOpenAI w. split.
  - intros sourceCode [-> | ->]; reflexivity.
  - intros text Htext. unfold postAnalyze. cbv zeta.
    assert (Hf : Js.falsy (Some text) = false).
    { cbn. apply String.eqb_neq. exact Htext. }
    rewrite Hf. cbn [Js.orEmpty].
    destruct (analyzeContract_log env text
                match useOpenAI with Some b => b | None => false end w)
      as [l Hl].
    destruct (analyzeContract env text _ w) as [[a | e |] w1]; cbn [fst snd] in *.
    + split; [exists l; exact Hl |]. intros r [= <-]. now left.
    + split; [exists l; exact Hl |]. intros r [= <-]. now right.
    + split; [exists l; exact Hl |]. discriminate.
Qed.

Section KillSwitch.

(** None of the eight heuristic entries carries a marker of the grader. *)
Lemma heuristicBugs_not_escalated (bug : Bug) :
  In bug heuristicBugs -> Spec.escalates bug = false.
Proof.
  unfold heuristicBugs. cbn [In].
  intros [<- | [<- | [<- | [<- | [<- | [<- | [<- | [<- | []]]]]]]]];
    vm_compute; reflexivity.
Qed.

Lemma detectManualVulnerabilities_not_escalated (sourceCode : string) :
  existsb Spec.escalates (detectManualVulnerabilities sourceCode) = false.
Proof.
  destruct (existsb _ _) eqn:E; [| reflexivity].
  apply existsb_exists in E as (bug & Hin & He).
  apply detectManualVulnerabilities_entries, heuristicBugs_not_escalated in Hin.
  congruence.
Qed.

Lemma detectUnsafePatterns_killSwitch (sourceCode : string) :
  Js.includes sourceCode "selfdestruct" = true ->
  In killSwitchPattern (detectUnsafePatterns sourceCode).
Proof.
  intros H. apply includes_toLowerCase in H.
  change (Js.toLowerCase "selfdestruct") with "selfdestruct" in H.
  unfold detectUnsafePatterns. cbv zeta. rewrite H. cbn [orb].
  do 5 apply in_pushIf_keep. apply in_pushIf_true.
Qed.

End KillSwitch.

(** C4, the code at a text with a kill switch: the unsafe constructs hold
    the kill-switch entry for every text that contains selfdestruct, but the
    heuristic entry is named Self-Destruct Function, which holds none of the
    markers the grader looks for; on the heuristic security list the grade
    follows the score alone, and for the wallet below, without external
    tools, the grade of the record is A at score 26. *)
Theorem selfdestruct_unsafe_but_not_escalated :
  (forall sourceCode,
     Js.includes sourceCode "selfdestruct" = true ->
     In killSwitchPattern (detectUnsafePatterns sourceCode))
  /\ (forall sourceCode riskScore solhintResults,
        computeAuditGrade riskScore (detectManualVulnerabilities sourceCode)
          solhintResults
        = if (70 <? riskScore)%Z then GradeC
          else if (40 <? riskScore)%Z then GradeB else GradeA)
  /\ Js.includes killSwitchSource "selfdestruct(owner)" = true
  /\ match analyzeContract noTools killSwitchSource false emptyWorld with
     | (Ok a, _) =>
         bugs a = [selfDestructFunction]
         /\ unsafePatterns a = [killSwitchPattern]
         /\ riskScore a = 26%Z
         /\ auditGrade a = GradeA
     | _ => False
     end.
Proof.
  split; [exact detectUnsafePatterns_killSwitch |].
  split.
  { intros sourceCode riskScore solhintResults.
    rewrite computeAuditGrade_grade. unfold Spec.grade.
    rewrite detectManualVulnerabilities_not_escalated, orb_false_r.
    reflexivity. }
  split; [vm_compute; reflexivity |].
  vm_compute. repeat split.
Qed.

(** C5, the code when a call after the write throws: the builder of the
    deployment warnings throws on a finding without a name, the [catch]
    rethrows, and the temporary file is still there.  It is removed when
    the analysis returns a record, and it stays at every throw of a run
    whose file system works. *)
Theorem tempFile_left_when_analysis_throws :
  (match analyzeContract namelessFinding bankSource false emptyWorld with
   | (Throw e, w') =>
       e = typeErrorIncludes /\ fileExists contractFile w' = true
   | _ => False
   end)
  /\ (forall env sourceCode useOpenAI w a w',
        analyzeContract env sourceCode useOpenAI w = (Ok a, w') ->
        fileExists contractFile w' = false)
  /\ (forall env sourceCode useOpenAI w e w',
        writeFileError env = None -> removeError env = None ->
        analyzeContract env sourceCode useOpenAI w = (Throw e, w') ->
        fileExists contractFile w' = true).
Proof.
  split; [| split].
  - vm_compute. split; reflexivity.
  - intros env sourceCode useOpenAI w a w' Hrun.
    apply analyzeContract_Ok in Hrun. tauto.
  - intros env sourceCode useOpenAI w e w' Hw Hr Hrun.
    eapply analyzeContract_Throw; eassumption.
Qed.

(* ================================================================= *)
(** ** The withdraw scenario *)

Section Scenario.

Lemma from_from (a b : nat) (s : string) :
  Js.from b (Js.from a s) = Js.from (a + b) s.
Proof.
  revert s; induction a as [|a IH]; intros s; cbn [Nat.add Js.from].
  - reflexivity.
  - destruct s as [|c s]; [now destruct b | apply IH].
Qed.

Lemma from_append (pre tail : string) :
  Js.from (String.length pre) (String.append pre tail) = tail.
Proof. induction pre as [|c pre IH]; cbn; [reflexivity | exact IH]. Qed.

(** What [search] returns is a match at its [index]. *)
Lemma search_found (r : regex) (s : string) :
  forall i m, search r s i = Some m ->
  exists out,
    i <= index m
    /\ matchAt r (Js.from (index m - i) s) = Some out
    /\ matchLength m = consumed out /\ groups m = caps out.
Proof.
  induction s as [|c s IH]; intros i m H; cbn [search] in H.
  - destruct (matchAt r "") as [out|] eqn:E; [| discriminate].
    injection H as <-. exists out. cbn [index matchLength groups].
    rewrite Nat.sub_diag. cbn [Js.from]. auto.
  - destruct (matchAt r (String c s)) as [out|] eqn:E.
    + injection H as <-. exists out. cbn [index matchLength groups].
      rewrite Nat.sub_diag. cbn [Js.from]. auto.
    + apply IH in H as (out & Hle & Hm & Hl & Hg). exists out.
      replace (index m - i) with (S (index m - S i)) by lia.
      cbn [Js.from]. repeat split; [lia | assumption ..].
Qed.

(** [search] does not go past a position where the pattern matches. *)
Lemma search_exists (r : regex) (k : nat) :
  forall s i out, matchAt r (Js.from k s) = Some out ->
  exists m, search r s i = Some m /\ index m <= i + k.
Proof.
  induction k as [|k IH]; intros s i out H.
  - cbn [Js.from] in H. destruct s; cbn [search]; rewrite H;
      eexists; (split; [reflexivity | cbn; lia]).
  - destruct s as [|c s]; cbn [Js.from] in H; cbn [search].
    + rewrite H. eexists; (split; [reflexivity | cbn; lia]).
    + destruct (matchAt r (String c s)) as [out'|].
      * eexists; (split; [reflexivity | cbn; lia]).
      * destruct (IH s (S i) out H) as (m & Hm & Hle).
        exists m. split; [exact Hm | lia].
Qed.

Lemma matchesEndWithin_spec (r : regex) (n : nat) :
  forall s, matchesEndWithin r s n = true ->
  forall i out, i < n -> matchAt r (Js.from i s) = Some out ->
                i + consumed out <= n.
Proof.
  induction n as [|n IH]; intros s H i out Hi Hm; [lia |].
  cbn [matchesEndWithin] in H. apply andb_true_iff in H as [H0 Hrest].
  destruct i as [|i].
  - cbn [Js.from] in Hm. rewrite Hm in H0. apply Nat.leb_le in H0. lia.
  - destruct s as [|c s]; cbn [Js.from] in Hm.
    + apply matchAt_bounds in Hm. cbn in Hm. lia.
    + assert (i + consumed out <= n) by (eapply IH; [eassumption | lia | eassumption]).
      lia.
Qed.

Lemma matchAt_withdraw (post : string) :
  matchAt abiFunctionRegex (String.append withdrawSnippet post)
  = Some {| consumed := 29;
            rest := String.append "{ token.call(...) }" post;
            caps := [(2, ""); (1, "withdraw")] |}.
Proof. vm_compute. reflexivity. Qed.

Lemma substring_append_left (pre tail : string) :
  forall a n, a + n <= String.length pre ->
    String.substring a n (String.append pre tail) = String.substring a n pre.
Proof.
  induction pre as [|c pre IH]; intros a n H; cbn [String.length] in H.
  - assert (a = 0) by lia. assert (n = 0) by lia. subst.
    cbn. now destruct tail.
  - destruct a as [|a]; cbn [String.append String.substring].
    + destruct n as [|n]; [reflexivity |]. f_equal. apply IH. lia.
    + apply IH. lia.
Qed.

Lemma hasFunctionEntry_app (name : string) (l1 l2 : list AbiEntry) :
  hasFunctionEntry name (l1 ++ l2)
  = hasFunctionEntry name l1 || hasFunctionEntry name l2.
Proof. unfold hasFunctionEntry. apply existsb_app. Qed.

(** The three loops of [generateManualABI] only add entries. *)
Lemma abi_steps_keep (name sourceCode : string) (m : Match)
    (abi : list AbiEntry) :
  hasFunctionEntry name abi = true ->
  hasFunctionEntry name (abiFunctionStep sourceCode m abi) = true
  /\ hasFunctionEntry name (abiEventStep m abi) = true
  /\ hasFunctionEntry name (abiStateVarStep sourceCode m abi) = true.
Proof.
  intros H. unfold abiFunctionStep, abiEventStep, abiStateVarStep. cbv zeta.
  repeat split.
  - destruct (_ || _); [exact H |]. now rewrite hasFunctionEntry_app, H.
  - now rewrite hasFunctionEntry_app, H.
  - now rewrite hasFunctionEntry_app, H.
Qed.

(** The step of the function loop at the match of the declaration adds
    the entry when the window before it does not hold the word internal. *)
Lemma abiFunctionStep_withdraw (pre post : string) (abi : list AbiEntry) :
  Js.includes
    (Js.substring pre (String.length pre - 50) (String.length pre))
    "internal" = false ->
  hasFunctionEntry "withdraw"
    (abiFunctionStep (String.append pre (String.append withdrawSnippet post))
       (withdrawMatch (String.length pre)) abi) = true.
Proof.
  intros Hint.
  unfold abiFunctionStep, withdrawMatch, group1, group. cbv zeta.
  cbn [index groups lookup Nat.eqb Js.orEmpty].
  unfold Js.substring. rewrite substring_append_left by lia.
  unfold Js.substring in Hint. rewrite Hint.
  cbn [String.eqb Ascii.eqb Bool.eqb orb].
  rewrite hasFunctionEntry_app. apply orb_true_iff. right.
  vm_compute. reflexivity.
Qed.

(** The function loop reaches the declaration when the matches that start
    before it end before it. *)
Lemma functionLoop_withdraw (pre post : string) :
  let sourceCode := String.append pre (String.append withdrawSnippet post) in
  matchesEndWithin abiFunctionRegex sourceCode (String.length pre) = true ->
  Js.includes
    (Js.substring pre (String.length pre - 50) (String.length pre))
    "internal" = false ->
  forall fuel lastIndex abi res,
    lastIndex <= String.length pre ->
    whileExec fuel abiFunctionRegex sourceCode lastIndex
      (abiFunctionStep sourceCode) abi = Some res ->
    hasFunctionEntry "withdraw" (fst res) = true.
Proof.
  intros sourceCode Hearlier Hint.
  pose proof (matchesEndWithin_spec _ _ _ Hearlier) as Hends.
  assert (Hlen : String.length pre <= String.length sourceCode).
  { unfold sourceCode. rewrite length_append. lia. }
  induction fuel as [|fuel IH]; intros li abi res Hli H; [discriminate |].
  cbn [whileExec] in H.
  assert (Hw : matchAt abiFunctionRegex
                 (Js.from (String.length pre - li) (Js.from li sourceCode))
               = Some {| consumed := 29;
                         rest := String.append "{ token.call(...) }" post;
                         caps := [(2, ""); (1, "withdraw")] |}).
  { rewrite from_from. replace (li + (String.length pre - li))
      with (String.length pre) by lia.
    unfold sourceCode. rewrite from_append. apply matchAt_withdraw. }
  destruct (search_exists _ _ _ li _ Hw) as (m & Hsearch & Hindex).
  unfold exec in H.
  assert (Hin : (String.length sourceCode <? li) = false)
    by (apply Nat.ltb_ge; lia).
  rewrite Hin, Hsearch in H.
  destruct (search_found _ _ _ _ Hsearch) as (out & Hle & Hm & Hl & Hg).
  rewrite from_from in Hm.
  replace (li + (index m - li)) with (index m) in Hm by lia.
  destruct (Nat.eq_dec (index m) (String.length pre)) as [Heq | Hne].
  - rewrite Heq in Hm. unfold sourceCode in Hm.
    rewrite from_append, matchAt_withdraw in Hm. injection Hm as <-.
    assert (Em : m = withdrawMatch (String.length pre)).
    { destruct m as [mi ml mg]. cbn in *. unfold withdrawMatch. congruence. }
    rewrite Em in H.
    eapply (whileExec_invariant
              (fun l => hasFunctionEntry "withdraw" l = true));
      [| | exact H].
    + intros m' l Hl'. now apply abi_steps_keep.
    + apply abiFunctionStep_withdraw, Hint.
  - assert (index m + consumed out <= String.length pre)
      by (apply Hends; [lia | exact Hm]).
    eapply IH; [| exact H]. lia.
Qed.

(** The heuristic ABI of a text in which the function headers that start
    before the declaration end before it, and the declaration is not behind
    the word internal. *)
Lemma generateManualABI_withdraw (pre post : string) (abi : list AbiEntry) :
  matchesEndWithin abiFunctionRegex
    (String.append pre (String.append withdrawSnippet post))
    (String.length pre) = true ->
  Js.includes
    (Js.substring pre (String.length pre - 50) (String.length pre))
    "internal" = false ->
  generateManualABI (String.append pre (String.append withdrawSnippet post))
  = Some abi ->
  hasFunctionEntry "withdraw" abi = true.
Proof.
  intros Hearlier Hint. set (sourceCode := String.append pre _) in *.
  unfold generateManualABI. cbv zeta.
  destruct (forEachMatch abiFunctionRegex sourceCode
              (abiFunctionStep sourceCode) []) as [abi1|] eqn:E1;
    [| discriminate].
  destruct (forEachMatch abiEventRegex sourceCode abiEventStep abi1)
    as [abi2|] eqn:E2; [| discriminate].
  intros E3.
  assert (H1 : hasFunctionEntry "withdraw" abi1 = true).
  { unfold forEachMatch, forEachMatchIn in E1.
    destruct (whileExec _ _ _ _ _ _) as [res|] eqn:Eloop; [| discriminate].
    injection E1 as <-.
    eapply (functionLoop_withdraw pre post Hearlier Hint);
      [| exact Eloop]. lia. }
  assert (H2 : hasFunctionEntry "withdraw" abi2 = true).
  { eapply (forEachMatch_invariant
              (fun l => hasFunctionEntry "withdraw" l = true));
      [| exact H1 | exact E2].
    intros m l Hl. now apply abi_steps_keep. }
  eapply (forEachMatch_invariant
            (fun l => hasFunctionEntry "withdraw" l = true));
    [| exact H2 | exact E3].
  intros m l Hl. now apply (abi_steps_keep "withdraw" sourceCode).
Qed.

(** The reentrancy rule fires on every text that contains the declaration
    and no guard marker. *)
Lemma detectManualVulnerabilities_reentrancy (sourceCode : string) :
  Js.includes sourceCode withdrawSnippet = true ->
  Js.includes (Js.toLowerCase sourceCode) "reentrancyguard" = false ->
  In potentialReentrancy (detectManualVulnerabilities sourceCode).
Proof.
  intros Hsnip Hguard. apply includes_toLowerCase in Hsnip.
  assert (Hcall : Js.includes (Js.toLowerCase sourceCode) "call" = true).
  { eapply includes_trans; [exact Hsnip | vm_compute; reflexivity]. }
  assert (Hext : Js.includes (Js.toLowerCase sourceCode) "external" = true).
  { eapply includes_trans; [exact Hsnip | vm_compute; reflexivity]. }
  unfold detectManualVulnerabilities. cbv zeta.
  rewrite Hcall, Hext, Hguard. cbn [andb negb].
  do 7 apply in_pushIf_keep. apply in_pushIf_true.
Qed.

End Scenario.

(** C8 as worded fails: after a function declared internal the
    withdraw declaration is within 50 characters of the word internal, the
    heuristic ABI skips it, and the ABI of the record has no function entry
    named withdraw (the text contains the declaration and no guard marker,
    Slither answers nothing and solc fails). *)
Lemma withdraw_skipped_behind_internal :
  Js.includes internalFirstSource withdrawSnippet = true
  /\ Js.includes (Js.toLowerCase internalFirstSource) "reentrancyguard" = false
  /\ slitherOutput noTools = [] /\ solcAbi noTools = None
  /\ match analyzeContract noTools internalFirstSource false emptyWorld with
     | (Ok a, _) =>
         In potentialReentrancy (bugs a)
         /\ abi a = [AbiFunction "audit" [] [] "nonpayable"]
         /\ hasFunctionEntry "withdraw" (abi a) = false
     | _ => False
     end.
Proof. vm_compute. repeat split. left. reflexivity. Qed.

(** C8 amended: for a text that contains the withdraw declaration and no
    guard marker, with nothing from Slither, a failing compiler and a working
    file system, the analysis returns a record whose security diagnostics
    hold the High entry Potential Reentrancy with function Multiple and line
    1; its ABI holds a function entry named withdraw when every match of
    the function pattern that starts before the declaration ends before it
    and the last 50 characters before the declaration do not contain the
    word internal. *)
Theorem withdraw_scenario :
  forall (env : Env) (pre post : string) (useOpenAI : bool) (w : World),
    slitherOutput env = [] -> solcAbi env = None ->
    writeFileError env = None -> removeError env = None ->
    Js.includes
      (Js.toLowerCase (String.append pre (String.append withdrawSnippet post)))
      "reentrancyguard" = false ->
    matchesEndWithin abiFunctionRegex
      (String.append pre (String.append withdrawSnippet post))
      (String.length pre) = true ->
    Js.includes
      (Js.substring pre (String.length pre - 50) (String.length pre))
      "internal" = false ->
    exists a w',
      analyzeContract env (String.append pre (String.append withdrawSnippet post))
        useOpenAI w = (Ok a, w')
      /\ (exists bug,
            In bug (bugs a)
            /\ bug_name bug = Some "Potential Reentrancy"
            /\ bug_severity bug = Some "High"
            /\ bug_function bug = "Multiple"
            /\ bug_line bug = 1)
      /\ hasFunctionEntry "withdraw" (abi a) = true.
Proof.
  intros env pre post useOpenAI w Hs Hc Hw Hr Hguard Hfun Hint.
  set (sourceCode := String.append pre (String.append withdrawSnippet post))
    in *.
  assert (Hfinal : finalSlitherResults (slitherOutput env) sourceCode
                   = detectManualVulnerabilities sourceCode).
  { unfold finalSlitherResults. now rewrite Hs. }
  destruct (heuristic_warnings sourceCode
              (finalSolhintResults (solhintOutput env) sourceCode))
    as (warnings & Hwarn & _).
  rewrite <- Hfinal in Hwarn.
  destruct (analyzeContract_returns env sourceCode useOpenAI w warnings
              Hw Hr Hwarn) as (a & w' & Hrun).
  exists a, w'. split; [exact Hrun |].
  apply analyzeContract_Ok in Hrun as (Hb & _ & _ & _ & _ & Habi & _).
  rewrite Hc in Habi. split.
  - exists potentialReentrancy. split; [| repeat split].
    rewrite Hb, Hfinal. apply detectManualVulnerabilities_reentrancy.
    + apply includes_append.
    + exact Hguard.
  - eapply generateManualABI_withdraw; eassumption.
Qed.

Lemma withdraw_scenario_witness :
  exists a w',
    analyzeContract noTools
      (String.append "contract Bank { function deposit() public payable { } "
         (String.append withdrawSnippet " }")) false emptyWorld = (Ok a, w')
    /\ (exists bug,
          In bug (bugs a)
          /\ bug_name bug = Some "Potential Reentrancy"
          /\ bug_severity bug = Some "High"
          /\ bug_function bug = "Multiple"
          /\ bug_line bug = 1)
    /\ hasFunctionEntry "withdraw" (abi a) = true.
Proof.
  apply (withdraw_scenario noTools
           "contract Bank { function deposit() public payable { } " " }"
           false emptyWorld);
    vm_compute; reflexivity.
Defined.

(* ================================================================= *)
(** ** Further properties of the pipeline *)

Section PipelineEffects.

Lemma lookupFile_withoutFile (path other : string)
    (fs : list (string * string)) :
  path <> other ->
  lookupFile path (withoutFile other fs) = lookupFile path fs.
Proof.
  intros Hne. unfold withoutFile.
  induction fs as [|[p c] fs IH]; cbn [filter lookupFile fst snd];
    [reflexivity |].
  destruct (String.eqb p other) eqn:Eo; cbn [negb].
  - apply String.eqb_eq in Eo. subst p.
    destruct (String.eqb other path) eqn:Ep; [| exact IH].
    apply String.eqb_eq in Ep. congruence.
  - cbn [lookupFile fst snd]. now rewrite IH.
Qed.

Lemma lookupFile_written (path other content : string)
    (fs : list (string * string)) :
  path <> other ->
  lookupFile path ((other, content) :: withoutFile other fs)
  = lookupFile path fs.
Proof.
  intros Hne. cbn [lookupFile fst snd].
  destruct (String.eqb other path) eqn:E.
  - apply String.eqb_eq in E. congruence.
  - now apply lookupFile_withoutFile.
Qed.

End PipelineEffects.

(** X1: an analysis, whether it returns or throws, leaves every file other
    than its temporary file as it found it. *)
Theorem analyzeContract_touches_only_temp_file :
  forall (env : Env) (sourceCode : string) (useOpenAI : bool) (w : World)
         (path : string),
    path <> contractFile ->
    lookupFile path (files (snd (analyzeContract env sourceCode useOpenAI w)))
    = lookupFile path (files w).
Proof.
  intros env sourceCode useOpenAI w path Hne.
  unfold analyzeContract, writeFile, runSlither, runSolhint, generateABI,
    aiSummaryStep, remove, bindM, lift, emit, ret, ofOption.
  cbv zeta.
  set (fb := finalSlitherResults _ _). set (fl := finalSolhintResults _ _).
  destruct (writeFileError env); [reflexivity |].
  destruct (extractContractDetails sourceCode) as [details|];
    [| cbn [snd files]; now apply lookupFile_written].
  destruct (useOpenAI && openaiClient env);
    destruct (solcAbi env) as [abi'|];
    try destruct (generateManualABI sourceCode) as [abi'|];
    try destruct (generateDeploymentWarnings fb fl) as [warnings| |];
    try destruct (removeError env);
    cbn [snd files];
    rewrite ?lookupFile_withoutFile by exact Hne;
    now apply lookupFile_written.
Qed.

Lemma analyzeContract_touches_only_temp_file_witness :
  lookupFile "contracts/Bank.sol"
    (files (snd (analyzeContract noTools bankSource false
                   {| files := [("contracts/Bank.sol", bankSource)];
                      log := [] |})))
  = Some bankSource.
Proof.
  rewrite (analyzeContract_touches_only_temp_file noTools bankSource false
             {| files := [("contracts/Bank.sol", bankSource)]; log := [] |}
             "contracts/Bank.sol");
    [reflexivity | vm_compute; discriminate].
Defined.

(** X2: an analysis that returns a record has called, in this order and
    once each, the file write, Slither, Solhint, the summarizer exactly when
    it is asked for and a client is configured, the compiler and the file
    removal; the summary of the record is absent when the summarizer was
    not called.  The flag changes nothing else in the record. *)
Theorem analyzeContract_calls :
  forall (env : Env) (sourceCode : string) (useOpenAI : bool) (w w' : World)
         (a : Analysis),
    analyzeContract env sourceCode useOpenAI w = (Ok a, w') ->
    log w' = log w ++ callsOfRun env sourceCode useOpenAI
    /\ aiSummary a
       = (if useOpenAI && openaiClient env then openaiSummary env else None)
    /\ (forall flag, exists a2 w2,
          analyzeContract env sourceCode flag w = (Ok a2, w2)
          /\ riskScore a2 = riskScore a /\ auditGrade a2 = auditGrade a
          /\ bugs a2 = bugs a /\ linting a2 = linting a /\ abi a2 = abi a
          /\ files w2 = files w').
Proof.
  intros env sourceCode useOpenAI w w' a.
  unfold callsOfRun.
  unfold analyzeContract, writeFile, runSlither, runSolhint, generateABI,
    aiSummaryStep, remove, bindM, lift, emit, ret, ofOption.
  cbv zeta.
  set (fb := finalSlitherResults _ _). set (fl := finalSolhintResults _ _).
  intros H.
  destruct (writeFileError env); [discriminate |].
  destruct (extractContractDetails sourceCode) as [details|];
    [| discriminate].
  destruct (solcAbi env) as [abi'|];
    try (destruct (generateManualABI sourceCode) as [abi'|];
         [| destruct (useOpenAI && openaiClient env); discriminate]);
    (destruct (generateDeploymentWarnings fb fl) as [warnings| |];
     [| destruct (useOpenAI && openaiClient env); discriminate
      | destruct (useOpenAI && openaiClient env); discriminate]);
    (destruct (removeError env);
     [destruct (useOpenAI && openaiClient env); discriminate |]);
    (split; [| split]);
    try (intros flag; destruct (flag && openaiClient env));
    destruct (useOpenAI && openaiClient env);
    injection H as <- <-; cbn [log files aiSummary riskScore auditGrade bugs
                               linting abi];
    rewrite <- ?app_assoc; cbn [app];
    try reflexivity;
    (eexists; eexists; split; [reflexivity | repeat split]).
Qed.

Lemma analyzeContract_calls_witness :
  exists a w',
    analyzeContract noTools bankSource true emptyWorld = (Ok a, w')
    /\ log w' = callsOfRun noTools bankSource true
    /\ aiSummary a = None.
Proof.
  destruct (analyzeContract noTools bankSource true emptyWorld)
    as [[a | e |] w'] eqn:Hrun.
  - exists a, w'. split; [reflexivity |].
    destruct (analyzeContract_calls _ _ _ _ _ _ Hrun) as (Hlog & Hai & _).
    split; [exact Hlog | exact Hai].
  - vm_compute in Hrun. discriminate.
  - vm_compute in Hrun. discriminate.
Defined.

(** X3: in every record an analysis returns the score lies between 0 and
    100 and is the score of the record's two lists, the grade is the grade
    of that score and of the security list (so C above 70, and A only at 40
    or below), and the contract type is one of the seven categories. *)
Theorem analysis_record_consistent :
  forall (env : Env) (sourceCode : string) (useOpenAI : bool) (w w' : World)
         (a : Analysis),
    analyzeContract env sourceCode useOpenAI w = (Ok a, w') ->
    (0 <= riskScore a <= 100)%Z
    /\ riskScore a = computeRiskScore (bugs a) (linting a)
    /\ auditGrade a = computeAuditGrade (riskScore a) (bugs a) (linting a)
    /\ ((70 < riskScore a)%Z -> auditGrade a = GradeC)
    /\ (auditGrade a = GradeA -> (riskScore a <= 40)%Z)
    /\ In (tokenType a) tokenTypes.
Proof.
  intros env sourceCode useOpenAI w w' a Hrun.
  assert (Htype : tokenType a = detectTokenType sourceCode).
  { revert Hrun.
    unfold analyzeContract, writeFile, runSlither, runSolhint, generateABI,
      aiSummaryStep, remove, bindM, lift, emit, ret, ofOption.
    cbv zeta.
    set (fb := finalSlitherResults _ _). set (fl := finalSolhintResults _ _).
    intros H.
    destruct (writeFileError env); [discriminate |].
    destruct (extractContractDetails sourceCode); [| discriminate].
    destruct (useOpenAI && openaiClient env);
      destruct (solcAbi env);
      try (destruct (generateManualABI sourceCode); [| discriminate]);
      (destruct (generateDeploymentWarnings fb fl); try discriminate);
      (destruct (removeError env); [discriminate |]);
      injection H as <- <-; reflexivity. }
  apply analyzeContract_Ok in Hrun as (_ & _ & Hs & Hg & _).
  assert (Hb : (0 <= riskScore a <= 100)%Z).
  { rewrite Hs, computeRiskScore_sum. lia. }
  split; [exact Hb |]. split; [exact Hs |]. split; [exact Hg |].
  rewrite Hg, computeAuditGrade_grade. unfold Spec.grade.
  split; [| split].
  - intros Hhigh. apply Z.ltb_lt in Hhigh. rewrite Hhigh. reflexivity.
  - destruct (70 <? riskScore a)%Z; [discriminate |].
    destruct (existsb Spec.escalates (bugs a)); [discriminate |].
    cbn [orb]. destruct (40 <? riskScore a)%Z eqn:E; [discriminate |].
    intros _. apply Z.ltb_ge in E. exact E.
  - rewrite Htype. unfold detectTokenType, tokenTypes. cbv zeta.
    repeat match goal with
           | |- context [if ?c then _ else _] => destruct c
           end; cbn [In]; tauto.
Qed.

Lemma analysis_record_consistent_witness :
  exists a w',
    analyzeContract slitherOnly bankSource false emptyWorld = (Ok a, w')
    /\ (0 <= riskScore a <= 100)%Z
    /\ In (tokenType a) tokenTypes.
Proof.
  destruct (analyzeContract slitherOnly bankSource false emptyWorld)
    as [[a | e |] w'] eqn:Hrun.
  - exists a, w'. split; [reflexivity |].
    destruct (analysis_record_consistent _ _ _ _ _ _ Hrun)
      as (Hb & _ & _ & _ & _ & Ht).
    split; [exact Hb | exact Ht].
  - vm_compute in Hrun. discriminate.
  - vm_compute in Hrun. discriminate.
Defined.

(* ================================================================= *)
(** ** Further properties of the heuristic detectors *)

Section Detectors.

Lemma in_pushIf_iff {A : Type} (cond : bool) (x y : A) (l : list A) :
  In y (pushIf cond x l) <-> (cond = true /\ y = x) \/ In y l.
Proof.
  unfold pushIf. destruct cond.
  - rewrite in_app_iff. cbn [In]. intuition congruence.
  - intuition congruence.
Qed.

(** The entries of the heuristic security list, rule by rule. *)
Lemma detectManualVulnerabilities_In (sourceCode : string) (bug : Bug) :
  let has := Js.includes (Js.toLowerCase sourceCode) in
  In bug (detectManualVulnerabilities sourceCode) <->
  (has "call" && has "external" && negb (has "reentrancyguard") = true
   /\ bug = potentialReentrancy)
  \/ (has "call" && negb (has "require") && negb (has "assert") = true
      /\ bug = uncheckedExternalCall)
  \/ (has "uint" && negb (has "pragma solidity ^0.8")
      && negb (has "pragma solidity 0.8") = true
      /\ bug = potentialIntegerOverflow)
  \/ (has "delegatecall" = true /\ bug = dangerousDelegatecall)
  \/ (has "tx.origin" = true /\ bug = txOriginUsage)
  \/ (has "block.timestamp" = true /\ bug = blockTimestampDependency)
  \/ (has "function" && has "external" && negb (has "modifier")
      && negb (has "onlyowner") = true
      /\ bug = potentialAccessControlIssue)
  \/ (has "selfdestruct" || has "suicide" = true
      /\ bug = selfDestructFunction).
Proof.
  intros has. unfold detectManualVulnerabilities. cbv zeta. fold has.
  rewrite !in_pushIf_iff. cbn [In]. tauto.
Qed.

(** The entries of the unsafe-construct list, check by check. *)
Lemma detectUnsafePatterns_In (sourceCode : string) (pattern : string) :
  let has := Js.includes (Js.toLowerCase sourceCode) in
  In pattern (detectUnsafePatterns sourceCode) <->
  (has "selfdestruct" || has "suicide" = true /\ pattern = killSwitchPattern)
  \/ (has "delegatecall" = true
      /\ pattern = "Delegate Call - Potential for code injection")
  \/ (has "assembly" = true
      /\ pattern = "Assembly Code - Low-level operations")
  \/ (has "tx.origin" = true
      /\ pattern = "tx.origin Usage - Potential phishing vulnerability")
  \/ (has "block.timestamp" = true
      /\ pattern = "Block Timestamp - Time manipulation risk")
  \/ (has "block.number" = true
      /\ pattern = "Block Number - Block manipulation risk").
Proof.
  intros has. unfold detectUnsafePatterns. cbv zeta. fold has.
  rewrite !in_pushIf_iff. cbn [In]. tauto.
Qed.

End Detectors.

(** X4: the unsafe-construct list and the heuristic security list agree on
    the four constructs both look for: the kill switch, delegatecall,
    tx.origin and the block timestamp are in one exactly when the matching
    entry is in the other. *)
Theorem unsafePatterns_agree_with_heuristics :
  forall sourceCode : string,
    (In killSwitchPattern (detectUnsafePatterns sourceCode) <->
     In selfDestructFunction (detectManualVulnerabilities sourceCode))
    /\ (In "Delegate Call - Potential for code injection"
          (detectUnsafePatterns sourceCode) <->
        In dangerousDelegatecall (detectManualVulnerabilities sourceCode))
    /\ (In "tx.origin Usage - Potential phishing vulnerability"
          (detectUnsafePatterns sourceCode) <->
        In txOriginUsage (detectManualVulnerabilities sourceCode))
    /\ (In "Block Timestamp - Time manipulation risk"
          (detectUnsafePatterns sourceCode) <->
        In blockTimestampDependency (detectManualVulnerabilities sourceCode)).
Proof.
  intros sourceCode.
  repeat match goal with
         | |- _ /\ _ => split
         end;
    rewrite detectUnsafePatterns_In, detectManualVulnerabilities_In;
    cbv zeta;
    (split; intros H;
     repeat match goal with
            | H : _ \/ _ |- _ => destruct H as [H | H]
            end;
     destruct H as [Hc He]; try discriminate He;
     tauto).
Qed.

Section HeuristicWarnings.

Lemma filter_pushIf {A : Type} (f : A -> bool) (cond : bool) (x : A)
    (l : list A) :
  filter f (pushIf cond x l) = pushIf (cond && f x) x (filter f l).
Proof.
  unfold pushIf. destruct cond; cbn [andb]; [| reflexivity].
  rewrite filter_app. cbn [filter]. destruct (f x); [reflexivity |].
  apply app_nil_r.
Qed.

Lemma length_pushIf {A : Type} (cond : bool) (x : A) (l : list A) :
  length (pushIf cond x l) = length l + count1 cond.
Proof.
  unfold pushIf, count1. destruct cond; [| lia].
  rewrite length_app. reflexivity.
Qed.

Lemma filterCritical_heuristic (l : list Bug) :
  (forall bug, In bug l -> In bug heuristicBugs) -> filterCritical l = Ok [].
Proof.
  induction l as [|b l IH]; intros H; cbn [filterCritical]; [reflexivity |].
  destruct (heuristicBugs_named_not_critical b) as (name & Hn & Hc);
    [apply H; now left |].
  rewrite Hn, IH by (intros; apply H; now right).
  cbn [bind]. rewrite Hc. reflexivity.
Qed.

End HeuristicWarnings.

(** X5: on the heuristic security list the deployment warnings are the
    high-severity warning alone, with the number of the three High rules
    that fired (unguarded external call, delegatecall, self-destruct), or
    nothing when none fired. *)
Theorem heuristic_deploymentWarnings :
  forall (sourceCode : string) (solhintResults : list Issue),
    let has := Js.includes (Js.toLowerCase sourceCode) in
    let n :=
      count1 (has "call" && has "external" && negb (has "reentrancyguard"))
      + count1 (has "delegatecall")
      + count1 (has "selfdestruct" || has "suicide") in
    generateDeploymentWarnings (detectManualVulnerabilities sourceCode)
      solhintResults
    = Ok (if 0 <? n then [highSeverityWarning n] else [])
    /\ n <= 3.
Proof.
  intros sourceCode solhintResults has n.
  assert (Hn : length (filter isHighSeverity
                         (detectManualVulnerabilities sourceCode)) = n).
  { unfold detectManualVulnerabilities. cbv zeta. fold has.
    rewrite !filter_pushIf, !length_pushIf.
    change (isHighSeverity potentialReentrancy) with true.
    change (isHighSeverity uncheckedExternalCall) with false.
    change (isHighSeverity potentialIntegerOverflow) with false.
    change (isHighSeverity dangerousDelegatecall) with true.
    change (isHighSeverity txOriginUsage) with false.
    change (isHighSeverity blockTimestampDependency) with false.
    change (isHighSeverity potentialAccessControlIssue) with false.
    change (isHighSeverity selfDestructFunction) with true.
    rewrite !andb_true_r, !andb_false_r. cbn [filter length count1].
    unfold n. lia. }
  split.
  - unfold generateDeploymentWarnings. cbv zeta.
    rewrite filterCritical_heuristic
      by apply detectManualVulnerabilities_entries.
    cbn [bind length]. rewrite Hn. unfold pushIf.
    destruct (0 <? n); reflexivity.
  - unfold n, count1.
    repeat match goal with
           | |- context [if ?c then 1 else 0] => destruct c
           end; lia.
Qed.

(* ================================================================= *)
(** ** The heuristic style backend *)

Section Linting.

Lemma pushIf_app {A : Type} (cond : bool) (x : A) (l : list A) :
  pushIf cond x l = l ++ pushIf cond x [].
Proof. unfold pushIf. destruct cond; [reflexivity | now rewrite app_nil_r]. Qed.

(** The body of the loop pushes behind what is there. *)
Lemma lintLine_app (lines : list string) (line : string) (index : nat)
    (issues : list Issue) :
  lintLine lines line index issues = issues ++ lintLine lines line index [].
Proof.
  unfold lintLine. cbv zeta.
  repeat match goal with
         | |- context [pushIf ?c ?x (pushIf ?d ?y ?l)] =>
             rewrite (pushIf_app c x (pushIf d y l))
         end.
  rewrite (pushIf_app _ _ issues), (pushIf_app _ _ []).
  rewrite <- !app_assoc. reflexivity.
Qed.

Lemma forEachIndexed_collect {A B : Type} (f : A -> nat -> list B -> list B)
    (g : A -> nat -> list B) :
  (forall x i acc, f x i acc = acc ++ g x i) ->
  forall l i acc, forEachIndexed f l i acc = acc ++ collectIndexed g l i.
Proof.
  intros Hf. induction l as [|x l IH]; intros i acc;
    cbn [forEachIndexed collectIndexed].
  - now rewrite app_nil_r.
  - rewrite IH, Hf, app_assoc. reflexivity.
Qed.

Lemma collectIndexed_In {A B : Type} (g : A -> nat -> list B) (y : B) :
  forall l i,
    In y (collectIndexed g l i) <->
    exists k x, nth_error l k = Some x /\ In y (g x (i + k)).
Proof.
  induction l as [|x l IH]; intros i; cbn [collectIndexed].
  - split; [intros [] | intros (k & x & H & _); now destruct k].
  - rewrite in_app_iff, IH. split.
    + intros [H | (k & x' & Hk & H)].
      * exists 0, x. rewrite Nat.add_0_r. split; [reflexivity | exact H].
      * exists (S k), x'. rewrite Nat.add_succ_r. split; [exact Hk | exact H].
    + intros ([|k] & x' & Hk & H).
      * injection Hk as <-. rewrite Nat.add_0_r in H. now left.
      * right. exists k, x'. rewrite Nat.add_succ_r in H.
        split; [exact Hk | exact H].
Qed.

(** The issues of a text are the issues of its lines. *)
Lemma detectBasicLintingIssues_In (sourceCode : string) (issue : Issue) :
  let lines := Js.split "010" sourceCode in
  In issue (detectBasicLintingIssues sourceCode) <->
  exists index line,
    nth_error lines index = Some line
    /\ In issue (lintLine lines line index []).
Proof.
  intros lines. unfold detectBasicLintingIssues. cbv zeta. fold lines.
  rewrite (forEachIndexed_collect (lintLine lines)
             (fun line index => lintLine lines line index []))
    by (intros; apply lintLine_app).
  cbn [app]. rewrite collectIndexed_In. cbn [Nat.add]. reflexivity.
Qed.

(** The issues of one line, rule by rule. *)
Lemma lintLine_In (lines : list string) (line : string) (index : nat)
    (issue : Issue) :
  In issue (lintLine lines line index []) <->
  ((index =? 0)
   && negb (Js.includes (Js.trim line) "SPDX-License-Identifier") = true
   /\ issue = warningIssue "spdx-license-identifier"
                "Missing SPDX license identifier" (index + 1) 1)
  \/ ((120 <? String.length (Js.trim line)) = true
      /\ issue = warningIssue "max-line-length"
                   "Line too long (max 120 characters)" (index + 1) 1)
  \/ (String.eqb (Js.trim line) ""
      && match nth_error lines (index + 1) with
         | Some next =>
             negb (String.eqb next "") && String.eqb (Js.trim next) ""
         | None => false
         end = true
      /\ issue = warningIssue "no-consecutive-blank-lines"
                   "Multiple consecutive blank lines" (index + 1) 1)
  \/ (Js.endsWithChar line " " || Js.endsWithChar line "009" = true
      /\ issue = warningIssue "no-trailing-whitespace"
                   "Trailing whitespace" (index + 1) (String.length line)).
Proof.
  unfold lintLine. cbv zeta. rewrite !in_pushIf_iff. cbn [In]. tauto.
Qed.

Lemma endsWithChar_nonempty (line : string) (c : ascii) :
  Js.endsWithChar line c = true -> 1 <= String.length line.
Proof. destruct line; cbn; [discriminate | lia]. Qed.

Lemma nth_error_length {A : Type} (l : list A) (k : nat) (x : A) :
  nth_error l k = Some x -> k < length l.
Proof. intros H. apply nth_error_Some. congruence. Qed.

Lemma sumZ_ones {A : Type} (w : A -> Z) (l : list A) :
  (forall x, In x l -> w x = 1%Z) ->
  Spec.sumZ (map w l) = Z.of_nat (length l).
Proof.
  unfold Spec.sumZ. induction l as [|x l IH]; intros H; [reflexivity |].
  cbn [map fold_right length]. rewrite H by now left.
  rewrite IH by (intros; apply H; now right). lia.
Qed.

End Linting.

(** X6: every issue of the heuristic style backend is a warning located at
    a line of the text (between 1 and the number of lines) at a column of at
    least 1; each one adds exactly 1 to the risk score, so with them the
    score is the security sum plus their number, clamped to 100. *)
Theorem detectBasicLintingIssues_warnings :
  forall (sourceCode : string),
    (forall issue,
       In issue (detectBasicLintingIssues sourceCode) ->
       issue_severity issue = Some "warning"
       /\ 1 <= issue_line issue <= length (Js.split "010" sourceCode)
       /\ 1 <= issue_column issue)
    /\ (forall slitherResults,
          computeRiskScore slitherResults (detectBasicLintingIssues sourceCode)
          = Z.min 100
              (Spec.sumZ (map slitherWeight slitherResults)
               + Z.of_nat (length (detectBasicLintingIssues sourceCode)))%Z).
Proof.
  intros sourceCode.
  assert (Hall : forall issue,
             In issue (detectBasicLintingIssues sourceCode) ->
             issue_severity issue = Some "warning"
             /\ 1 <= issue_line issue <= length (Js.split "010" sourceCode)
             /\ 1 <= issue_column issue).
  { intros issue Hin.
    apply detectBasicLintingIssues_In in Hin as (index & line & Hnth & Hin).
    apply nth_error_length in Hnth.
    apply lintLine_In in Hin
      as [[_ ->] | [[_ ->] | [[_ ->] | [Hends ->]]]];
      cbn [warningIssue issue_severity issue_line issue_column];
      try (repeat split; lia).
    repeat split; try lia.
    apply orb_true_iff in Hends as [H | H];
      eapply endsWithChar_nonempty; eassumption. }
  split; [exact Hall |].
  intros slitherResults. rewrite computeRiskScore_sum.
  rewrite (sumZ_ones solhintWeight).
  - pose proof (sumZ_nonneg (map slitherWeight slitherResults)) as Hpos.
    assert (0 <= Spec.sumZ (map slitherWeight slitherResults))%Z.
    { apply Hpos. intros x Hx. apply in_map_iff in Hx as (b & <- & _).
      apply slitherWeight_nonneg. }
    lia.
  - intros issue Hin. apply Hall in Hin as (Hs & _).
    unfold solhintWeight. rewrite Hs. reflexivity.
Qed.

(** X7: the licence rule looks at the first line only: the missing-licence
    issue is reported, once and at line 1, exactly when the first line does
    not contain SPDX-License-Identifier, wherever else the text has it. *)
Theorem detectBasicLintingIssues_spdx :
  forall (sourceCode : string) (issue : Issue),
    (In issue (detectBasicLintingIssues sourceCode)
     /\ issue_rule issue = "spdx-license-identifier")
    <->
    (Js.includes (Js.trim (hd "" (Js.split "010" sourceCode)))
       "SPDX-License-Identifier" = false
     /\ issue = warningIssue "spdx-license-identifier"
                  "Missing SPDX license identifier" 1 1).
Proof.
  intros sourceCode issue.
  rewrite detectBasicLintingIssues_In. cbv zeta.
  assert (Hhd : nth_error (Js.split "010" sourceCode) 0
                = Some (hd "" (Js.split "010" sourceCode))).
  { destruct sourceCode as [|c s]; cbn [Js.split]; [reflexivity |].
    destruct (Ascii.eqb c "010"); [reflexivity |].
    destruct (Js.split "010" s); reflexivity. }
  split.
  - intros [(index & line & Hnth & Hin) Hrule].
    apply lintLine_In in Hin
      as [[Hc ->] | [[_ ->] | [[_ ->] | [_ ->]]]];
      cbn [warningIssue issue_rule] in Hrule; try discriminate Hrule.
    apply andb_true_iff in Hc as [Hi Hc].
    apply Nat.eqb_eq in Hi. subst index.
    rewrite Hhd in Hnth. injection Hnth as <-.
    apply negb_true_iff in Hc. split; [exact Hc | reflexivity].
  - intros [Hc ->]. split; [| reflexivity].
    exists 0, (hd "" (Js.split "010" sourceCode)).
    split; [exact Hhd |].
    apply lintLine_In. left. rewrite Hc. split; reflexivity.
Qed.

(** X8: the blank-line rule reports line [index + 1] exactly when that line
    trims to the empty string and the line after it exists, is not the empty
    string and trims to the empty string: the following line has to hold
    white space.  So in a text whose blank lines are all empty (no line
    holds white space only) the rule never reports, however many empty lines
    follow each other. *)
Theorem detectBasicLintingIssues_blank_lines :
  forall (sourceCode : string) (issue : Issue),
    let lines := Js.split "010" sourceCode in
    ((In issue (detectBasicLintingIssues sourceCode)
      /\ issue_rule issue = "no-consecutive-blank-lines")
     <->
     exists index line next,
       nth_error lines index = Some line
       /\ Js.trim line = ""
       /\ nth_error lines (index + 1) = Some next
       /\ next <> ""
       /\ Js.trim next = ""
       /\ issue = warningIssue "no-consecutive-blank-lines"
                    "Multiple consecutive blank lines" (index + 1) 1)
    /\ ((forall line, In line lines -> Js.trim line = "" -> line = "") ->
        In issue (detectBasicLintingIssues sourceCode) ->
        issue_rule issue <> "no-consecutive-blank-lines").
Proof.
  intros sourceCode issue lines.
  assert (Hiff :
    (In issue (detectBasicLintingIssues sourceCode)
     /\ issue_rule issue = "no-consecutive-blank-lines")
    <->
    exists index line next,
      nth_error lines index = Some line
      /\ Js.trim line = ""
      /\ nth_error lines (index + 1) = Some next
      /\ next <> ""
      /\ Js.trim next = ""
      /\ issue = warningIssue "no-consecutive-blank-lines"
                   "Multiple consecutive blank lines" (index + 1) 1).
  { split.
    - intros [Hin Hrule].
      apply detectBasicLintingIssues_In in Hin as (index & line & Hnth & Hin).
      fold lines in Hnth, Hin.
      apply lintLine_In in Hin
        as [[_ ->] | [[_ ->] | [[Hc ->] | [_ ->]]]];
        cbn [warningIssue issue_rule] in Hrule; try discriminate.
      apply andb_true_iff in Hc as [Ht Hnext].
      apply String.eqb_eq in Ht.
      destruct (nth_error lines (index + 1)) as [next|] eqn:En;
        [| discriminate].
      apply andb_true_iff in Hnext as [Hne Hnt].
      apply negb_true_iff, String.eqb_neq in Hne.
      apply String.eqb_eq in Hnt.
      exists index, line, next. auto 7.
    - intros (index & line & next & Hnth & Ht & En & Hne & Hnt & ->).
      split; [| reflexivity].
      apply detectBasicLintingIssues_In. fold lines.
      exists index, line. split; [exact Hnth |].
      apply lintLine_In. right. right. left. split; [| reflexivity].
      rewrite Ht, En, Hnt. cbn [String.eqb andb].
      apply String.eqb_neq in Hne. rewrite Hne. reflexivity. }
  split; [exact Hiff |].
  intros Hblank Hin Hrule.
  destruct Hiff as [Hto _].
  destruct (Hto (conj Hin Hrule))
    as (index & line & next & _ & _ & En & Hne & Hnt & _).
  apply Hne, Hblank; [| exact Hnt].
  eapply nth_error_In. exact En.
Qed.

(* ================================================================= *)
(** ** Sizes, windows and the two event scans *)

Section Sizes.

(** A loop whose body pushes at most one element per match pushes at most
    as many elements as matches fit into the text. *)
Lemma whileExec_count {A : Type} (r : regex) (s : string)
    (body : Match -> list A -> list A) :
  (forall m acc, length (body m acc) <= S (length acc)) ->
  forall fuel lastIndex acc res,
    lastIndex <= String.length s ->
    whileExec fuel r s lastIndex body acc = Some res ->
    exists n,
      length (fst res) <= length acc + n
      /\ n * minLength r + lastIndex <= String.length s.
Proof.
  intros Hbody. induction fuel as [|fuel IH]; intros li acc res Hli H;
    [discriminate |].
  cbn [whileExec] in H. destruct (exec r s li) as [[m|] li'] eqn:E.
  - apply exec_some in E as (_ & Hadv & Hin).
    destruct (IH _ _ _ Hin H) as (n & Hlen & Hfit).
    exists (S n). pose proof (Hbody m acc). split; [lia |].
    cbn [Nat.mul]. lia.
  - injection H as <-. exists 0. cbn. lia.
Qed.

Lemma forEachMatchIn_count {A : Type} (r : regex) (s : string)
    (body : Match -> list A -> list A) (fuel : nat) (acc res : list A) :
  (forall m acc, length (body m acc) <= S (length acc)) ->
  forEachMatchIn fuel r s body acc = Some res ->
  (length res - length acc) * minLength r <= String.length s.
Proof.
  intros Hbody H. unfold forEachMatchIn in H.
  destruct (whileExec fuel r s 0 body acc) as [out|] eqn:E; [| discriminate].
  injection H as <-.
  destruct (whileExec_count r s body Hbody _ _ _ _ (Nat.le_0_l _) E)
    as (n & Hlen & Hfit).
  assert (length (fst out) - length acc <= n) by lia.
  nia.
Qed.

Lemma length_push {A : Type} (l : list A) (x : A) :
  length (l ++ [x]) <= S (length l).
Proof. rewrite length_app. cbn. lia. Qed.

(** The heuristic ABI is built for every text. *)
Lemma generateManualABI_total (sourceCode : string) :
  exists abi', generateManualABI sourceCode = Some abi'.
Proof.
  destruct patterns_consume as (_ & _ & _ & _ & _ & Hf & He & Hv).
  unfold generateManualABI.
  destruct (forEachMatch_total abiFunctionRegex sourceCode
              (abiFunctionStep sourceCode) [] Hf) as [abi1 ->].
  destruct (forEachMatch_total abiEventRegex sourceCode abiEventStep abi1 He)
    as [abi2 ->].
  apply forEachMatch_total, Hv.
Qed.

End Sizes.

(** X9: the inventory and the heuristic ABI are bounded by the length of
    the text: a function or a modifier takes at least 13 characters, an
    import 10, an event 9 and a state variable 6, and the heuristic ABI has
    at most a third as many entries as the text has characters. *)
Theorem extraction_bounded_by_text :
  forall sourceCode : string,
    exists details abi',
      extractContractDetails sourceCode = Some details
      /\ generateManualABI sourceCode = Some abi'
      /\ 13 * length (functions details) <= String.length sourceCode
      /\ 13 * length (modifiers details) <= String.length sourceCode
      /\ 6 * length (stateVariables details) <= String.length sourceCode
      /\ 9 * length (events details) <= String.length sourceCode
      /\ 10 * length (imports details) <= String.length sourceCode
      /\ 3 * length abi' <= String.length sourceCode.
Proof.
  intros sourceCode.
  destruct (extractContractDetails_total sourceCode) as [details Hd].
  destruct (generateManualABI_total sourceCode) as [abi' Habi].
  exists details, abi'. split; [exact Hd |]. split; [exact Habi |].
  unfold extractContractDetails, extractContractDetailsIn in Hd.
  destruct (forEachMatchIn _ importRegex _ _ _) as [imports'|] eqn:Ei;
    [| discriminate].
  destruct (forEachMatchIn _ functionRegex _ _ _) as [functions'|] eqn:Ef;
    [| discriminate].
  destruct (forEachMatchIn _ modifierRegex _ _ _) as [modifiers'|] eqn:Em;
    [| discriminate].
  destruct (forEachMatchIn _ stateVarRegex _ _ _) as [stateVariables'|] eqn:Es;
    [| discriminate].
  destruct (forEachMatchIn _ eventRegex _ _ _) as [events'|] eqn:Ev;
    [| discriminate].
  injection Hd as <-. cbn [functions modifiers stateVariables events imports].
  apply forEachMatchIn_count in Ei; [| intros; apply length_push].
  apply forEachMatchIn_count in Ef; [| intros; apply length_push].
  apply forEachMatchIn_count in Em; [| intros; apply length_push].
  apply forEachMatchIn_count in Es; [| intros; apply length_push].
  apply forEachMatchIn_count in Ev; [| intros; apply length_push].
  change (minLength importRegex) with 10 in Ei.
  change (minLength functionRegex) with 13 in Ef.
  change (minLength modifierRegex) with 13 in Em.
  change (minLength stateVarRegex) with 6 in Es.
  change (minLength eventRegex) with 9 in Ev.
  cbn [length] in *. rewrite Nat.sub_0_r in *.
  repeat (split; [lia |]).
  unfold generateManualABI, forEachMatch in Habi.
  destruct (forEachMatchIn _ abiFunctionRegex _ _ _) as [abi1|] eqn:E1;
    [| discriminate].
  destruct (forEachMatchIn _ abiEventRegex _ _ _) as [abi2|] eqn:E2;
    [| discriminate].
  apply forEachMatchIn_count in E1.
  2:{ intros m acc. unfold abiFunctionStep. cbv zeta.
      destruct (_ || _); [lia | apply length_push]. }
  apply forEachMatchIn_count in E2;
    [| intros; unfold abiEventStep; apply length_push].
  apply forEachMatchIn_count in Habi;
    [| intros; unfold abiStateVarStep; apply length_push].
  change (minLength abiFunctionRegex) with 12 in E1.
  change (minLength abiEventRegex) with 9 in E2.
  change (minLength abiStateVarRegex) with 12 in Habi.
  cbn [length] in *. lia.
Qed.

(** X10: what the extractor and the ABI builder report about a declaration
    (visibility, function type, state mutability, variable type) is read
    from the text before the declaration only: the declaration itself and
    what follows it do not matter, and a declaration at the very start of
    the text gets the defaults whatever it declares. *)
Theorem attributes_read_before_declaration :
  forall (before declaration : string),
    let sourceCode := String.append before declaration in
    let index := String.length before in
    extractVisibility sourceCode index = extractVisibility before index
    /\ extractFunctionType sourceCode index = extractFunctionType before index
    /\ getStateMutability sourceCode index = getStateMutability before index
    /\ extractVariableType sourceCode index = extractVariableType before index
    /\ getVariableType sourceCode index = getVariableType before index
    /\ extractVisibility declaration 0 = "internal"
    /\ extractFunctionType declaration 0 = "non-payable"
    /\ getStateMutability declaration 0 = "nonpayable"
    /\ extractVariableType declaration 0 = "unknown"
    /\ getVariableType declaration 0 = "uint256".
Proof.
  intros before declaration sourceCode index.
  assert (Hw : forall n, windowBefore n sourceCode index
                         = windowBefore n before index).
  { intros n. unfold windowBefore, Js.substring, sourceCode, index.
    apply substring_append_left. lia. }
  assert (H0 : forall n, windowBefore n declaration 0 = "").
  { intros n. unfold windowBefore, Js.substring. cbn.
    now destruct declaration. }
  unfold extractVisibility, extractFunctionType, getStateMutability,
    extractVariableType, getVariableType, typeBefore.
  cbv zeta. rewrite !Hw, !H0.
  repeat split.
Qed.

Section GroupErasure.

Variable i : nat.

Lemma sameBut_advance (st1 st2 : MState) (s' : string) :
  sameBut i st1 st2 -> sameBut i (advance st1 s') (advance st2 s').
Proof.
  intros (Hc & Hr & Hg). unfold sameBut, advance; cbn.
  repeat split; [congruence | exact Hg].
Qed.

Lemma sameBut_setCap_both (j : nat) (text : string) (st1 st2 : MState) :
  sameBut i st1 st2 -> sameBut i (setCap j text st1) (setCap j text st2).
Proof.
  intros (Hc & Hr & Hg). unfold sameBut, setCap; cbn [consumed rest caps].
  repeat split; [exact Hc | exact Hr |].
  intros j' Hj. cbn [lookup]. destruct (j' =? j); [reflexivity | now apply Hg].
Qed.

Lemma sameBut_setCap_left (text : string) (st1 st2 : MState) :
  sameBut i st1 st2 -> sameBut i (setCap i text st1) st2.
Proof.
  intros (Hc & Hr & Hg). unfold sameBut, setCap; cbn [consumed rest caps].
  repeat split; [exact Hc | exact Hr |].
  intros j Hj. cbn [lookup].
  destruct (j =? i) eqn:E; [apply Nat.eqb_eq in E; congruence | now apply Hg].
Qed.

Lemma starLoop_sameResult
    (body1 body2 : (MState -> option MState) -> MState -> option MState)
    (k1 k2 : MState -> option MState) :
  (forall c1 c2,
     (forall a b, sameBut i a b -> sameResult i (c1 a) (c2 b)) ->
     forall a b, sameBut i a b -> sameResult i (body1 c1 a) (body2 c2 b)) ->
  (forall a b, sameBut i a b -> sameResult i (k1 a) (k2 b)) ->
  forall n st1 st2, sameBut i st1 st2 ->
    sameResult i (starLoop body1 k1 n st1) (starLoop body2 k2 n st2).
Proof.
  intros Hbody Hk. induction n as [|n IH]; intros st1 st2 Hst;
    cbn [starLoop]; [now apply Hk |].
  match goal with
  | |- sameResult i (match body1 ?c1 st1 with _ => _ end)
                    (match body2 ?c2 st2 with _ => _ end) =>
      assert (Hrun : sameResult i (body1 c1 st1) (body2 c2 st2))
  end.
  { apply Hbody; [| exact Hst]. intros a b Hab.
    destruct Hst as (Hc & _), Hab as (Hc' & Hr' & Hg').
    rewrite Hc, Hc'. destruct (consumed st2 <? consumed b); [| exact I].
    apply IH. repeat split; assumption. }
  destruct (body1 _ st1), (body2 _ st2); cbn [sameResult] in Hrun |- *;
    first [exact Hrun | now apply Hk | contradiction].
Qed.

(** A pattern and the same pattern without group [i] match the same way. *)
Lemma run_dropGroup (r : regex) :
  forall k1 k2,
    (forall a b, sameBut i a b -> sameResult i (k1 a) (k2 b)) ->
    forall st1 st2, sameBut i st1 st2 ->
      sameResult i (run r k1 st1) (run (dropGroup i r) k2 st2).
Proof.
  induction r as [| p | r1 IH1 r2 IH2 | r1 IH1 r2 IH2 | r1 IH1 | j r1 IH1 |];
    intros k1 k2 Hk st1 st2 Hst; cbn [run dropGroup].
  - now apply Hk.
  - pose proof Hst as (_ & Hr & _). rewrite Hr.
    destruct (rest st2) as [|c s']; [exact I |].
    destruct (p c); [| exact I]. apply Hk, sameBut_advance, Hst.
  - apply IH1; [| exact Hst]. intros a b Hab. now apply IH2.
  - pose proof (IH1 k1 k2 Hk st1 st2 Hst) as H1.
    destruct (run r1 k1 st1), (run (dropGroup i r1) k2 st2);
      cbn [sameResult] in H1 |- *;
      first [exact H1 | now apply IH2 | contradiction].
  - pose proof Hst as (_ & Hr & _). rewrite Hr.
    apply starLoop_sameResult; [| exact Hk | exact Hst].
    intros c1 c2 Hc a b Hab. now apply IH1.
  - pose proof Hst as (Hc & Hr & _).
    destruct (j =? i) eqn:E.
    + apply Nat.eqb_eq in E. subst j.
      apply IH1; [| exact Hst]. intros a b Hab.
      apply Hk, sameBut_setCap_left, Hab.
    + cbn [run]. apply IH1; [| exact Hst]. intros a b Hab.
      pose proof Hab as (Hc' & _). rewrite Hr, Hc, Hc'.
      apply Hk, sameBut_setCap_both, Hab.
  - pose proof Hst as (_ & Hr & _). rewrite Hr.
    destruct (rest st2); [now apply Hk | exact I].
Qed.

Lemma search_dropGroup (r : regex) (s : string) :
  forall index, sameMatch i (search r s index) (search (dropGroup i r) s index).
Proof.
  assert (Hm : forall s', sameResult i (matchAt r s')
                            (matchAt (dropGroup i r) s')).
  { intros s'. unfold matchAt. apply run_dropGroup.
    - intros a b Hab. exact Hab.
    - repeat split. }
  induction s as [|c s IH]; intros index; cbn [search].
  - pose proof (Hm "") as H0.
    destruct (matchAt r ""), (matchAt (dropGroup i r) "");
      cbn [sameResult sameMatch] in *; try contradiction; [| exact I].
    destruct H0 as (Hcons & _ & Hg). unfold group; cbn. auto.
  - pose proof (Hm (String c s)) as Hc.
    destruct (matchAt r (String c s)), (matchAt (dropGroup i r) (String c s));
      cbn [sameResult sameMatch] in *; try contradiction; [| apply IH].
    destruct Hc as (Hcons & _ & Hg). unfold group; cbn. auto.
Qed.

(** Two loops over a pattern and the pattern without group [i], whose
    bodies keep a relation between their states on matches that agree
    outside group [i], end in related states. *)
Lemma whileExec_dropGroup {A B : Type} (R : A -> B -> Prop) (r : regex)
    (s : string) (body1 : Match -> A -> A) (body2 : Match -> B -> B) :
  (forall m1 m2 a b,
     sameMatch i (Some m1) (Some m2) -> R a b -> R (body1 m1 a) (body2 m2 b)) ->
  forall fuel lastIndex a b,
    R a b ->
    match whileExec fuel r s lastIndex body1 a,
          whileExec fuel (dropGroup i r) s lastIndex body2 b with
    | Some out1, Some out2 => R (fst out1) (fst out2)
    | None, None => True
    | _, _ => False
    end.
Proof.
  intros Hbody. induction fuel as [|fuel IH]; intros li a b Hab;
    cbn [whileExec]; [exact I |].
  unfold exec. destruct (String.length s <? li); [exact Hab |].
  pose proof (search_dropGroup r (Js.from li s) li) as Hs.
  destruct (search r (Js.from li s) li) as [m1|],
           (search (dropGroup i r) (Js.from li s) li) as [m2|];
    cbn [sameMatch] in Hs; try contradiction; [| exact Hab].
  destruct Hs as (Hi & Hl & Hg). rewrite Hi, Hl.
  apply IH. apply Hbody; [| exact Hab]. cbn [sameMatch]. auto.
Qed.

End GroupErasure.

Section Events.

Lemma eventNames_app (l1 l2 : list AbiEntry) :
  eventNames (l1 ++ l2) = eventNames l1 ++ eventNames l2.
Proof. unfold eventNames. apply flat_map_app. Qed.

Lemma abiEventRegex_dropGroup : dropGroup 2 abiEventRegex = eventRegex.
Proof. reflexivity. Qed.

End Events.

(** X11: the heuristic ABI and the inventory find the same events: the
    names of the event entries of the ABI are the events of the inventory,
    in the same order. *)
Theorem abi_events_are_inventory_events :
  forall sourceCode : string,
    exists details abi',
      extractContractDetails sourceCode = Some details
      /\ generateManualABI sourceCode = Some abi'
      /\ eventNames abi' = events details.
Proof.
  intros sourceCode.
  destruct (extractContractDetails_total sourceCode) as [details Hd].
  destruct (generateManualABI_total sourceCode) as [abi' Habi].
  exists details, abi'. split; [exact Hd |]. split; [exact Habi |].
  unfold extractContractDetails, extractContractDetailsIn in Hd.
  destruct (forEachMatchIn _ importRegex _ _ _) as [imports'|];
    [| discriminate].
  destruct (forEachMatchIn _ functionRegex _ _ _) as [functions'|];
    [| discriminate].
  destruct (forEachMatchIn _ modifierRegex _ _ _) as [modifiers'|];
    [| discriminate].
  destruct (forEachMatchIn _ stateVarRegex _ _ _) as [stateVariables'|];
    [| discriminate].
  destruct (forEachMatchIn _ eventRegex _ _ _) as [events'|] eqn:Ev;
    [| discriminate].
  injection Hd as <-. cbn [events].
  unfold generateManualABI, forEachMatch in Habi.
  destruct (forEachMatchIn _ abiFunctionRegex _ _ _) as [abi1|] eqn:E1;
    [| discriminate].
  destruct (forEachMatchIn _ abiEventRegex _ _ _) as [abi2|] eqn:E2;
    [| discriminate].
  assert (H1 : eventNames abi1 = []).
  { eapply (forEachMatch_invariant (fun l => eventNames l = []));
      [| | exact E1]; [| reflexivity].
    intros m l Hl. unfold abiFunctionStep. cbv zeta.
    destruct (_ || _); [exact Hl |]. now rewrite eventNames_app, Hl. }
  assert (H2 : eventNames abi2 = events').
  { unfold forEachMatchIn in E2, Ev.
    pose proof (whileExec_dropGroup 2
                  (fun (l : list AbiEntry) (names : list string) =>
                     eventNames l = names)
                  abiEventRegex sourceCode abiEventStep
                  (fun m l => l ++ [group1 m])) as Hrel.
    rewrite abiEventRegex_dropGroup in Hrel.
    specialize (Hrel
      (fun m1 m2 a b Hm Hab =>
         ltac:(unfold abiEventStep; cbv zeta;
               rewrite eventNames_app, Hab; cbn [eventNames flat_map app];
               destruct Hm as (_ & _ & Hg); unfold group1;
               rewrite (Hg 1) by discriminate; reflexivity))
      (budget sourceCode) 0 abi1 [] H1).
    destruct (whileExec _ abiEventRegex _ _ _ _) as [out1|];
      [| discriminate].
    destruct (whileExec _ eventRegex _ _ _ _) as [out2|]; [| discriminate].
    injection E2 as <-. injection Ev as <-. exact Hrel. }
  eapply (forEachMatch_invariant (fun l => eventNames l = events'));
    [| exact H2 | exact Habi].
  intros m l Hl. unfold abiStateVarStep. cbv zeta.
  rewrite eventNames_app, Hl. cbn. apply app_nil_r.
Qed.

(* ================================================================= *)
(** ** The risk labels of the report *)

(** X12: the colour, the level and the description of the report change
    together, at the scores 70 and 40, both included in the higher band:
    HIGH, the red colour and the sentence on significant vulnerabilities
    from 70 on, MEDIUM, the yellow colour and the sentence on moderate
    concerns from 40 to 69, LOW, the green colour and the sentence on
    minimal risks below 40.  The grade changes above 70 and above 40.  So
    without an escalating diagnostic the report says HIGH while the grade is
    not C exactly at the score 70, and it says MEDIUM while the grade is A
    exactly at 40. *)
Theorem risk_labels_and_grade :
  forall (score : Z) (slitherResults : list Bug) (solhintResults : list Issue),
    existsb Spec.escalates slitherResults = false ->
    (getRiskLevel score = "HIGH" <-> (70 <= score)%Z)
    /\ (getRiskLevel score = "MEDIUM" <-> (40 <= score < 70)%Z)
    /\ (getRiskLevel score = "LOW" <-> (score < 40)%Z)
    /\ (getRiskColor score = "#dc3545" <-> getRiskLevel score = "HIGH")
    /\ (getRiskColor score = "#ffc107" <-> getRiskLevel score = "MEDIUM")
    /\ (getRiskColor score = "#28a745" <-> getRiskLevel score = "LOW")
    /\ (getRiskDescription score = significantRisk
        <-> getRiskLevel score = "HIGH")
    /\ (getRiskDescription score = moderateRisk
        <-> getRiskLevel score = "MEDIUM")
    /\ (getRiskDescription score = minimalRisk
        <-> getRiskLevel score = "LOW")
    /\ (getRiskLevel score = "HIGH"
        /\ computeAuditGrade score slitherResults solhintResults <> GradeC
        <-> score = 70%Z)
    /\ (getRiskLevel score = "MEDIUM"
        /\ computeAuditGrade score slitherResults solhintResults = GradeA
        <-> score = 40%Z).
Proof.
  intros score bugs issues Hno.
  rewrite computeAuditGrade_grade. unfold Spec.grade. rewrite Hno.
  unfold getRiskLevel, getRiskColor, getRiskDescription. rewrite orb_false_r.
  destruct (70 <=? score)%Z eqn:E70; destruct (40 <=? score)%Z eqn:E40;
    destruct (70 <? score)%Z eqn:L70; destruct (40 <? score)%Z eqn:L40;
    repeat match goal with
           | H : (_ <=? _)%Z = true |- _ => apply Z.leb_le in H
           | H : (_ <=? _)%Z = false |- _ => apply Z.leb_gt in H
           | H : (_ <? _)%Z = true |- _ => apply Z.ltb_lt in H
           | H : (_ <? _)%Z = false |- _ => apply Z.ltb_ge in H
           end;
    try lia;
    repeat split; intros; try discriminate; try lia; try reflexivity;
    repeat match goal with
           | H : _ /\ _ |- _ => destruct H
           end;
    try discriminate; try congruence; try lia.
Qed.

Lemma risk_labels_and_grade_witness :
  getRiskLevel 70 = "HIGH"
  /\ computeAuditGrade 70 [potentialReentrancy] [] <> GradeC.
Proof.
  apply (risk_labels_and_grade 70 [potentialReentrancy] []);
    [vm_compute; reflexivity | reflexivity].
Defined.

(* ================================================================= *)
(** ** Fetching verified source and the address route *)

Section AddressRoute.

Lemma falsy_false (x : option string) :
  Js.falsy x = false -> exists text, x = Some text /\ text <> "".
Proof.
  destruct x as [text|]; cbn; [| discriminate].
  intros H. exists text. split; [reflexivity |]. now apply String.eqb_neq.
Qed.

(** The result of the fetch, read off the answer of the explorer. *)
Lemma fetchContractFromSnowtrace_cases (explorer : Explorer)
    (contractAddress sourceCode : string) :
  fetchContractFromSnowtrace explorer contractAddress = Some sourceCode <->
  exists data contract others,
    httpGet explorer
      (String.append baseUrl
         (String.append "?module=contract&action=getsourcecode&address="
            contractAddress))
      (if String.eqb (apiKey explorer) "" then []
       else [("apikey", apiKey explorer)]) = Some data
    /\ api_status data = Some "1"
    /\ api_result data = Some (contract :: others)
    /\ SourceCode contract = Some sourceCode
    /\ sourceCode <> "".
Proof.
  unfold fetchContractFromSnowtrace. cbv zeta. split.
  - destruct (httpGet explorer _ _) as [data|]; [| discriminate].
    destruct (api_status data) as [status|] eqn:Es; [| discriminate].
    destruct (api_result data) as [[|contract others]|] eqn:Er;
      try discriminate.
    destruct (String.eqb status "1") eqn:E1; [| discriminate].
    apply String.eqb_eq in E1. subst status.
    destruct (Js.falsy (SourceCode contract)) eqn:Ef; [discriminate |].
    cbn [negb]. intros Hs.
    apply falsy_false in Ef as (text & Ht & Hne).
    exists data, contract, others.
    rewrite Hs in Ht. injection Ht as <-. auto.
  - intros (data & contract & others & -> & -> & -> & Hs & Hne).
    cbn. rewrite Hs. cbn.
    apply String.eqb_neq in Hne. rewrite Hne. reflexivity.
Qed.

End AddressRoute.

(** X13: the fetch gives a text exactly when the explorer answers the
    request for the address with status 1 and a list whose first record has
    a non-empty source, and the text is that source.  The address route
    answers 400 when the address is missing or empty and 404 when the fetch
    gives nothing, both with the world untouched; otherwise the analysis
    runs on the fetched source of that first record, starting with the write
    of the temporary file, and the answer is 200 or 500. *)
Theorem postAnalyzeAddress_statuses :
  forall (explorer : Explorer) (env : Env) (contractAddress : option string)
         (useOpenAI : option bool) (w : World),
    let request address :=
      httpGet explorer
        (String.append baseUrl
           (String.append "?module=contract&action=getsourcecode&address="
              address))
        (if String.eqb (apiKey explorer) "" then []
         else [("apikey", apiKey explorer)]) in
    (forall address sourceCode,
       fetchContractFromSnowtrace explorer address = Some sourceCode <->
       exists data contract others,
         request address = Some data
         /\ api_status data = Some "1"
         /\ api_result data = Some (contract :: others)
         /\ SourceCode contract = Some sourceCode
         /\ sourceCode <> "")
    /\ ((Js.falsy contractAddress = true /\
         postAnalyzeAddress explorer env contractAddress useOpenAI w
         = (Ok {| address_status := 400;
                  address_body :=
                    AddressError "Contract address is required" None |}, w))
        \/ (exists address,
              contractAddress = Some address /\ address <> ""
              /\ fetchContractFromSnowtrace explorer address = None
              /\ postAnalyzeAddress explorer env contractAddress useOpenAI w
                 = (Ok {| address_status := 404;
                          address_body :=
                            AddressError "Contract not found or not verified"
                              None |}, w))
        \/ (exists address sourceCode data contract others l,
              contractAddress = Some address /\ address <> ""
              /\ request address = Some data
              /\ api_status data = Some "1"
              /\ api_result data = Some (contract :: others)
              /\ SourceCode contract = Some sourceCode
              /\ sourceCode <> ""
              /\ fetchContractFromSnowtrace explorer address = Some sourceCode
              /\ log (snd (postAnalyzeAddress explorer env contractAddress
                             useOpenAI w))
                 = log w ++ WriteFile contractFile sourceCode :: l
              /\ forall response,
                   fst (postAnalyzeAddress explorer env contractAddress
                          useOpenAI w) = Ok response ->
                   address_status response = 200
                   \/ address_status response = 500)).
Proof.
  intros explorer env contractAddress useOpenAI w request.
  split; [intros address sourceCode; apply fetchContractFromSnowtrace_cases |].
  unfold postAnalyzeAddress. cbv zeta.
  destruct (Js.falsy contractAddress) eqn:Ea; [left; auto |].
  right. apply falsy_false in Ea as (address & -> & Hne).
  cbn [Js.orEmpty].
  destruct (fetchContractFromSnowtrace explorer address) as [sourceCode|]
    eqn:Ef.
  - pose proof Ef as Hfetch.
    apply fetchContractFromSnowtrace_cases in Hfetch
      as (data & contract & others & Hget & Hst & Hres & Hsrc & Hs).
    right. exists address, sourceCode, data, contract, others.
    assert (Hf : Js.falsy (Some sourceCode) = false).
    { cbn. now apply String.eqb_neq. }
    rewrite Hf. cbn [Js.orEmpty].
    destruct (analyzeContract_log env sourceCode
                match useOpenAI with Some b => b | None => false end w)
      as [l Hl].
    exists l.
    destruct (analyzeContract env sourceCode _ w) as [[a | e |] w1];
      cbn [fst snd] in *;
      (split; [reflexivity |]; split; [exact Hne |]; split; [exact Hget |];
       split; [exact Hst |]; split; [exact Hres |]; split; [exact Hsrc |];
       split; [exact Hs |]; split; [exact Ef |]; split; [exact Hl |]).
    + intros r [= <-]. now left.
    + intros r [= <-]. now right.
    + discriminate.
  - left. exists address. cbn [Js.falsy]. auto.
Qed.

(* ================================================================= *)
(** ** Parameter lists *)

Section Params.

Lemma allChars_append (p : ascii -> bool) (a b : string) :
  allChars p (String.append a b) = allChars p a && allChars p b.
Proof.
  induction a as [|c a IH]; cbn [String.append allChars]; [reflexivity |].
  now rewrite IH, andb_assoc.
Qed.

Lemma allChars_weaken (p q : ascii -> bool) (s : string) :
  (forall c, p c = true -> q c = true) ->
  allChars p s = true -> allChars q s = true.
Proof.
  intros Hpq. induction s as [|c s IH]; cbn [allChars]; [reflexivity |].
  intros H. apply andb_true_iff in H as [Hc Hs].
  now rewrite (Hpq _ Hc), IH.
Qed.

Lemma isToken_parts (s : string) :
  isToken s = true ->
  s <> ""
  /\ allChars (fun c => negb (Js.isSpace c)) s = true
  /\ allChars (fun c => negb (Ascii.eqb c ",")) s = true
  /\ Js.includes s "indexed" = false.
Proof.
  unfold isToken. intros H.
  apply andb_true_iff in H as [H Hi]. apply andb_true_iff in H as [Hne Ht].
  apply negb_true_iff in Hne, Hi. apply String.eqb_neq in Hne.
  repeat split; try assumption.
  - eapply allChars_weaken; [| exact Ht].
    unfold isTokenChar. intros c Hc. now apply andb_true_iff in Hc.
  - eapply allChars_weaken; [| exact Ht].
    unfold isTokenChar. intros c Hc. now apply andb_true_iff in Hc.
Qed.

(** [split] on a text without the separator, and at the first separator. *)
Lemma split_none (c : ascii) (a : string) :
  allChars (fun d => negb (Ascii.eqb d c)) a = true -> Js.split c a = [a].
Proof.
  induction a as [|d a IH]; cbn [allChars Js.split]; [reflexivity |].
  intros H. apply andb_true_iff in H as [Hd Ha].
  apply negb_true_iff in Hd. rewrite Hd, (IH Ha). reflexivity.
Qed.

Lemma split_first (c : ascii) (a tail : string) :
  allChars (fun d => negb (Ascii.eqb d c)) a = true ->
  Js.split c (String.append a (String c tail)) = a :: Js.split c tail.
Proof.
  induction a as [|d a IH]; cbn [allChars String.append Js.split].
  - intros _. now rewrite Ascii.eqb_refl.
  - intros H. apply andb_true_iff in H as [Hd Ha].
    apply negb_true_iff in Hd. rewrite Hd, (IH Ha). reflexivity.
Qed.

(** [trim] leaves alone a text that begins and ends with a token. *)
Lemma trimEnd_token (a n : string) :
  n <> "" -> allChars (fun c => negb (Js.isSpace c)) n = true ->
  Js.trimEnd (String.append a n) = String.append a n.
Proof.
  intros Hne Hn.
  assert (Hbase : Js.trimEnd n = n).
  { clear Hne. induction n as [|c n IH]; [reflexivity |].
    cbn [allChars] in Hn. apply andb_true_iff in Hn as [Hc Hn].
    apply negb_true_iff in Hc. cbn [Js.trimEnd]. rewrite (IH Hn), Hc.
    now destruct n. }
  induction a as [|c a IH]; cbn [String.append]; [exact Hbase |].
  cbn [Js.trimEnd]. rewrite IH.
  destruct (String.append a n) eqn:E; [| reflexivity].
  destruct a; cbn in E; [congruence | discriminate].
Qed.

Lemma trim_token_ends (t middle n : string) :
  t <> "" -> allChars (fun c => negb (Js.isSpace c)) t = true ->
  n <> "" -> allChars (fun c => negb (Js.isSpace c)) n = true ->
  Js.trim (String.append t (String.append middle n))
  = String.append t (String.append middle n)
  /\ Js.trim (String " " (String.append t (String.append middle n)))
     = String.append t (String.append middle n).
Proof.
  intros Ht Hts Hn Hns.
  assert (Hstart : Js.trimStart (String.append t (String.append middle n))
                   = String.append t (String.append middle n)).
  { destruct t as [|c t]; [now elim Ht |].
    cbn [allChars] in Hts. apply andb_true_iff in Hts as [Hc _].
    apply negb_true_iff in Hc. cbn [String.append Js.trimStart].
    now rewrite Hc. }
  assert (Hend : Js.trimEnd (String.append t (String.append middle n))
                 = String.append t (String.append middle n)).
  { rewrite <- append_assoc. now apply trimEnd_token. }
  unfold Js.trim. split.
  - now rewrite Hstart.
  - cbn [Js.trimStart]. change (Js.isSpace " ") with true. cbn iota.
    now rewrite Hstart.
Qed.

(** A word without white space that starts in [t] before a blank lies in
    [t]. *)
Lemma prefix_before_space (word : string) :
  allChars (fun c => negb (Js.isSpace c)) word = true ->
  forall t tail,
    prefix word (String.append t (String " " tail)) = true ->
    prefix word t = true.
Proof.
  induction word as [|c word IH]; intros Hw t tail H;
    [now destruct t |].
  cbn [allChars] in Hw. apply andb_true_iff in Hw as [Hc Hw].
  destruct t as [|d t]; cbn [String.append prefix] in *.
  - destruct (ascii_dec c " ") as [-> |]; [discriminate Hc | discriminate H].
  - destruct (ascii_dec c d); [| discriminate]. eapply IH; eassumption.
Qed.

Lemma includes_cons_false (c : ascii) (s word : string) :
  Js.includes (String c s) word = false ->
  prefix word (String c s) = false /\ Js.includes s word = false.
Proof.
  cbn [Js.includes]. unfold Js.startsWith. intros H.
  now apply orb_false_iff in H.
Qed.

Lemma includes_around_space (word t n : string) :
  word <> "" -> allChars (fun c => negb (Js.isSpace c)) word = true ->
  Js.includes t word = false -> Js.includes n word = false ->
  Js.includes (String.append t (String " " n)) word = false.
Proof.
  intros Hne Hw Ht Hn. induction t as [|d t IH]; cbn [String.append].
  - cbn [Js.includes]. unfold Js.startsWith. rewrite Hn, orb_false_r.
    destruct word as [|c word]; [now elim Hne |].
    cbn [allChars] in Hw. apply andb_true_iff in Hw as [Hc _].
    cbn [prefix]. destruct (ascii_dec c " ") as [-> |]; [discriminate Hc |].
    reflexivity.
  - apply includes_cons_false in Ht as [Hp Ht].
    cbn [Js.includes]. unfold Js.startsWith. rewrite (IH Ht), orb_false_r.
    destruct (prefix word (String d (String.append t (String " " n)))) eqn:E;
      [| reflexivity].
    apply (prefix_before_space word Hw (String d t) n) in E. congruence.
Qed.

Lemma replaceFirst_absent (s word replacement : string) :
  Js.includes s word = false -> replaceFirst s word replacement = s.
Proof.
  induction s as [|c s IH]; intros H.
  - cbn [Js.includes] in H. apply orb_false_iff in H as [H _].
    cbn [replaceFirst]. now rewrite H.
  - cbn [Js.includes] in H. apply orb_false_iff in H as [H Hs].
    cbn [replaceFirst]. rewrite H, (IH Hs). reflexivity.
Qed.

Lemma replaceFirst_indexed (t n : string) :
  Js.includes t "indexed" = false ->
  replaceFirst (String.append t (String.append " indexed " n)) "indexed" ""
  = String.append t (String " " (String " " n)).
Proof.
  induction t as [|d t IH]; intros Ht.
  - vm_compute. reflexivity.
  - apply includes_cons_false in Ht as [Hp Ht].
    cbn [String.append replaceFirst]. unfold Js.startsWith.
    destruct (prefix "indexed" (String d (String.append t _))) eqn:E.
    + apply (prefix_before_space "indexed" eq_refl (String d t)
               (String.append "indexed " n)) in E.
      congruence.
    + f_equal. apply IH, Ht.
Qed.

(** [split(/\s+/)] on tokens and blanks. *)
Lemma splitSpaces_token (inSep : bool) (u : string) :
  allChars (fun c => negb (Js.isSpace c)) u = true ->
  splitSpaces inSep u = [u].
Proof.
  revert inSep. induction u as [|c u IH]; intros inSep H; [reflexivity |].
  cbn [allChars] in H. apply andb_true_iff in H as [Hc Hu].
  apply negb_true_iff in Hc. cbn [splitSpaces]. rewrite Hc, (IH false Hu).
  reflexivity.
Qed.

Lemma splitSpaces_first (u tail : string) :
  allChars (fun c => negb (Js.isSpace c)) u = true ->
  splitSpaces false (String.append u (String " " tail))
  = u :: splitSpaces true tail.
Proof.
  induction u as [|c u IH]; intros H; [reflexivity |].
  cbn [allChars] in H. apply andb_true_iff in H as [Hc Hu].
  apply negb_true_iff in Hc. cbn [String.append splitSpaces].
  rewrite Hc, (IH Hu). reflexivity.
Qed.

(** One written parameter, with or without a leading blank, is parsed to
    its entry. *)
Lemma parseParam_render (d : Declared) :
  wellFormed d = true ->
  parseParam (renderParam d) = Some (paramOf d)
  /\ parseParam (String " " (renderParam d)) = Some (paramOf d).
Proof.
  unfold wellFormed. intros H. apply andb_true_iff in H as [Ht Hn].
  apply isToken_parts in Ht as (Htne & Hts & _ & Hti).
  apply isToken_parts in Hn as (Hnne & Hns & _ & Hni).
  destruct d as [t idx n]. cbn [decl_type decl_name decl_indexed] in *.
  unfold renderParam, paramOf. cbn [decl_type decl_name decl_indexed].
  set (middle := if idx then " indexed " else " ").
  destruct (trim_token_ends t middle n Htne Hts Hnne Hns) as [Htrim1 Htrim2].
  assert (Hne : String.eqb (String.append t (String.append middle n)) ""
                = false).
  { apply String.eqb_neq. destruct t; [now elim Htne | discriminate]. }
  assert (Hparse :
    (let trimmed := String.append t (String.append middle n) in
     let isIndexed := Js.includes trimmed "indexed" in
     let cleanParam := Js.trim (replaceFirst trimmed "indexed" "") in
     let parts := splitSpaces false cleanParam in
     (isIndexed, nth 0 parts "", nth 1 parts "")) = (idx, t, n)).
  { cbv zeta. unfold middle. destruct idx.
    - rewrite replaceFirst_indexed by exact Hti.
      destruct (trim_token_ends t " " n Htne Hts Hnne Hns) as [Hc _].
      change (String.append t (String " " (String " " n)))
        with (String.append t (String.append " " (String " " n))).
      assert (Hc2 : Js.trim (String.append t
                               (String.append " " (String " " n)))
                    = String.append t (String.append " " (String " " n))).
      { unfold Js.trim.
        replace (Js.trimStart _) with
          (String.append t (String.append " " (String " " n))).
        - change (String.append " " (String " " n))
            with (String.append "  " n).
          rewrite <- append_assoc. now apply trimEnd_token.
        - destruct t as [|c t]; [now elim Htne |].
          cbn [allChars] in Hts. apply andb_true_iff in Hts as [Hcc _].
          apply negb_true_iff in Hcc. cbn [String.append Js.trimStart].
          now rewrite Hcc. }
      rewrite Hc2. cbn [String.append].
      rewrite (splitSpaces_first t (String " " n) Hts).
      cbn [splitSpaces]. change (Js.isSpace " ") with true. cbn iota.
      rewrite (splitSpaces_token true n Hns). cbn [nth].
      assert (Hinc : Js.includes
                       (String.append t (String.append " indexed " n))
                       "indexed" = true).
      { change (String.append " indexed " n)
          with (String.append " " (String.append "indexed"
                                     (String.append " " n))).
        rewrite <- append_assoc. apply includes_append. }
      cbn [String.append] in Hinc. rewrite Hinc. reflexivity.
    - assert (Hno : Js.includes (String.append t (String.append " " n))
                      "indexed" = false).
      { apply includes_around_space; [discriminate | reflexivity | | ];
          assumption. }
      rewrite Hno, replaceFirst_absent by exact Hno.
      destruct (trim_token_ends t " " n Htne Hts Hnne Hns) as [Hc _].
      rewrite Hc. cbn [String.append].
      rewrite (splitSpaces_first t n Hts), (splitSpaces_token true n Hns).
      reflexivity. }
  cbv zeta in Hparse. injection Hparse as Hi Ht' Hn'.
  unfold parseParam. cbv zeta. rewrite Htrim1, Htrim2, Hne, Hi, Ht', Hn'.
  split; reflexivity.
Qed.

Lemma renderParam_no_comma (d : Declared) :
  wellFormed d = true ->
  allChars (fun c => negb (Ascii.eqb c ",")) (renderParam d) = true.
Proof.
  unfold wellFormed. intros H. apply andb_true_iff in H as [Ht Hn].
  apply isToken_parts in Ht as (_ & _ & Htc & _).
  apply isToken_parts in Hn as (_ & _ & Hnc & _).
  unfold renderParam. rewrite !allChars_append, Htc, Hnc.
  destruct (decl_indexed d); reflexivity.
Qed.

(** The pieces of a written list after the first: each parameter behind a
    blank. *)
Lemma mapFilter_rest (ds : list Declared) :
  forallb wellFormed ds = true ->
  ds <> [] ->
  mapFilter parseParam (Js.split "," (String " " (renderParams ds)))
  = map paramOf ds.
Proof.
  induction ds as [|d ds IH]; intros Hwf Hne; [now elim Hne |].
  cbn [forallb] in Hwf. apply andb_true_iff in Hwf as [Hd Hds].
  destruct (parseParam_render d Hd) as [_ Hp].
  pose proof (renderParam_no_comma d Hd) as Hc.
  destruct ds as [|d' ds].
  - cbn [renderParams map].
    rewrite (split_none "," (String " " (renderParam d))) by exact Hc.
    cbn [mapFilter]. now rewrite Hp.
  - change (renderParams (d :: d' :: ds))
      with (String.append (renderParam d)
              (String "," (String " " (renderParams (d' :: ds))))).
    change (String " " (String.append (renderParam d) ?x))
      with (String.append (String " " (renderParam d)) x).
    rewrite split_first by exact Hc.
    cbn [mapFilter map]. rewrite Hp.
    f_equal. apply IH; [exact Hds | discriminate].
Qed.

End Params.

(** X14: a parameter list written the usual way, each parameter as its
    type, the word indexed or nothing, and its name, separated by a comma
    and a blank, where types and names are not empty, hold no white space
    and no comma and nowhere contain the letters of indexed in a row (a name
    such as indexedAt is excluded), is parsed to exactly its parameters in
    order, each with its type (also as internal type), its name and its
    indexed flag; the empty list gives no parameter. *)
Theorem parseFunctionParams_written_list :
  forall ds : list Declared,
    forallb wellFormed ds = true ->
    parseFunctionParams (renderParams ds) = map paramOf ds.
Proof.
  intros [|d ds] Hwf; [reflexivity |].
  cbn [forallb] in Hwf. apply andb_true_iff in Hwf as [Hd Hds].
  destruct (parseParam_render d Hd) as [Hp _].
  pose proof (renderParam_no_comma d Hd) as Hc.
  assert (Hguard : forall tail,
            String.eqb (String.append (renderParam d) tail) ""
            || String.eqb (Js.trim (String.append (renderParam d) tail)) ""
            = false).
  { intros tail. unfold wellFormed in Hd.
    apply andb_true_iff in Hd as [Ht _].
    apply isToken_parts in Ht as (Htne & Hts & _).
    unfold renderParam. destruct (decl_type d) as [|c t]; [now elim Htne |].
    cbn [allChars] in Hts. apply andb_true_iff in Hts as [Hcs _].
    apply negb_true_iff in Hcs.
    cbn [String.append String.eqb orb]. unfold Js.trim.
    cbn [Js.trimStart]. rewrite Hcs. cbn [Js.trimEnd].
    destruct (Js.trimEnd _); rewrite ?Hcs; reflexivity. }
  unfold parseFunctionParams.
  destruct ds as [|d' ds].
  - cbn [renderParams map].
    pose proof (Hguard "") as H0. rewrite append_nil_r in H0. rewrite H0.
    rewrite (split_none "," (renderParam d)) by exact Hc.
    cbn [mapFilter]. now rewrite Hp.
  - change (renderParams (d :: d' :: ds))
      with (String.append (renderParam d)
              (String "," (String " " (renderParams (d' :: ds))))).
    rewrite Hguard, split_first by exact Hc.
    cbn [mapFilter]. rewrite Hp. cbn [map]. f_equal.
    apply mapFilter_rest; [exact Hds | discriminate].
Qed.

Lemma parseFunctionParams_written_list_witness :
  parseFunctionParams "address indexed user, uint256 amount"
  = [ {| param_type := "address"; param_name := "user";
         param_internalType := "address"; param_indexed := Some true |};
      {| param_type := "uint256"; param_name := "amount";
         param_internalType := "uint256"; param_indexed := Some false |} ].
Proof.
  apply (parseFunctionParams_written_list
           [ {| decl_type := "address"; decl_indexed := true;
                decl_name := "user" |};
             {| decl_type := "uint256"; decl_indexed := false;
                decl_name := "amount" |} ]).
  vm_compute. reflexivity.
Defined.

(* ================================================================= *)
(** ** Reading the output of Slither *)

Section SlitherOutput.

Lemma truthy_orElse (v : option Json) (fallback : Json) :
  truthy (Some fallback) = true -> truthy (Some (orElse v fallback)) = true.
Proof.
  intros Hf. unfold orElse. destruct v as [x|]; [| exact Hf].
  destruct (truthy (Some x)) eqn:E; [exact E | exact Hf].
Qed.

Lemma pushElement_Ok (detector element : Json) (bugs bugs' : list RawBug) :
  pushElement detector element bugs = Ok bugs' ->
  length bugs' = S (length bugs)
  /\ (Forall namedPlace bugs -> Forall namedPlace bugs').
Proof.
  unfold pushElement.
  destruct (getProp detector "check"); try discriminate.
  destruct (getProp detector "description"); try discriminate.
  destruct (getProp detector "impact"); try discriminate.
  destruct (getProp detector "confidence"); try discriminate.
  destruct (getProp element "line"); try discriminate.
  destruct (getProp element "function_name"); try discriminate.
  destruct (getProp element "filename"); try discriminate.
  cbn [bind]. intros [= <-]. split.
  - rewrite length_app. cbn. lia.
  - intros H. apply Forall_app. split; [exact H |].
    constructor; [| constructor].
    split; cbn [raw_function raw_file]; now apply truthy_orElse.
Qed.

Lemma forEachOutcome_elements (detector : Json) (es : list Json) :
  forall bugs bugs',
    forEachOutcome (pushElement detector) es bugs = Ok bugs' ->
    length bugs' = length bugs + length es
    /\ (Forall namedPlace bugs -> Forall namedPlace bugs').
Proof.
  induction es as [|e es IH]; intros bugs bugs' H; cbn [forEachOutcome] in H.
  - injection H as <-. cbn. split; [lia | trivial].
  - destruct (pushElement detector e bugs) as [bugs1| |] eqn:E;
      cbn [bind] in H; try discriminate.
    apply pushElement_Ok in E as [Hl Hp].
    apply IH in H as [Hl' Hp']. cbn [length]. split; [lia | auto].
Qed.

Lemma pushDetector_Ok (detector : Json) (bugs bugs' : list RawBug) :
  pushDetector detector bugs = Ok bugs' ->
  detector <> JNull
  /\ length bugs' = length bugs + elementCount detector
  /\ (Forall namedPlace bugs -> Forall namedPlace bugs').
Proof.
  unfold pushDetector, elementCount.
  destruct detector as [| b | n | s | items | fields];
    cbn [getProp bind String.eqb Ascii.eqb Bool.eqb];
    try discriminate;
    try (intros [= <-]; repeat split; [discriminate | lia | trivial]).
  destruct (lookupLast "elements" fields) as [es|];
    [| intros [= <-]; repeat split; [discriminate | lia | trivial]].
  destruct es as [| b | n | s | items | fields'];
    cbn [truthy jsonForEach];
    try discriminate;
    try (intros [= <-]; repeat split; [discriminate | lia | trivial]);
    try (destruct (_ : bool);
         [discriminate
         | intros [= <-]; repeat split; [discriminate | lia | trivial]]).
  intros H. apply forEachOutcome_elements in H as [Hl Hp].
  repeat split; [discriminate | exact Hl | exact Hp].
Qed.

Lemma forEachOutcome_detectors (ds : list Json) :
  forall bugs bugs',
    forEachOutcome pushDetector ds bugs = Ok bugs' ->
    ~ In JNull ds
    /\ length bugs' = length bugs + list_sum (map elementCount ds)
    /\ (Forall namedPlace bugs -> Forall namedPlace bugs').
Proof.
  induction ds as [|d ds IH]; intros bugs bugs' H; cbn [forEachOutcome] in H.
  - injection H as <-. cbn. split; [tauto | split; [lia | trivial]].
  - destruct (pushDetector d bugs) as [bugs1| |] eqn:E;
      cbn [bind] in H; try discriminate.
    apply pushDetector_Ok in E as (Hd & Hl & Hp).
    apply IH in H as (Hn & Hl' & Hp').
    cbn [map In]. change (list_sum (elementCount d :: map elementCount ds))
      with (elementCount d + list_sum (map elementCount ds)).
    split; [| split; [lia | auto]].
    intros [Heq | Hin]; [congruence | exact (Hn Hin)].
Qed.

Lemma collectBugs_Ok (results : Json) (bugs : list RawBug) :
  collectBugs results = Ok bugs ->
  bugs = []
  \/ exists ds,
       detectorsOf results = Some ds
       /\ ~ In JNull ds
       /\ length bugs = list_sum (map elementCount ds)
       /\ Forall namedPlace bugs.
Proof.
  unfold collectBugs, detectorsOf. cbv zeta.
  destruct (getProp results "results") as [inner| |]; cbn [bind];
    try discriminate.
  destruct inner as [r|]; [| intros [= <-]; now left].
  destruct (truthy (Some r)); [| intros [= <-]; now left].
  destruct (getProp r "detectors") as [detectors| |]; cbn [bind];
    try discriminate.
  destruct detectors as [ds|]; [| intros [= <-]; now left].
  destruct (truthy (Some ds)) eqn:Et; [| intros [= <-]; now left].
  destruct ds as [| b | n | s | items | fields]; cbn [jsonForEach];
    try discriminate.
  intros H. apply forEachOutcome_detectors in H as (Hn & Hl & Hp).
  right. exists items.
  split; [reflexivity |]. split; [exact Hn |]. split; [exact Hl |].
  apply Hp. constructor.
Qed.

Lemma getProp_nonNull (v : Json) (key : string) :
  nonNull v = true -> exists x, getProp v key = Ok x.
Proof. destruct v; cbn; try discriminate; eauto. Qed.

Lemma pushElement_walkable (detector element : Json) (bugs : list RawBug) :
  nonNull detector = true -> nonNull element = true ->
  exists bugs', pushElement detector element bugs = Ok bugs'.
Proof.
  intros Hd He. unfold pushElement.
  destruct (getProp_nonNull detector "check" Hd) as [? ->].
  destruct (getProp_nonNull detector "description" Hd) as [? ->].
  destruct (getProp_nonNull detector "impact" Hd) as [? ->].
  destruct (getProp_nonNull detector "confidence" Hd) as [? ->].
  destruct (getProp_nonNull element "line" He) as [? ->].
  destruct (getProp_nonNull element "function_name" He) as [? ->].
  destruct (getProp_nonNull element "filename" He) as [? ->].
  cbn [bind]. eauto.
Qed.

Lemma forEachOutcome_elements_walkable (detector : Json) (es : list Json) :
  nonNull detector = true -> forallb nonNull es = true ->
  forall bugs, exists bugs',
    forEachOutcome (pushElement detector) es bugs = Ok bugs'.
Proof.
  intros Hd. induction es as [|e es IH]; intros Hes bugs;
    cbn [forEachOutcome]; [eauto |].
  cbn [forallb] in Hes. apply andb_true_iff in Hes as [He Hes].
  destruct (pushElement_walkable detector e bugs Hd He) as [bugs1 ->].
  cbn [bind]. apply IH, Hes.
Qed.

Lemma pushDetector_walkable (detector : Json) (bugs : list RawBug) :
  walkable detector = true -> exists bugs', pushDetector detector bugs = Ok bugs'.
Proof.
  unfold walkable, pushDetector.
  destruct detector as [| b | n | s | items | fields];
    cbn [getProp bind String.eqb Ascii.eqb Bool.eqb];
    try discriminate; try solve [intros _; eauto].
  destruct (lookupLast "elements" fields) as [es|]; [| eauto].
  destruct es as [| b | n | s | items | fields'];
    cbn [truthy jsonForEach negb];
    try discriminate; try solve [intros _; eauto];
    try solve [intros H; apply negb_true_iff in H; rewrite H; eauto].
  intros H. now apply forEachOutcome_elements_walkable.
Qed.

Lemma forEachOutcome_detectors_walkable (ds : list Json) :
  forallb walkable ds = true ->
  forall bugs, exists bugs', forEachOutcome pushDetector ds bugs = Ok bugs'.
Proof.
  induction ds as [|d ds IH]; intros Hds bugs; cbn [forEachOutcome];
    [eauto |].
  cbn [forallb] in Hds. apply andb_true_iff in Hds as [Hd Hds].
  destruct (pushDetector_walkable d bugs Hd) as [bugs1 ->].
  cbn [bind]. apply IH, Hds.
Qed.

Lemma collectBugs_detectors (results : Json) (ds : list Json) :
  detectorsOf results = Some ds ->
  collectBugs results = forEachOutcome pushDetector ds [].
Proof.
  unfold detectorsOf, collectBugs. cbv zeta.
  destruct (getProp results "results") as [[r|]| |]; try discriminate.
  cbn [bind]. destruct (truthy (Some r)); [| discriminate].
  destruct (getProp r "detectors") as [detectors| |]; try discriminate.
  cbn [bind]. destruct detectors as [v|]; [| discriminate].
  destruct v as [| b | n | s | items | fields]; try discriminate.
  intros [= <-]. reflexivity.
Qed.

End SlitherOutput.

(** X15: the findings read from the output of Slither are all or nothing.
    A blank output, an output that does not parse, or a [null] among the
    detectors gives the empty list, whatever the other detectors hold; when
    every detector can be walked the list has one finding per element of
    every detector; and in every case the list is empty or complete, each
    finding carrying a truthy function and file (N/A and contract.sol when
    the element names none). *)
Theorem slitherCallback_all_or_nothing :
  forall (parse : string -> option Json) (stdout : string),
    let bugs := slitherCallback parse stdout in
    (Js.trim stdout = "" -> bugs = [])
    /\ (parse stdout = None -> bugs = [])
    /\ (forall results ds,
          parse stdout = Some results -> detectorsOf results = Some ds ->
          In JNull ds -> bugs = [])
    /\ (forall results ds,
          Js.trim stdout <> "" ->
          parse stdout = Some results -> detectorsOf results = Some ds ->
          forallb walkable ds = true ->
          length bugs = list_sum (map elementCount ds))
    /\ (bugs = []
        \/ exists results ds,
             parse stdout = Some results /\ detectorsOf results = Some ds
             /\ length bugs = list_sum (map elementCount ds))
    /\ Forall namedPlace bugs.
Proof.
  intros parse stdout bugs. unfold bugs, slitherCallback.
  split; [| split; [| split; [| split; [| split]]]].
  - intros ->. rewrite String.eqb_refl, orb_true_r. reflexivity.
  - intros ->. destruct (_ || _); reflexivity.
  - intros results ds -> Hds Hnull. destruct (_ || _); [reflexivity |].
    destruct (collectBugs results) as [found| |] eqn:E; try reflexivity.
    apply collectBugs_Ok in E as [-> | (ds' & Hds' & Hn & _)];
      [reflexivity |].
    rewrite Hds in Hds'. injection Hds' as <-. now elim Hn.
  - intros results ds Hblank -> Hds Hwalk.
    assert (Hne : String.eqb stdout "" || String.eqb (Js.trim stdout) ""
                  = false).
    { apply orb_false_iff. split; apply String.eqb_neq; [| exact Hblank].
      intros ->. now apply Hblank. }
    rewrite Hne, (collectBugs_detectors _ _ Hds).
    destruct (forEachOutcome_detectors_walkable ds Hwalk []) as [found E].
    rewrite E. apply forEachOutcome_detectors in E as (_ & Hl & _).
    exact Hl.
  - destruct (_ || _); [now left |].
    destruct (parse stdout) as [results|]; [| now left].
    destruct (collectBugs results) as [found| |] eqn:E; try now left.
    apply collectBugs_Ok in E as [-> | (ds & Hds & _ & Hl & _)];
      [now left |].
    right. exists results, ds. auto.
  - destruct (_ || _); [constructor |].
    destruct (parse stdout) as [results|]; [| constructor].
    destruct (collectBugs results) as [found| |] eqn:E; try constructor.
    apply collectBugs_Ok in E as [-> | (ds & _ & _ & _ & Hp)];
      [constructor | exact Hp].
Qed.

(* ================================================================= *)
(** ** Classification and case *)

Section TokenType.

Lemma includes_longer (s long short : string) :
  Js.includes long short = true ->
  Js.includes s long = true -> Js.includes s short = true.
Proof. intros Hls Hs. eapply includes_trans; eassumption. Qed.

End TokenType.

(** X16: the contract type is decided by the first marker group found in
    the lower-cased text, in the order ERC20, ERC721, ERC1155, DeFi,
    Governance, Token, and is Custom when none is found; the markers with a
    leading i add nothing, since each contains the marker without it. *)
Theorem detectTokenType_first_match :
  forall sourceCode : string,
    let has := Js.includes (Js.toLowerCase sourceCode) in
    let defi := has "uniswap" || has "pancakeswap" || has "amm" in
    let governance := has "governance" || has "dao" in
    let token := has "nft" || has "token" in
    detectTokenType sourceCode
    = if has "erc20" then "ERC20"
      else if has "erc721" then "ERC721"
      else if has "erc1155" then "ERC1155"
      else if defi then "DeFi"
      else if governance then "Governance"
      else if token then "Token"
      else "Custom".
Proof.
  intros sourceCode has defi governance token.
  unfold detectTokenType. cbv zeta. fold has.
  assert (H20 : has "erc20" || has "ierc20" = has "erc20").
  { destruct (has "ierc20") eqn:E; [| apply orb_false_r].
    unfold has in *. rewrite (includes_longer _ "ierc20" "erc20" eq_refl E).
    reflexivity. }
  assert (H721 : has "erc721" || has "ierc721" = has "erc721").
  { destruct (has "ierc721") eqn:E; [| apply orb_false_r].
    unfold has in *. rewrite (includes_longer _ "ierc721" "erc721" eq_refl E).
    reflexivity. }
  assert (H1155 : has "erc1155" || has "ierc1155" = has "erc1155").
  { destruct (has "ierc1155") eqn:E; [| apply orb_false_r].
    unfold has in *.
    rewrite (includes_longer _ "ierc1155" "erc1155" eq_refl E).
    reflexivity. }
  rewrite H20, H721, H1155. reflexivity.
Qed.

(* ================================================================= *)
(** ** Findings as parsed *)

Section ParsedFindings.

Lemma lowerOrEmpty_None (v : option Json) :
  lowerOrEmpty v = None <-> truthy v = true /\ isString v = false.
Proof.
  destruct v as [[| b | n | s | items | fields]|]; cbn;
    try (destruct b); try (destruct (n =? 0)%Z);
    cbn; split; try discriminate; try tauto;
    intros [H1 H2]; discriminate.
Qed.

Lemma typedField_None (v : option Json) :
  typedField v = None <-> truthy v = true /\ isString v = false.
Proof.
  destruct v as [[| b | n | s | items | fields]|]; cbn;
    try (destruct b); try (destruct (n =? 0)%Z);
    cbn; split; try discriminate; try tauto;
    intros [H1 H2]; discriminate.
Qed.

(** On a field with a typed reading the guarded read is the typed one. *)
Lemma lowerOrEmpty_typed (v : option Json) (field : option string) :
  typedField v = Some field ->
  lowerOrEmpty v = Some (Js.toLowerCase (Js.orEmpty field)).
Proof.
  destruct v as [[| b | n | s | items | fields]|]; cbn;
    try (destruct b); try (destruct (n =? 0)%Z); cbn;
    intros H; try discriminate; injection H as <-; reflexivity.
Qed.

Lemma forEachRaw_fold {A A' B : Type} (R : A -> A' -> Prop)
    (f : A -> B -> option B) (g : B -> A' -> B) :
  (forall x y acc, R x y -> f x acc = Some (g acc y)) ->
  forall l l' acc,
    Forall2 R l l' -> forEachRaw f l acc = Some (fold_left g l' acc).
Proof.
  intros Hf l l' acc H. revert acc.
  induction H as [|x y l l' Hxy _ IH]; intros acc; cbn [forEachRaw fold_left];
    [reflexivity |].
  rewrite (Hf x y acc Hxy). apply IH.
Qed.

Lemma forEachRaw_None {A B : Type} (f : A -> B -> option B)
    (bad : A -> Prop) :
  (forall x acc, f x acc = None <-> bad x) ->
  forall l acc,
    forEachRaw f l acc = None <-> exists x, In x l /\ bad x.
Proof.
  intros Hf. induction l as [|x l IH]; intros acc; cbn [forEachRaw].
  - split; [discriminate | intros (x & [] & _)].
  - destruct (f x acc) as [acc'|] eqn:E.
    + rewrite IH. split.
      * intros (y & Hin & Hy). exists y. split; [now right | exact Hy].
      * intros (y & [<- | Hin] & Hy); [| eauto].
        apply (Hf x acc) in Hy. congruence.
    + split; [| reflexivity]. intros _. exists x.
      split; [now left | now apply (Hf x acc)].
Qed.

Lemma someRaw_existsb {A A' : Type} (R : A -> A' -> Prop)
    (test : A -> option bool) (test' : A' -> bool) :
  (forall x y, R x y -> test x = Some (test' y)) ->
  forall l l', Forall2 R l l' -> someRaw test l = Some (existsb test' l').
Proof.
  intros Ht l l' H.
  induction H as [|x y l l' Hxy _ IH]; cbn [someRaw existsb]; [reflexivity |].
  rewrite (Ht x y Hxy). destruct (test' y); [reflexivity | exact IH].
Qed.

(** A scan throws exactly at an element it reaches, that is one before
    which the test was false throughout. *)
Lemma someRaw_None {A : Type} (test : A -> option bool) (l : list A) :
  someRaw test l = None <->
  exists before x after,
    l = before ++ x :: after /\ test x = None
    /\ forall y, In y before -> test y = Some false.
Proof.
  induction l as [|x l IH]; cbn [someRaw].
  - split; [discriminate |].
    intros (before & y & after & H & _). now destruct before.
  - destruct (test x) as [[|]|] eqn:E.
    + split; [discriminate |].
      intros ([|z before] & y & after & H & Hy & Hpre);
        injection H as <- _; [congruence |].
      specialize (Hpre x (or_introl eq_refl)). congruence.
    + rewrite IH. split.
      * intros (before & y & after & -> & Hy & Hpre).
        exists (x :: before), y, after. split; [reflexivity |].
        split; [exact Hy |]. intros z [<- | Hz]; [exact E | now apply Hpre].
      * intros ([|z before] & y & after & H & Hy & Hpre);
          injection H as <- H; [congruence |].
        exists before, y, after. split; [exact H |]. split; [exact Hy |].
        intros z' Hz'. apply Hpre. now right.
    + split; [| reflexivity]. intros _. exists [], x, l.
      split; [reflexivity |]. split; [exact E |]. intros y [].
Qed.

Lemma rawNameHas_None (markers : string * string) (bug : RawBug) :
  rawNameHas markers bug = None <->
  truthy (raw_name bug) = true /\ isString (raw_name bug) = false.
Proof.
  unfold rawNameHas. rewrite <- lowerOrEmpty_None.
  destruct (lowerOrEmpty (raw_name bug)); split; congruence.
Qed.

Lemma filterRaw_None {A : Type} (test : A -> option bool) (l : list A) :
  filterRaw test l = None <-> exists x, In x l /\ test x = None.
Proof.
  induction l as [|x l IH]; cbn [filterRaw].
  - split; [discriminate | intros (x & [] & _)].
  - destruct (test x) as [keep|] eqn:E.
    + destruct (filterRaw test l) as [kept|].
      * split; [discriminate |].
        intros (y & [<- | Hin] & Hy); [congruence |].
        assert (H : @None (list A) = None) by reflexivity.
        destruct IH as [_ IH]. discriminate IH. eauto.
      * split; [| reflexivity]. intros _.
        destruct IH as [IH _]. destruct (IH eq_refl) as (y & Hin & Hy).
        exists y. split; [now right | exact Hy].
    + split; [| reflexivity]. intros _. exists x. split; [now left | exact E].
Qed.

Lemma rawIsCritical_None (bug : RawBug) :
  rawIsCritical bug = None <-> hasIncludes (raw_name bug) = false.
Proof.
  unfold rawIsCritical, rawIncludes, hasIncludes.
  destruct (raw_name bug) as [[| b | n | s | items | fields]|];
    try (split; [reflexivity | reflexivity]).
  - destruct (Js.includes s "reentrancy"); [split; discriminate |].
    destruct (Js.includes s "overflow"); split; discriminate.
  - destruct (existsb _ items); [split; discriminate |].
    destruct (existsb _ items); split; discriminate.
Qed.

(** On a finding with a typed reading the raw predicates are the typed
    ones. *)
Lemma rawIsHigh_typed (raw : RawBug) (bug : Bug) :
  typedAs raw bug -> rawIsHigh raw = isHighSeverity bug.
Proof.
  intros [_ Hs]. unfold rawIsHigh, isHighSeverity.
  destruct (raw_severity raw) as [[| b | n | s | items | fields]|];
    cbn in Hs; try (destruct b); try (destruct (n =? 0)%Z); cbn in Hs;
    try discriminate; injection Hs as <-; reflexivity.
Qed.

Lemma rawIsCritical_typed (raw : RawBug) (bug : Bug) :
  typedAs raw bug ->
  rawIsCritical raw = option_map isCriticalName (bug_name bug).
Proof.
  intros [Hn _]. unfold rawIsCritical, rawIncludes, isCriticalName.
  destruct (raw_name raw) as [[| b | n | s | items | fields]|];
    cbn in Hn; try (destruct b); try (destruct (n =? 0)%Z); cbn in Hn;
    try discriminate; injection Hn as <-; cbn [option_map];
    try reflexivity.
  destruct (Js.includes s "reentrancy"); [reflexivity |].
  destruct (Js.includes s "overflow"); reflexivity.
Qed.

Lemma filter_typed (raws : list RawBug) (bugs : list Bug) :
  Forall2 typedAs raws bugs ->
  length (filter rawIsHigh raws) = length (filter isHighSeverity bugs).
Proof.
  intros H. induction H as [|raw bug raws bugs Hrb _ IH]; cbn [filter];
    [reflexivity |].
  rewrite (rawIsHigh_typed raw bug Hrb).
  destruct (isHighSeverity bug); cbn [length]; now rewrite IH.
Qed.

Lemma filterRaw_typed (raws : list RawBug) (bugs : list Bug) :
  Forall2 typedAs raws bugs ->
  match filterCritical bugs with
  | Ok kept =>
      exists kept', filterRaw rawIsCritical raws = Some kept'
                    /\ length kept' = length kept
  | _ => filterRaw rawIsCritical raws = None
  end.
Proof.
  intros H. induction H as [|raw bug raws bugs Hrb _ IH];
    cbn [filterCritical filterRaw].
  - exists []. split; reflexivity.
  - rewrite (rawIsCritical_typed raw bug Hrb).
    destruct (bug_name bug) as [name|]; cbn [option_map]; [| reflexivity].
    destruct (filterCritical bugs) as [kept | e |]; cbn [bind].
    + destruct IH as (kept' & -> & Hlen).
      eexists. split; [reflexivity |].
      destruct (isCriticalName name); cbn [length]; now rewrite Hlen.
    + now rewrite IH.
    + now rewrite IH.
Qed.

(** A finding with impact 3 makes the scorer throw while the grader and the
    warnings return; behind a finding whose name decides the three scans the
    grader does not reach a name that is an array, and the warnings look the
    markers up among the elements of the array. *)
Example consumers_on_untyped_findings :
  let finding name severity :=
    {| raw_name := Some name;
       raw_description := None;
       raw_severity := Some severity;
       raw_confidence := None;
       raw_line := None;
       raw_function := JStr "N/A";
       raw_file := JStr "contract.sol" |} in
  let numbered := [finding (JStr "reentrancy-eth") (JNum 3)] in
  let listed :=
    [finding (JStr "proxy mint suicide") (JStr "High");
     finding (JArr [JStr "overflow"]) (JStr "Low")] in
  computeRiskScoreRaw numbered [] = None
  /\ computeAuditGradeRaw 0 numbered [] = Some GradeA
  /\ generateDeploymentWarningsRaw numbered [] = Some [criticalWarning]
  /\ computeRiskScoreRaw listed [] = Some 30%Z
  /\ computeAuditGradeRaw 30 listed [] = Some GradeC
  /\ generateDeploymentWarningsRaw listed []
     = Some [highSeverityWarning 1; criticalWarning]
  /\ computeAuditGradeRaw 30 (rev listed) [] = None.
Proof. cbv zeta. repeat split; reflexivity. Qed.

End ParsedFindings.

(** X17: the scorer, the grader and the builder of the warnings on findings
    whose name and severity are whatever was parsed.  On findings whose
    name and severity are strings or falsy values they give what they give
    on the typed reading of the findings.  The scorer throws exactly when a
    severity, of Slither or of Solhint, is truthy and not a string.  The
    grader throws exactly when one of its three scans reaches a name that
    is truthy and not a string, the earlier names holding neither marker of
    that scan.  The builder of the warnings throws exactly when a name is
    neither a string nor an array. *)
Theorem consumers_on_parsed_findings :
  forall (slitherResults : list RawBug) (solhintResults : list RawIssue),
    (forall bugs issues,
       Forall2 typedAs slitherResults bugs ->
       Forall2 typedIssueAs solhintResults issues ->
       computeRiskScoreRaw slitherResults solhintResults
       = Some (computeRiskScore bugs issues)
       /\ (forall riskScore,
             computeAuditGradeRaw riskScore slitherResults solhintResults
             = Some (computeAuditGrade riskScore bugs issues))
       /\ generateDeploymentWarningsRaw slitherResults solhintResults
          = match generateDeploymentWarnings bugs issues with
            | Ok warnings => Some warnings
            | _ => None
            end)
    /\ (computeRiskScoreRaw slitherResults solhintResults = None <->
        (exists bug,
           In bug slitherResults
           /\ truthy (raw_severity bug) = true
           /\ isString (raw_severity bug) = false)
        \/ (exists issue,
              In issue solhintResults
              /\ truthy (raw_issue_severity issue) = true
              /\ isString (raw_issue_severity issue) = false))
    /\ (forall riskScore,
          computeAuditGradeRaw riskScore slitherResults solhintResults = None
          <->
          exists before bug after markers,
            slitherResults = before ++ bug :: after
            /\ truthy (raw_name bug) = true
            /\ isString (raw_name bug) = false
            /\ In markers [proxyMarkers; mintMarkers; killMarkers]
            /\ forall earlier,
                 In earlier before -> rawNameHas markers earlier = Some false)
    /\ (generateDeploymentWarningsRaw slitherResults solhintResults = None <->
        exists bug,
          In bug slitherResults /\ hasIncludes (raw_name bug) = false).
Proof.
  intros raws rawIssues. split; [| split; [| split]].
  - intros bugs issues Hb Hi. split; [| split].
    + unfold computeRiskScoreRaw, computeRiskScore. cbv zeta.
      rewrite (forEachRaw_fold typedAs _
                 (fun score bug => (score + slitherWeight bug)%Z))
        with (l' := bugs); [| | exact Hb].
      * rewrite (forEachRaw_fold typedIssueAs _
                   (fun score issue => (score + solhintWeight issue)%Z))
          with (l' := issues); [reflexivity | | exact Hi].
        intros x y acc Hxy. rewrite (lowerOrEmpty_typed _ _ Hxy). reflexivity.
      * intros x y acc [_ Hs]. rewrite (lowerOrEmpty_typed _ _ Hs).
        reflexivity.
    + intros riskScore. unfold computeAuditGradeRaw, computeAuditGrade.
      cbv zeta.
      assert (Hscan : forall markers,
                someRaw (rawNameHas markers) raws
                = Some (existsb (fun bug => nameHas bug (fst markers)
                                            || nameHas bug (snd markers))
                          bugs)).
      { intros markers. apply (someRaw_existsb typedAs); [| exact Hb].
        intros x y [Hn _]. unfold rawNameHas, nameHas.
        rewrite (lowerOrEmpty_typed _ _ Hn). reflexivity. }
      rewrite !Hscan. reflexivity.
    + unfold generateDeploymentWarningsRaw, generateDeploymentWarnings.
      cbv zeta. rewrite (filter_typed raws bugs Hb).
      pose proof (filterRaw_typed raws bugs Hb) as Hf.
      destruct (filterCritical bugs) as [kept | e |]; cbn [bind].
      * destruct Hf as (kept' & -> & ->). reflexivity.
      * now rewrite Hf.
      * now rewrite Hf.
  - unfold computeRiskScoreRaw. cbv zeta.
    set (f := fun (bug : RawBug) (score : Z) =>
                match lowerOrEmpty (raw_severity bug) with
                | Some severity => Some (score + severityWeight severity)%Z
                | None => None
                end).
    set (g := fun (issue : RawIssue) (score : Z) =>
                match lowerOrEmpty (raw_issue_severity issue) with
                | Some severity => Some (score + lintWeight severity)%Z
                | None => None
                end).
    assert (Hf : forall l acc,
              forEachRaw f l acc = None <->
              exists bug, In bug l /\ truthy (raw_severity bug) = true
                          /\ isString (raw_severity bug) = false).
    { apply forEachRaw_None. intros x acc. unfold f.
      rewrite <- lowerOrEmpty_None.
      destruct (lowerOrEmpty (raw_severity x)); split; congruence. }
    assert (Hg : forall l acc,
              forEachRaw g l acc = None <->
              exists issue, In issue l
                            /\ truthy (raw_issue_severity issue) = true
                            /\ isString (raw_issue_severity issue) = false).
    { apply forEachRaw_None. intros x acc. unfold g.
      rewrite <- lowerOrEmpty_None.
      destruct (lowerOrEmpty (raw_issue_severity x)); split; congruence. }
    destruct (forEachRaw f raws 0%Z) as [score|] eqn:Ef.
    + destruct (forEachRaw g rawIssues score) as [score'|] eqn:Eg.
      * split; [discriminate |]. intros [H | H].
        -- apply (Hf raws 0%Z) in H. congruence.
        -- apply (Hg rawIssues score) in H. congruence.
      * split; [| reflexivity]. intros _. right.
        now apply (Hg rawIssues score).
    + split; [| reflexivity]. intros _. left. now apply (Hf raws 0%Z).
  - intros riskScore. unfold computeAuditGradeRaw. split.
    + intros Hnone.
      assert (Hsome : exists markers,
                In markers [proxyMarkers; mintMarkers; killMarkers]
                /\ someRaw (rawNameHas markers) raws = None).
      { destruct (someRaw (rawNameHas proxyMarkers) raws) eqn:E1;
          [| exists proxyMarkers; split; [cbn; tauto | exact E1]].
        destruct (someRaw (rawNameHas mintMarkers) raws) eqn:E2;
          [| exists mintMarkers; split; [cbn; tauto | exact E2]].
        destruct (someRaw (rawNameHas killMarkers) raws) eqn:E3;
          [discriminate |].
        exists killMarkers. split; [cbn; tauto | exact E3]. }
      destruct Hsome as (markers & Hin & Hscan).
      apply someRaw_None in Hscan as (before & bug & after & -> & Hb & Hpre).
      apply rawNameHas_None in Hb as [Ht Hs].
      exists before, bug, after, markers. auto.
    + intros (before & bug & after & markers & -> & Ht & Hs & Hin & Hpre).
      assert (Hscan : someRaw (rawNameHas markers) (before ++ bug :: after)
                      = None).
      { apply someRaw_None. exists before, bug, after.
        split; [reflexivity |]. split; [| exact Hpre].
        apply rawNameHas_None. split; assumption. }
      destruct Hin as [<- | [<- | [<- | []]]]; rewrite ?Hscan.
      * reflexivity.
      * destruct (someRaw (rawNameHas proxyMarkers) _); reflexivity.
      * destruct (someRaw (rawNameHas proxyMarkers) _); [| reflexivity].
        destruct (someRaw (rawNameHas mintMarkers) _); reflexivity.
  - unfold generateDeploymentWarningsRaw. cbv zeta.
    destruct (filterRaw rawIsCritical raws) as [kept|] eqn:E.
    + split; [discriminate |]. intros (bug & Hin & Hb).
      assert (H : filterRaw rawIsCritical raws = None).
      { apply filterRaw_None. exists bug. split; [exact Hin |].
        now apply rawIsCritical_None. }
      congruence.
    + split; [| reflexivity]. intros _.
      apply filterRaw_None in E as (bug & Hin & Hb).
      exists bug. split; [exact Hin | now apply rawIsCritical_None].
Qed.
